(** * fileseq: frame ranges and file sequences

    A shallow embedding of [src/fileseq/all.py] (Python 2): the frame-range
    grammar, [FrameSet], [FileSequence], [framesToFrameRange] and
    [padFrameRange], followed by the properties of the specification that
    concern them.

    Conventions of the embedding.
    - Python integers are [Z]; [xrange] is taken over the mathematical
      integers (frame numbers are far from the platform's C long bound).
    - Python 2 [str] is [string] (a sequence of 8-bit characters).
    - A raised exception is the [Raise] case of [pyresult]; the exception
      classes met in the module are the constructors of [exn].
    - The regular expressions of the module are terms of [regex], written
      construct by construct after the pattern text, and run by a
      backtracking matcher with Python's priorities (greedy, lazy, ordered
      alternatives).
    - A Python list passed to a function is passed by reference: a function
      that sorts its argument in place returns the final contents of that
      list next to its result. *)

From Stdlib Require Import ZArith Ascii String List Lia Bool.
From Stdlib Require Import DecimalString DecimalZ DecimalPos DecimalFacts.
From stdpp Require Import base decidable option numbers list sorting gmap sets strings.

Local Open Scope Z_scope.

(** ** Exceptions and results *)

Inductive exn : Type :=
| ParseException (msg : string)
| ValueError
| IndexError
| TypeError
| AttributeError
| KeyError.

Inductive pyresult (A : Type) : Type :=
| Ok (a : A)
| Raise (e : exn).
Arguments Ok {A} a.
Arguments Raise {A} e.

#[global] Instance result_ret : MRet pyresult := fun A a => Ok a.
#[global] Instance result_bind : MBind pyresult := fun A B f m =>
  match m with
  | Ok a => f a
  | Raise e => Raise e
  end.

(** ** Python primitives on strings and integers *)

Module Py.

(** [str(n)] for an integer: decimal digits, a leading minus sign for a
    negative number. *)
Definition str (n : Z) : string := NilZero.string_of_int (Z.to_int n).

Definition is_digit (c : ascii) : bool :=
  let n := nat_of_ascii c in (48 <=? n)%nat && (n <=? 57)%nat.

(** C [isspace] in the C locale. *)
Definition is_space (c : ascii) : bool :=
  let n := nat_of_ascii c in ((9 <=? n)%nat && (n <=? 13)%nat) || (n =? 32)%nat.

Fixpoint lstrip (s : string) : string :=
  match s with
  | String c s' => if is_space c then lstrip s' else s
  | EmptyString => s
  end.

Fixpoint all_chars (p : ascii -> bool) (s : string) : bool :=
  match s with
  | String c s' => p c && all_chars p s'
  | EmptyString => true
  end.

(** The longest prefix of [s] made of characters of [p], and the rest. *)
Fixpoint span (p : ascii -> bool) (s : string) : string * string :=
  match s with
  | String c s' =>
      if p c then let '(a, b) := span p s' in (String c a, b) else (EmptyString, s)
  | EmptyString => (EmptyString, EmptyString)
  end.

(** [int(s)] for a string, base 10: blanks, an optional sign, blanks again
    (Python 2 skips them after the sign), at least one digit, blanks. *)
Definition int_of_string (s : string) : pyresult Z :=
  let s1 := lstrip s in
  let '(neg, s2) :=
    match s1 with
    | String "-" t => (true, t)
    | String "+" t => (false, t)
    | _ => (false, s1)
    end in
  let '(ds, tl) := span is_digit (lstrip s2) in
  match ds with
  | EmptyString => Raise ValueError
  | _ =>
      if all_chars is_space tl then
        match NilEmpty.uint_of_string ds with
        | Some d => Ok (if neg then - Z.of_uint d else Z.of_uint d)
        | None => Raise ValueError
        end
      else Raise ValueError
  end.

Fixpoint zeros (n : nat) : string :=
  match n with
  | O => EmptyString
  | S n' => String "0" (zeros n')
  end.

(** [s.zfill(width)]: zeros on the left, after a leading sign. *)
Definition zfill (s : string) (width : nat) : string :=
  let pad := zeros (width - String.length s) in
  match s with
  | String "-" t => String "-" (pad +:+ t)
  | String "+" t => String "+" (pad +:+ t)
  | _ => pad +:+ s
  end.

(** [format(n, "0%dd" % width)]: sign-aware zero padding of an integer. *)
Definition format_0d (n : Z) (width : nat) : string := zfill (str n) width.

(** [sep.join(l)]. *)
Fixpoint join (sep : string) (l : list string) : string :=
  match l with
  | [] => EmptyString
  | [x] => x
  | x :: l' => x +:+ sep +:+ join sep l'
  end.

(** [s.split(sep)] for a one-character separator: never an empty list. *)
Fixpoint split (sep : ascii) (s : string) : list string :=
  match s with
  | EmptyString => [EmptyString]
  | String c s' =>
      if Ascii.eqb c sep then EmptyString :: split sep s'
      else match split sep s' with
           | x :: l => String c x :: l
           | [] => [String c EmptyString]
           end
  end.

Fixpoint contains (c : ascii) (s : string) : bool :=
  match s with
  | String a s' => Ascii.eqb a c || contains c s'
  | EmptyString => false
  end.

(** [l[i]] with Python's negative indices; [IndexError] out of range. *)
Definition getitem {A : Type} (l : list A) (i : Z) : pyresult A :=
  let n := Z.of_nat (length l) in
  let j := if i <? 0 then i + n else i in
  if (0 <=? j) && (j <? n) then
    match l !! Z.to_nat j with
    | Some x => Ok x
    | None => Raise IndexError
    end
  else Raise IndexError.

(** CPython's [get_len_of_range]: the number of items of an [xrange]. *)
Definition len_of_range (lo hi step : Z) : Z :=
  if lo <? hi then 1 + (hi - 1 - lo) / step else 0.

(** [xrange(start, stop, step)]: item [i] is [start + i * step];
    [ValueError] for a zero step. *)
Definition xrange (start stop step : Z) : pyresult (list Z) :=
  if step =? 0 then Raise ValueError
  else
    let n := if 0 <? step then len_of_range start stop step
             else len_of_range stop start (- step) in
    Ok ((fun i => start + Z.of_nat i * step) <$> seq 0 (Z.to_nat n)).

(** [l.sort()] on integers. *)
Definition sorted (l : list Z) : list Z := merge_sort Z.le l.

(** [s.replace(c, "")] for a one-character [c]: every [c] removed. *)
Fixpoint remove_char (c : ascii) (s : string) : string :=
  match s with
  | EmptyString => EmptyString
  | String a s' =>
      if Ascii.eqb a c then remove_char c s' else String a (remove_char c s')
  end.

(** [c * n] for a one-character string [c]: empty for [n <= 0]. *)
Definition repeat_char (c : ascii) (n : Z) : string :=
  Nat.iter (Z.to_nat n) (String c) EmptyString.

End Py.

(** ** Regular expressions

    The constructs used by the patterns of the module.  Repetition is only
    ever applied to a character class, so [Star] and [LazyStar] take a
    class.  The matcher is in continuation-passing style: alternatives are
    tried in Python's order and the first complete match wins; the captures
    of an abandoned branch are dropped with it. *)

Module Re.

Inductive regex : Type :=
| Caret                          (* ^ *)
| Dollar                         (* $ *)
| Lit (c : ascii)                (* a literal character *)
| Class (p : ascii -> bool)      (* one character of a class *)
| Star (p : ascii -> bool)       (* class*, greedy *)
| LazyStar (p : ascii -> bool)   (* class*?, lazy *)
| Cat (r1 r2 : regex)            (* r1 r2 *)
| Or (r1 r2 : regex)             (* r1|r2 *)
| Opt (r : regex)                (* r?, greedy *)
| Grp (g : nat) (r : regex).     (* capturing group number g *)

(** class+ and class+? *)
Definition Plus (p : ascii -> bool) : regex := Cat (Class p) (Star p).
Definition LazyPlus (p : ascii -> bool) : regex := Cat (Class p) (LazyStar p).

(** Captures: entry [g] is the text of group [g], [None] while the group
    has not taken part in the match. *)
Definition caps : Type := list (option string).
Definition cont : Type := string -> nat -> caps -> option caps.

Definition orelse {A : Type} (a : option A) (b : option A) : option A :=
  match a with Some _ => a | None => b end.

Fixpoint star (p : ascii -> bool) (s : string) (pos : nat) (k : cont) (c : caps)
  : option caps :=
  match s with
  | String a s' =>
      if p a then orelse (star p s' (S pos) k c) (k s pos c) else k s pos c
  | EmptyString => k s pos c
  end.

Fixpoint lazy_star (p : ascii -> bool) (s : string) (pos : nat) (k : cont) (c : caps)
  : option caps :=
  orelse (k s pos c)
    match s with
    | String a s' => if p a then lazy_star p s' (S pos) k c else None
    | EmptyString => None
    end.

(** [$] holds at the end of the string and before a final newline. *)
Definition at_end (s : string) : bool :=
  match s with
  | EmptyString => true
  | String c EmptyString => Ascii.eqb c "010"
  | _ => false
  end.

Fixpoint run (r : regex) (s : string) (pos : nat) (k : cont) (c : caps)
  : option caps :=
  match r with
  | Caret => if (pos =? 0)%nat then k s pos c else None
  | Dollar => if at_end s then k s pos c else None
  | Lit a =>
      match s with
      | String b s' => if Ascii.eqb a b then k s' (S pos) c else None
      | EmptyString => None
      end
  | Class p =>
      match s with
      | String b s' => if p b then k s' (S pos) c else None
      | EmptyString => None
      end
  | Star p => star p s pos k c
  | LazyStar p => lazy_star p s pos k c
  | Cat r1 r2 => run r1 s pos (fun s' pos' c' => run r2 s' pos' k c') c
  | Or r1 r2 => orelse (run r1 s pos k c) (run r2 s pos k c)
  | Opt r1 => orelse (run r1 s pos k c) (k s pos c)
  | Grp g r1 =>
      run r1 s pos
        (fun s' pos' c' => k s' pos' (<[g := Some (substring 0 (pos' - pos) s)]> c')) c
  end.

(** [pattern.match(s)] for a pattern with [n] groups: the match object is
    the list of captures, entry 0 being the whole match. *)
Definition re_match (n : nat) (r : regex) (s : string) : option caps :=
  run (Grp 0 r) s 0 (fun _ _ c => Some c) (replicate (S n) None).

(** [m.group(g)] and [m.groups()]; [None] is Python's [None]. *)
Definition group (m : caps) (g : nat) : option string := mjoin (m !! g).
Definition groups (m : caps) : list (option string) := drop 1 m.

(** Character classes of the patterns. *)
Definition digit : ascii -> bool := Py.is_digit.                  (* [0-9] *)
Definition dot (c : ascii) : bool := negb (Ascii.eqb c "010").    (* . *)
Definition one_of (cs : string) (c : ascii) : bool := Py.contains c cs.
Definition not_dot (c : ascii) : bool := negb (Ascii.eqb c "."). (* [^.] *)

End Re.

Import Re.

Declare Scope regex_scope.
Delimit Scope regex_scope with re.
Infix "·" := Cat (at level 40, left associativity) : regex_scope.
Infix "|||" := Or (at level 50, left associativity) : regex_scope.

(** ** The patterns of the module *)

(** [\-?[0-9]+] *)
Definition signed_int : regex := (Opt (Lit "-") · Plus digit)%re.

(** [_PATTERNS[0]]: [^(\-?[0-9]+)\-(\-?[0-9]+)$] *)
Definition pattern_range : regex :=
  (Caret · Grp 1 signed_int · Lit "-" · Grp 2 signed_int · Dollar)%re.

(** [_PATTERNS[1]]: [^(\-?[0-9]+)$] *)
Definition pattern_single : regex :=
  (Caret · Grp 1 signed_int · Dollar)%re.

(** [_PATTERNS[2]]: [^(\-?[0-9]+)\-(\-?[0-9]+)([:xy]{1})([0-9]+)$] *)
Definition pattern_stepped : regex :=
  (Caret · Grp 1 signed_int · Lit "-" · Grp 2 signed_int
     · Grp 3 (Class (one_of ":xy")) · Grp 4 (Plus digit) · Dollar)%re.

(** [_PATTERNS], each with its number of groups. *)
Definition _PATTERNS : list (nat * regex) :=
  [(2%nat, pattern_range); (1%nat, pattern_single); (4%nat, pattern_stepped)].

(** [_SEQ_PATTERN], piece by piece as in the source text:
    - [^]
    - group 1, optional: [.*/]
    - then either [$]
    - or group 2: [.+?], group 3: [[\:xy\-0-9,]*], group 4: [[\#\@]*],
      and either group 5: [\.[^.]*$] or [$]. *)
Definition _SEQ_PATTERN : regex :=
  (Caret · Opt (Grp 1 (Star dot · Lit "/"))
     · (Dollar
        ||| (Grp 2 (LazyPlus dot)
             · Grp 3 (Star (fun c => one_of ":xy-," c || digit c))
             · Grp 4 (Star (one_of "#@"))
             · (Grp 5 (Lit "." · Star not_dot · Dollar) ||| Dollar))))%re.

(** [_PADDING = {"#": 4, "@": 1}]; [KeyError] for another character. *)
Definition _PADDING (c : ascii) : pyresult nat :=
  if Ascii.eqb c "#" then Ok 4%nat
  else if Ascii.eqb c "@" then Ok 1%nat
  else Raise KeyError.

(** ** [framesToFrameRange] and [padFrameRange] *)

(** The local function [append] of [framesToFrameRange]; [result] is the
    list it appends to. *)
Definition append (zfill : nat) (result : list string)
    (start end_ chunk count : Z) : list string :=
  let fmt := fun n => Py.format_0d n zfill in
  if (count =? 1) || (start =? end_) then
    result ++ [fmt start]
  else if (1 <? chunk) && (2 <? count) then
    result ++ [fmt start +:+ "-" +:+ fmt end_ +:+ "x" +:+ Py.str chunk]
  else if 2 <? count then
    result ++ [Py.join "-" [fmt start; fmt end_]]
  else
    result ++ [Py.join "," [fmt start; fmt end_]].

(** The [for num, frame in enumerate(frames)] loop of [framesToFrameRange];
    [items] is what remains of the enumeration, [start], [count] and
    [result] are the loop's variables.  The loop ends with the value of
    [result]. *)
Fixpoint compact_loop (zfill : nat) (frames : list Z) (items : list (nat * Z))
    (start count : Z) (result : list string) : pyresult (list string) :=
  match items with
  | [] => Ok result
  | (num, frame) :: items' =>
      if frame =? start then compact_loop zfill frames items' start count result
      else
        a_fr ← Py.getitem frames (Z.of_nat num - 1);
        b_fr ← Py.getitem frames (Z.of_nat num);
        let a_chunk := b_fr - a_fr in
        if a_chunk =? 0 then compact_loop zfill frames items' start count result
        else
          let count := count + 1 in
          match Py.getitem frames (Z.of_nat num + 1) with
          | Raise IndexError =>
              (* except IndexError: append and break *)
              Ok (append zfill result start b_fr a_chunk count)
          | Raise e => Raise e
          | Ok c_fr =>
              let b_chunk := c_fr - b_fr in
              if negb (a_chunk =? b_chunk) then
                if (count =? 2) && (b_chunk =? 1) then
                  compact_loop zfill frames items' b_fr 1
                    (append zfill result start start 1 1)
                else
                  compact_loop zfill frames items' c_fr 1
                    (append zfill result start b_fr a_chunk count)
              else compact_loop zfill frames items' start count result
          end
  end.

(** [enumerate(l)]. *)
Definition enumerate {A : Type} (l : list A) : list (nat * A) :=
  zip (seq 0 (length l)) l.

(** [framesToFrameRange(frames, sort, zfill)].  The list [frames] is the
    caller's object: the second component is its contents when the
    function returns ([frames.sort()] sorts it in place). *)
Definition framesToFrameRange (frames : list Z) (sort : bool) (zfill : nat)
  : pyresult string * list Z :=
  if (length frames =? 1)%nat then
    (n ← Py.getitem frames 0; Ok (Py.str n), frames)
  else
    let frames := if sort then Py.sorted frames else frames in
    (start ← Py.getitem frames 0;
     result ← compact_loop zfill frames (enumerate frames) start 1 [];
     Ok (Py.join "," result),
     frames).

(** [padFrameRange(frs, zfill)]. *)
Definition padFrameRange (frs : string) (zfill : nat) : pyresult string :=
  let ranges := Py.split "," frs in
  padded_ranges ←
    mapM (M := pyresult) (fun current_range =>
      if negb (Py.contains "-" current_range) then
        Ok (Py.zfill current_range zfill)
      else
        a ← Py.getitem (Py.split "-" current_range) 0;
        b ← Py.getitem (Py.split "-" current_range) 1;
        Ok (Py.zfill a zfill +:+ "-" +:+ Py.zfill b zfill)) ranges;
  Ok (Py.join "," padded_ranges).

(** ** [FrameSet] *)

Module FrameSet.

(** The instance variables [__frange], [__set] and [__list]. *)
Record t : Type := Build {
  __frange : string;
  __set : gset Z;
  __list : list Z
}.

(** [int(x)] for a group of a match: [TypeError] for [None]. *)
Definition int_of_group (x : option string) : pyresult Z :=
  match x with
  | Some s => Py.int_of_string s
  | None => Raise TypeError
  end.

(** [__addFrames(self, frames)]. *)
Definition __addFrames (self : t) (frames : list Z) : t :=
  let _f := filter (fun f => f ∉ __set self) frames in
  match _f with
  | [] => self
  | _ => {| __frange := __frange self;
            __set := __set self ∪ list_to_set _f;
            __list := __list self ++ _f |}
  end.

(** The loop [for stagger in xrange(chunk, 0, -1)] of [__handleMatch]. *)
Fixpoint stagger_loop (self : t) (start end_ : Z) (staggers : list Z) : pyresult t :=
  match staggers with
  | [] => Ok self
  | stagger :: staggers' =>
      frames ← Py.xrange start (end_ + 1) stagger;
      stagger_loop (__addFrames self frames) start end_ staggers'
  end.

(** [__handleMatch(self, match)], on [match.groups()].  For a zero chunk
    the source builds a [ParseException] and does not raise it: the
    statement has no effect. *)
Definition __handleMatch (self : t) (groups : list (option string)) : pyresult t :=
  let length := length groups in
  if (length =? 2)%nat then
    a ← Py.getitem groups 0 ≫= int_of_group;
    b ← Py.getitem groups 1 ≫= int_of_group;
    frames ← Py.xrange a (b + 1) 1;
    Ok (__addFrames self frames)
  else if (length =? 1)%nat then
    a ← Py.getitem groups 0 ≫= int_of_group;
    Ok (__addFrames self [a])
  else if (length =? 4)%nat then
    chunk ← Py.getitem groups 3 ≫= int_of_group;
    let _ := if chunk =? 0
             then Some (ParseException
               "Failed to parse part of range: %s , invalid use of the number zero.")
             else None in
    start ← Py.getitem groups 0 ≫= int_of_group;
    end_ ← Py.getitem groups 1 ≫= int_of_group;
    modifier ← Py.getitem groups 2;
    if bool_decide (modifier = Some "x") then
      frames ← Py.xrange start (end_ + 1) chunk;
      Ok (__addFrames self frames)
    else if bool_decide (modifier = Some ":") then
      staggers ← Py.xrange chunk 0 (-1);
      stagger_loop self start end_ staggers
    else if bool_decide (modifier = Some "y") then
      not_good ← Py.xrange start (end_ + 1) chunk;
      let not_good : gset Z := list_to_set not_good in
      frames ← Py.xrange start (end_ + 1) 1;
      Ok (__addFrames self (filter (fun f => f ∉ not_good) frames))
    else Ok self
  else Ok self.

(** The loop [for pat in _PATTERNS] of [__init__]: the first pattern that
    matches [part] is handled and ends the loop; [None] when no pattern
    matched. *)
Fixpoint pattern_loop (self : t) (pats : list (nat * regex)) (part : string)
  : pyresult (option t) :=
  match pats with
  | [] => Ok None
  | (n, pat) :: pats' =>
      match re_match n pat part with
      | Some m => self' ← __handleMatch self (groups m); Ok (Some self')
      | None => pattern_loop self pats' part
      end
  end.

(** The loop [for part in frange.split(",")] of [__init__]. *)
Fixpoint part_loop (self : t) (frange : string) (parts : list string) : pyresult t :=
  match parts with
  | [] => Ok self
  | part :: parts' =>
      r ← pattern_loop self _PATTERNS part;
      match r with
      | Some self' => part_loop self' frange parts'
      | None =>
          Raise (ParseException
            ("Failed to parse frame range: " +:+ frange
               +:+ " on part '" +:+ part +:+ "'"))
      end
  end.

(** [FrameSet(frange)]. *)
Definition __init__ (frange : string) : pyresult t :=
  let self := {| __frange := frange; __set := ∅; __list := [] |} in
  part_loop self frange (Py.split "," frange).

(** Position of the first occurrence of [x] in [l]. *)
Fixpoint list_index (x : Z) (l : list Z) : option Z :=
  match l with
  | [] => None
  | y :: l' => if y =? x then Some 0 else Z.succ <$> list_index x l'
  end.

(** [index(self, frame)]: [list.index] raises [ValueError] when absent. *)
Definition index (self : t) (frame : Z) : pyresult Z :=
  match list_index frame (__list self) with
  | Some i => Ok i
  | None => Raise ValueError
  end.

Definition frame (self : t) (idx : Z) : pyresult Z := Py.getitem (__list self) idx.

Definition hasFrame (self : t) (frame : Z) : bool := bool_decide (frame ∈ __set self).

Definition start (self : t) : pyresult Z := Py.getitem (__list self) 0.

Definition end_ (self : t) : pyresult Z := Py.getitem (__list self) (-1).

Definition frameRange (self : t) (zfill : nat) : pyresult string :=
  padFrameRange (__frange self) zfill.

(** The loop of [invertedFrameRange]; it ends with the value of [result]
    and the exception that left the loop, if any. *)
Fixpoint inverted_loop (frames : list Z) (items : list (nat * Z)) (result : list Z)
  : list Z * option exn :=
  match items with
  | [] => (result, None)
  | (i, frame) :: items' =>
      match Py.getitem frames (Z.of_nat i + 1) with
      | Raise e => (result, Some e)
      | Ok next_frame =>
          if next_frame - frame =? 1 then inverted_loop frames items' result
          else
            match Py.xrange (frame + 1) next_frame 1 with
            | Raise e => (result, Some e)
            | Ok gap => inverted_loop frames items' (result ++ gap)
            end
      end
  end.

(** [invertedFrameRange(self, zfill)]. *)
Definition invertedFrameRange (self : t) (zfill : nat) : pyresult string :=
  let frames := Py.sorted (elements (__set self)) in
  let '(result, raised) := inverted_loop frames (enumerate frames) [] in
  match raised with
  | Some IndexError | None =>
      (* except IndexError: pass *)
      match result with
      | [] => Ok ""
      | _ => fst (framesToFrameRange result true zfill)
      end
  | Some e => Raise e
  end.

(** [normalize(self)]: the new [FrameSet], and [self] after the call.
    [framesToFrameRange] receives the list object [self.__list] itself. *)
Definition normalize (self : t) : pyresult t * t :=
  let '(r, l) := framesToFrameRange (__list self) true 0 in
  (r ≫= __init__,
   {| __frange := __frange self; __set := __set self; __list := l |}).

Definition __getitem__ (self : t) (index : Z) : pyresult Z :=
  Py.getitem (__list self) index.

Definition __len__ (self : t) : Z := Z.of_nat (length (__list self)).

Definition __str__ (self : t) : string := __frange self.

(** [__iter__]: the values yielded, in order. *)
Definition __iter__ (self : t) : list Z := __list self.

(** The static method [isFrameRange(frange)], for a string. *)
Definition isFrameRange (frange : string) : bool :=
  let frange := Py.remove_char "@" (Py.remove_char "#" frange) in
  match frange with
  | EmptyString => false
  | _ =>
      forallb
        (fun part =>
           existsb
             (fun '(n, p) => match re_match n p part with Some _ => true | None => false end)
             _PATTERNS)
        (Py.split "," frange)
  end.

End FrameSet.

(** ** [FileSequence] *)

(** The Python values that meet [FileSequence.frame]: [None], an integer
    or a string. *)
Inductive value : Type :=
| VNone
| VInt (n : Z)
| VStr (s : string).

Definition of_group (x : option string) : value :=
  match x with
  | Some s => VStr s
  | None => VNone
  end.

Module FileSequence.

(** The instance variables.  [__basename], [__padding] and [__ext] hold a
    group of the match: a string, or [None] when the group took no part. *)
Record t : Type := Build {
  __dir : string;
  __basename : option string;
  __padding : option string;
  __frameSet : option FrameSet.t;
  __ext : option string;
  __zfill : nat
}.

(** [sum([_PADDING[c] for c in padding])]. *)
Fixpoint sum_padding (padding : string) : pyresult nat :=
  match padding with
  | EmptyString => Ok 0%nat
  | String c padding' =>
      w ← _PADDING c;
      n ← sum_padding padding';
      Ok (w + n)%nat
  end.

(** [FileSequence(sequence)]. *)
Definition __init__ (sequence : string) : pyresult t :=
  match re_match 5 _SEQ_PATTERN sequence with
  | None => Raise (ParseException ("Failed to parse FileSequence: " +:+ sequence))
  | Some m =>
      let dir := match group m 1 with
                 | None | Some EmptyString => ""
                 | Some d => d
                 end in
      let basename := group m 2 in
      let padding := group m 4 in
      frameSet ←
        match group m 3 with
        | None | Some EmptyString => Ok None
        | Some frange => fs ← FrameSet.__init__ frange; Ok (Some fs)
        end;
      let ext := group m 5 in
      zfill ←
        match padding with
        | None => Raise TypeError
        | Some p => sum_padding p
        end;
      Ok {| __dir := dir; __basename := basename; __padding := padding;
            __frameSet := frameSet; __ext := ext; __zfill := zfill |}
  end.

Definition dirname (self : t) : string := __dir self.
Definition basename (self : t) : option string := __basename self.
Definition padding (self : t) : option string := __padding self.
Definition zfill (self : t) : nat := __zfill self.
Definition frameSet (self : t) : option FrameSet.t := __frameSet self.
Definition extension (self : t) : option string := __ext self.

(** A method call on [self.__frameSet]: [AttributeError] on [None]. *)
Definition on_frameSet {A : Type} (self : t) (method : FrameSet.t -> pyresult A)
  : pyresult A :=
  match __frameSet self with
  | Some fs => method fs
  | None => Raise AttributeError
  end.

Definition start (self : t) : pyresult Z := on_frameSet self FrameSet.start.

Definition end_ (self : t) : pyresult Z := on_frameSet self FrameSet.end_.

Definition frameRange (self : t) : pyresult string :=
  on_frameSet self (fun fs => FrameSet.frameRange fs (__zfill self)).

Definition invertedFrameRange (self : t) : pyresult string :=
  on_frameSet self (fun fs => FrameSet.invertedFrameRange fs (__zfill self)).

(** [int(frame)] and [str(frame)]. *)
Definition int (v : value) : pyresult Z :=
  match v with
  | VInt n => Ok n
  | VStr s => Py.int_of_string s
  | VNone => Raise TypeError
  end.

Definition str (v : value) : string :=
  match v with
  | VInt n => Py.str n
  | VStr s => s
  | VNone => "None"
  end.

(** ["".join(items)]: [TypeError] for an item that is not a string. *)
Fixpoint join_values (items : list value) : pyresult string :=
  match items with
  | [] => Ok ""
  | VStr s :: items' => r ← join_values items'; Ok (s +:+ r)
  | _ :: _ => Raise TypeError
  end.

(** [frame(self, frame)]. *)
Definition frame (self : t) (frame : value) : pyresult string :=
  zframe ←
    match int frame with
    | Ok _fr => Ok (VStr (Py.zfill (str frame) (__zfill self)))
    | Raise ValueError => Ok frame
    | Raise e => Raise e
    end;
  join_values [VStr (__dir self); of_group (__basename self); zframe;
               of_group (__ext self)].

(** [index(self, idx)]: subscripting [None] is a [TypeError]. *)
Definition index (self : t) (idx : Z) : pyresult string :=
  match __frameSet self with
  | None => Raise TypeError
  | Some fs => f ← FrameSet.__getitem__ fs idx; frame self (VInt f)
  end.

(** [__iter__]: the paths yielded, up to the first exception; iterating
    over [None] is a [TypeError]. *)
Definition __iter__ (self : t) : pyresult (list string) :=
  match __frameSet self with
  | None => Raise TypeError
  | Some fs => mapM (M := pyresult) (fun f => frame self (VInt f)) (FrameSet.__iter__ fs)
  end.

Definition __getitem__ (self : t) (idx : Z) : pyresult string := index self idx.

Definition __len__ (self : t) : pyresult Z :=
  match __frameSet self with
  | None => Raise TypeError
  | Some fs => Ok (FrameSet.__len__ fs)
  end.

(** [__str__]; [self.__frameSet or ""] is [""] for [None] and for a
    [FrameSet] of length 0. *)
Definition __str__ (self : t) : pyresult string :=
  let frange :=
    match __frameSet self with
    | Some fs => if FrameSet.__len__ fs =? 0 then "" else FrameSet.__str__ fs
    | None => ""
    end in
  join_values [VStr (__dir self); of_group (__basename self); VStr frange;
               of_group (__padding self); of_group (__ext self)].

(** The setters.  Each returns the outcome of the call and [self] after
    it: an assignment made before an exception stays. *)
Definition setDirname (self : t) (dirname : string) : t :=
  {| __dir := dirname; __basename := __basename self; __padding := __padding self;
     __frameSet := __frameSet self; __ext := __ext self; __zfill := __zfill self |}.

Definition setBasename (self : t) (base : string) : t :=
  {| __dir := __dir self; __basename := Some base; __padding := __padding self;
     __frameSet := __frameSet self; __ext := __ext self; __zfill := __zfill self |}.

Definition setPadding (self : t) (padding : string) : pyresult unit * t :=
  let self1 :=
    {| __dir := __dir self; __basename := __basename self; __padding := Some padding;
       __frameSet := __frameSet self; __ext := __ext self; __zfill := __zfill self |} in
  match sum_padding padding with
  | Raise e => (Raise e, self1)
  | Ok zfill =>
      (Ok tt,
       {| __dir := __dir self; __basename := __basename self;
          __padding := Some padding; __frameSet := __frameSet self;
          __ext := __ext self; __zfill := zfill |})
  end.

(** [setExtention]: [ext[0]] raises [IndexError] for the empty string. *)
Definition setExtention (self : t) (ext : string) : pyresult unit * t :=
  match ext with
  | EmptyString => (Raise IndexError, self)
  | String c _ =>
      let ext := if negb (Ascii.eqb c ".") then "." +:+ ext else ext in
      (Ok tt,
       {| __dir := __dir self; __basename := __basename self;
          __padding := __padding self; __frameSet := __frameSet self;
          __ext := Some ext; __zfill := __zfill self |})
  end.

Definition setFrameSet (self : t) (frameSet : option FrameSet.t) : t :=
  {| __dir := __dir self; __basename := __basename self; __padding := __padding self;
     __frameSet := frameSet; __ext := __ext self; __zfill := __zfill self |}.

Definition setFrameRange (self : t) (frange : string) : pyresult unit * t :=
  match FrameSet.__init__ frange with
  | Raise e => (Raise e, self)
  | Ok fs => (Ok tt, setFrameSet self (Some fs))
  end.

(** [split(self)]. *)
Definition split (self : t) : pyresult (list t) :=
  r ← frameRange self;
  mapM (M := pyresult)
    (fun frange =>
       seq ← join_values [VStr (__dir self); of_group (__basename self);
                          VStr frange; of_group (__padding self);
                          of_group (__ext self)];
       __init__ seq)
    (Py.split "," r).

(** [format(self, template)].  The keyword arguments are evaluated in the
    order of the source, before [template.format] is called; the
    substitution itself is Python's [str.format], a parameter here. *)
Section Format.

Variable str_format : string -> list (string * value) -> pyresult string.

Definition format (self : t) (template : string) : pyresult string :=
  let basename := of_group (basename self) in
  let extension := of_group (extension self) in
  start ← start self;
  end_ ← end_ self;
  length ← __len__ self;
  let padding := of_group (padding self) in
  range ← frameRange self;
  inverted ← invertedFrameRange self;
  let dirname := dirname self in
  str_format template
    [("basename", basename); ("extension", extension); ("start", VInt start);
     ("end", VInt end_); ("length", VInt length); ("padding", padding);
     ("range", VStr range); ("inverted", VStr inverted);
     ("dirname", VStr dirname)].

End Format.

End FileSequence.

(** ** [getPaddingChars] *)

(** [getPaddingChars(num)], with Python 2's integer division. *)
Definition getPaddingChars (num : Z) : string :=
  if num =? 0 then "@"
  else if num `mod` 4 =? 0 then Py.repeat_char "#" (num / 4)
  else Py.repeat_char "@" num.

(** ** The specification's side

    Definitions written after the words of the specification, to be
    compared with the embedding of the code above. *)

(** *** Frame-range tokens (data model, grammar of 4.1) *)

Inductive modifier : Type := Step | Fill | Complement.

Inductive FrameToken : Type :=
| Single (n : Z)
| Range (start end_ : Z)
| Stepped (start end_ : Z) (m : modifier) (chunk : Z).

(** The integers of [[start, end_]], ascending. *)
Definition spec_interval (start end_ : Z) : list Z := seqZ start (end_ - start + 1).

(** The arithmetic progression from [start] to [end_] of stride [k]: the
    integers of the interval at a multiple of [k] from [start]. *)
Definition spec_progression (start end_ k : Z) : list Z :=
  filter (fun x => (x - start) `mod` k = 0) (spec_interval start end_).

(** The strides [chunk, chunk-1, ..., 1]. *)
Definition spec_strides (chunk : Z) : list Z := reverse (seqZ 1 chunk).

(** A token's integers in its natural enumeration order (the passes of a
    staggered fill one after the other, repetitions included). *)
Definition spec_token_values (tok : FrameToken) : list Z :=
  match tok with
  | Single n => [n]
  | Range start end_ => spec_interval start end_
  | Stepped start end_ Step chunk => spec_progression start end_ chunk
  | Stepped start end_ Fill chunk =>
      concat (spec_progression start end_ <$> spec_strides chunk)
  | Stepped start end_ Complement chunk =>
      filter (fun x => x ∉ spec_progression start end_ chunk)
        (spec_interval start end_)
  end.

(** Every value kept at its first occurrence only. *)
Fixpoint spec_first_occurrences (l : list Z) : list Z :=
  match l with
  | [] => []
  | x :: l' => x :: filter (fun y => y ≠ x) (spec_first_occurrences l')
  end.

(** The token a part of the expression stands for: the first of the three
    shapes of the grammar that the part matches, in priority order. *)
Definition spec_modifier (s : string) : option modifier :=
  if bool_decide (s = "x") then Some Step
  else if bool_decide (s = ":") then Some Fill
  else if bool_decide (s = "y") then Some Complement
  else None.

Definition spec_int (s : string) : option Z :=
  match Py.int_of_string s with
  | Ok n => Some n
  | Raise _ => None
  end.

Definition spec_token_of_groups (groups : list (option string)) : option FrameToken :=
  match groups with
  | [Some a; Some b] =>
      start ← spec_int a; end_ ← spec_int b; Some (Range start end_)
  | [Some a] => n ← spec_int a; Some (Single n)
  | [Some a; Some b; Some m; Some c] =>
      start ← spec_int a; end_ ← spec_int b; m ← spec_modifier m;
      chunk ← spec_int c; Some (Stepped start end_ m chunk)
  | _ => None
  end.

Fixpoint first_match (pats : list (nat * regex)) (part : string)
  : option (list (option string)) :=
  match pats with
  | [] => None
  | (n, pat) :: pats' =>
      match re_match n pat part with
      | Some m => Some (groups m)
      | None => first_match pats' part
      end
  end.

Definition spec_token (part : string) : option FrameToken :=
  first_match _PATTERNS part ≫= spec_token_of_groups.

(** *** Compaction (4.3) *)

(** The rest of the run of difference [d] that [prev] starts in [l], and
    what follows the run. *)
Fixpoint spec_run_tail (d prev : Z) (l : list Z) : list Z * list Z :=
  match l with
  | y :: l' =>
      if y - prev =? d then
        let '(run, rest) := spec_run_tail d y l' in (y :: run, rest)
      else ([], l)
  | [] => ([], [])
  end.

(** The maximal constant-difference runs of [l], scanned from the left,
    with the tie-break: a run of two elements followed at distance 1 by the
    next element gives up its first element alone, and the scan restarts
    from its second element.  [fuel] bounds the number of runs. *)
Fixpoint spec_runs (fuel : nat) (l : list Z) : list (list Z) :=
  match fuel, l with
  | O, _ | _, [] => []
  | S _, [x] => [[x]]
  | S fuel', x :: ((y :: l') as tl) =>
      match spec_run_tail (y - x) y l' with
      | ([], z :: rest) =>
          if z - y =? 1 then [x] :: spec_runs fuel' tl
          else [x; y] :: spec_runs fuel' (z :: rest)
      | (run, rest) => (x :: y :: run) :: spec_runs fuel' rest
      end
  end.

(** The rendering of one run: a bare number, a comma-joined pair,
    [start-end], or [start-endxchunk]. *)
Definition spec_render_run (zfill : nat) (run : list Z) : string :=
  let fmt := fun n => Py.format_0d n zfill in
  match run with
  | [] => ""
  | [x] => fmt x
  | [x; y] => fmt x +:+ "," +:+ fmt y
  | x :: y :: _ =>
      if y - x =? 1 then fmt x +:+ "-" +:+ fmt (List.last run x)
      else fmt x +:+ "-" +:+ fmt (List.last run x) +:+ "x" +:+ Py.str (y - x)
  end.

Definition spec_compact (values : list Z) (zfill : nat) : string :=
  Py.join "," (spec_render_run zfill <$> spec_runs (length values) values).

(** *** Inversion (4.2) *)

(** The integers strictly between the adjacent pairs of an ascending list. *)
Fixpoint spec_gaps (sorted : list Z) : list Z :=
  match sorted with
  | a :: ((b :: _) as tl) =>
      (if 1 <? b - a then seqZ (a + 1) (b - a - 1) else []) ++ spec_gaps tl
  | _ => []
  end.

(** ** Proof devices *)

(** A declarative reading of [regex]: [matches r w rest c c'] when [r]
    can consume exactly [w] in front of [rest], taking the captures from
    [c] to [c'].  It forgets priorities (and the position test of [^]):
    every result of the matcher is such a match. *)
Inductive matches : regex -> string -> string -> caps -> caps -> Prop :=
| m_caret rest c : matches Caret "" rest c c
| m_dollar rest c : at_end rest = true -> matches Dollar "" rest c c
| m_lit a rest c : matches (Lit a) (String a "") rest c c
| m_class (p : ascii -> bool) b rest c :
    p b = true -> matches (Class p) (String b "") rest c c
| m_star (p : ascii -> bool) w rest c :
    Py.all_chars p w = true -> matches (Star p) w rest c c
| m_lazy_star (p : ascii -> bool) w rest c :
    Py.all_chars p w = true -> matches (LazyStar p) w rest c c
| m_cat r1 r2 w1 w2 rest c c1 c2 :
    matches r1 w1 (w2 +:+ rest) c c1 -> matches r2 w2 rest c1 c2 ->
    matches (Cat r1 r2) (w1 +:+ w2) rest c c2
| m_or_l r1 r2 w rest c c' : matches r1 w rest c c' -> matches (Or r1 r2) w rest c c'
| m_or_r r1 r2 w rest c c' : matches r2 w rest c c' -> matches (Or r1 r2) w rest c c'
| m_opt_some r w rest c c' : matches r w rest c c' -> matches (Opt r) w rest c c'
| m_opt_none r rest c : matches (Opt r) "" rest c c
| m_grp g r w rest c c' :
    matches r w rest c c' -> matches (Grp g r) w rest c (<[g := Some w]> c').

(** The characters a regular expression can consume. *)
Fixpoint alphabet (r : regex) (a : ascii) : bool :=
  match r with
  | Caret | Dollar => false
  | Lit b => Ascii.eqb b a
  | Class p | Star p | LazyStar p => p a
  | Cat r1 r2 | Or r1 r2 => alphabet r1 a || alphabet r2 a
  | Opt r1 | Grp _ r1 => alphabet r1 a
  end.

(** Texts of the shapes [[0-9]+] and [\-?[0-9]+]. *)
Definition digits_text (ds : string) : Prop :=
  ds <> "" /\ Py.all_chars Py.is_digit ds = true.

Definition int_text (a : string) : Prop :=
  exists ds, digits_text ds /\ (a = ds \/ a = String "-" ds).

(** [s] does not start with a character of [p]. *)
Definition no_head (p : ascii -> bool) (s : string) : Prop :=
  match s with
  | String a _ => p a = false
  | EmptyString => True
  end.

(** The groups of a match of one of [_PATTERNS]. *)
Definition token_shape (groups : list (option string)) : Prop :=
  (exists a b, groups = [Some a; Some b])
  \/ (exists a, groups = [Some a])
  \/ (exists a b md c, groups = [Some a; Some b; Some md; Some c]
        /\ (md = ":" \/ md = "x" \/ md = "y") /\ digits_text c).

(** The lists of frames that [__handleMatch] hands to [__addFrames], in
    order. *)
Definition match_batches (groups : list (option string)) : pyresult (list (list Z)) :=
  let length := length groups in
  if (length =? 2)%nat then
    a ← Py.getitem groups 0 ≫= FrameSet.int_of_group;
    b ← Py.getitem groups 1 ≫= FrameSet.int_of_group;
    frames ← Py.xrange a (b + 1) 1;
    Ok [frames]
  else if (length =? 1)%nat then
    a ← Py.getitem groups 0 ≫= FrameSet.int_of_group;
    Ok [[a]]
  else if (length =? 4)%nat then
    chunk ← Py.getitem groups 3 ≫= FrameSet.int_of_group;
    start ← Py.getitem groups 0 ≫= FrameSet.int_of_group;
    end_ ← Py.getitem groups 1 ≫= FrameSet.int_of_group;
    modifier ← Py.getitem groups 2;
    if bool_decide (modifier = Some "x") then
      frames ← Py.xrange start (end_ + 1) chunk;
      Ok [frames]
    else if bool_decide (modifier = Some ":") then
      staggers ← Py.xrange chunk 0 (-1);
      mapM (M := pyresult) (fun stagger => Py.xrange start (end_ + 1) stagger) staggers
    else if bool_decide (modifier = Some "y") then
      not_good ← Py.xrange start (end_ + 1) chunk;
      let not_good : gset Z := list_to_set not_good in
      frames ← Py.xrange start (end_ + 1) 1;
      Ok [filter (fun f => f ∉ not_good) frames]
    else Ok []
  else Ok [].

(** The state of a [FrameSet] under construction is well formed when the
    list has no repetition and the set holds the values of the list. *)
Definition wf (self : FrameSet.t) : Prop :=
  NoDup (FrameSet.__list self)
  ∧ FrameSet.__set self = list_to_set (FrameSet.__list self).

(** The loop of [framesToFrameRange] on what remains of the list: [prev]
    is the frame before [rest], the other arguments are the loop's
    variables. *)
Fixpoint compact_tail (zfill : nat) (start count prev : Z) (rest : list Z)
    (result : list string) : list string :=
  match rest with
  | [] => result
  | b_fr :: rest' =>
      if b_fr =? start then compact_tail zfill start count b_fr rest' result
      else
        let a_chunk := b_fr - prev in
        if a_chunk =? 0 then compact_tail zfill start count b_fr rest' result
        else
          let count := count + 1 in
          match rest' with
          | [] => append zfill result start b_fr a_chunk count
          | c_fr :: _ =>
              let b_chunk := c_fr - b_fr in
              if negb (a_chunk =? b_chunk) then
                if (count =? 2) && (b_chunk =? 1) then
                  compact_tail zfill b_fr 1 b_fr rest'
                    (append zfill result start start 1 1)
                else
                  compact_tail zfill c_fr 1 b_fr rest'
                    (append zfill result start b_fr a_chunk count)
              else compact_tail zfill start count b_fr rest' result
          end
  end.

(** The runs that the code writes: all but a final run of one frame. *)
Fixpoint written_runs (runs : list (list Z)) : list (list Z) :=
  match runs with
  | [] => []
  | [[_]] => []
  | run :: runs' => run :: written_runs runs'
  end.

(** A part that is a stepped token [a-bxc] or [a-byc] whose chunk [c] is
    zero. *)
Definition zero_chunk_token (part : string) : Prop :=
  exists a b md ch,
    first_match _PATTERNS part = Some [a; b; Some md; Some ch]
    /\ (md = "x" \/ md = "y") /\ Py.int_of_string ch = Ok 0.

(** What [padFrameRange] makes of one part of the range. *)
Definition padded_part (zfill : nat) (part : string) : string :=
  match Py.split "-" part with
  | a :: b :: _ => Py.zfill a zfill +:+ "-" +:+ Py.zfill b zfill
  | _ => Py.zfill part zfill
  end.

(** The arithmetic progression of [n] terms from [x] by steps of [d]. *)
Definition arith_run (x d : Z) (n : nat) : list Z :=
  (fun i => x + Z.of_nat i * d) <$> seq 0 n.

(** The parts that the rendering of a run puts into the range text. *)
Definition run_tokens (zfill : nat) (run : list Z) : list string :=
  let fmt := fun n => Py.format_0d n zfill in
  match run with
  | [] => []
  | [x] => [fmt x]
  | [x; y] => [fmt x; fmt y]
  | x :: y :: _ =>
      if y - x =? 1 then [fmt x +:+ "-" +:+ fmt (List.last run x)]
      else [fmt x +:+ "-" +:+ fmt (List.last run x) +:+ "x" +:+ Py.str (y - x)]
  end.

(** A run of [spec_runs]: an arithmetic progression of positive step. *)
Definition run_ok (run : list Z) : Prop :=
  exists x d n, 0 < d /\ (1 <= n)%nat /\ run = arith_run x d n.

(** A part of the range text whose first match yields the batches [bs]. *)
Definition part_batches (part : string) (bs : list (list Z)) : Prop :=
  exists groups, first_match _PATTERNS part = Some groups /\ match_batches groups = Ok bs.

(** * Properties *)

Local Arguments Ascii.eqb : simpl never.

(** *** Strings and the matcher *)

Lemma sapp_cons a (s t : string) : String a s +:+ t = String a (s +:+ t).
Proof. reflexivity. Qed.

Lemma sapp_nil_l (t : string) : "" +:+ t = t.
Proof. reflexivity. Qed.

Ltac sapp := rewrite ?sapp_cons, ?sapp_nil_l in *.

Lemma sapp_nil_r (s : string) : s +:+ "" = s.
Proof. induction s as [|a s IH]; sapp; [done | by f_equal]. Qed.

Lemma sapp_assoc (a b c : string) : (a +:+ b) +:+ c = a +:+ (b +:+ c).
Proof. induction a as [|x a IH]; sapp; [done | by f_equal]. Qed.

Lemma slength_app (a b : string) :
  String.length (a +:+ b) = (String.length a + String.length b)%nat.
Proof. induction a as [|x a IH]; sapp; simpl; [done | by f_equal]. Qed.

Lemma substring_prefix (w rest : string) :
  substring 0 (String.length w) (w +:+ rest) = w.
Proof.
  induction w as [|a w IH]; sapp; simpl.
  - by destruct rest.
  - by f_equal.
Qed.

Lemma orelse_Some {A} (a b : option A) (x : A) :
  orelse a b = Some x -> a = Some x \/ (a = None /\ b = Some x).
Proof. destruct a; simpl; auto. Qed.

Lemma star_sound p s pos k c res :
  star p s pos k c = Some res ->
  exists w rest, s = w +:+ rest /\ Py.all_chars p w = true
    /\ k rest (pos + String.length w)%nat c = Some res.
Proof.
  revert pos. induction s as [|a s IH]; intros pos H; simpl in H.
  - exists "", "". sapp. simpl. by rewrite Nat.add_0_r.
  - destruct (p a) eqn:Hp.
    + apply orelse_Some in H as [H | [_ H]].
      * apply IH in H as (w & rest & -> & Hw & Hk).
        exists (String a w), rest. sapp. simpl. rewrite Hp, Hw.
        split; [done|]. split; [done|]. by rewrite Nat.add_succ_r.
      * exists "", (String a s). sapp. simpl. by rewrite Nat.add_0_r.
    + exists "", (String a s). sapp. simpl. by rewrite Nat.add_0_r.
Qed.

Lemma lazy_star_sound p s pos k c res :
  lazy_star p s pos k c = Some res ->
  exists w rest, s = w +:+ rest /\ Py.all_chars p w = true
    /\ k rest (pos + String.length w)%nat c = Some res.
Proof.
  revert pos. induction s as [|a s IH]; intros pos H; simpl in H.
  - apply orelse_Some in H as [H | [_ H]]; [|done].
    exists "", "". sapp. simpl. by rewrite Nat.add_0_r.
  - apply orelse_Some in H as [H | [_ H]].
    + exists "", (String a s). sapp. simpl. by rewrite Nat.add_0_r.
    + destruct (p a) eqn:Hp; [|done].
      apply IH in H as (w & rest & -> & Hw & Hk).
      exists (String a w), rest. sapp. simpl. rewrite Hp, Hw.
      split; [done|]. split; [done|]. by rewrite Nat.add_succ_r.
Qed.

Lemma run_sound r : forall s pos k c res,
  run r s pos k c = Some res ->
  exists w rest c', s = w +:+ rest /\ matches r w rest c c'
    /\ k rest (pos + String.length w)%nat c' = Some res.
Proof.
  induction r as [| |a|p|p|p|r1 IH1 r2 IH2|r1 IH1 r2 IH2|r1 IH1|g r1 IH1];
    intros s pos k c res H; simpl in H.
  - destruct (pos =? 0)%nat; [|done].
    exists "", s, c. sapp. simpl. rewrite Nat.add_0_r. eauto using matches.
  - destruct (at_end s) eqn:He; [|done].
    exists "", s, c. sapp. simpl. rewrite Nat.add_0_r. eauto using matches.
  - destruct s as [|b s]; [done|].
    destruct (Ascii.eqb a b) eqn:Hab; [|done]. apply Ascii.eqb_eq in Hab as ->.
    exists (String b ""), s, c. sapp. simpl. rewrite Nat.add_1_r. eauto using matches.
  - destruct s as [|b s]; [done|].
    destruct (p b) eqn:Hp; [|done].
    exists (String b ""), s, c. sapp. simpl. rewrite Nat.add_1_r. eauto using matches.
  - apply star_sound in H as (w & rest & -> & Hw & Hk). eauto 10 using matches.
  - apply lazy_star_sound in H as (w & rest & -> & Hw & Hk). eauto 10 using matches.
  - apply IH1 in H as (w1 & rest1 & c1 & -> & Hm1 & H).
    apply IH2 in H as (w2 & rest & c2 & -> & Hm2 & H).
    exists (w1 +:+ w2), rest, c2. rewrite sapp_assoc, slength_app, Nat.add_assoc.
    eauto using matches.
  - apply orelse_Some in H as [H | [_ H]].
    + apply IH1 in H as (w & rest & c' & -> & Hm & H). eauto 10 using matches.
    + apply IH2 in H as (w & rest & c' & -> & Hm & H). eauto 10 using matches.
  - apply orelse_Some in H as [H | [_ H]].
    + apply IH1 in H as (w & rest & c' & -> & Hm & H). eauto 10 using matches.
    + exists "", s, c. sapp. simpl. rewrite Nat.add_0_r. eauto using matches.
  - apply IH1 in H as (w & rest & c' & -> & Hm & H).
    replace (pos + String.length w - pos)%nat with (String.length w) in H by lia.
    rewrite substring_prefix in H. eauto 10 using matches.
Qed.

Lemma re_match_sound n r s m :
  re_match n r s = Some m ->
  exists w rest c', s = w +:+ rest
    /\ matches r w rest (replicate (S n) None) c' /\ m = <[0%nat := Some w]> c'.
Proof.
  unfold re_match. intros H. apply run_sound in H as (w & rest & c' & -> & Hm & H).
  inversion Hm; subst. injection H as <-. eauto 10.
Qed.

Lemma all_chars_app p (a b : string) :
  Py.all_chars p (a +:+ b) = Py.all_chars p a && Py.all_chars p b.
Proof. induction a as [|x a IH]; sapp; simpl; [done|]. by rewrite IH, andb_assoc. Qed.

Lemma all_chars_mono (p q : ascii -> bool) w :
  (forall a, p a = true -> q a = true) ->
  Py.all_chars p w = true -> Py.all_chars q w = true.
Proof.
  intros Hpq. induction w as [|x w IH]; simpl; [done|].
  intros [Hx Hw]%andb_true_iff. rewrite (Hpq _ Hx). auto.
Qed.

Lemma contains_app a (u v : string) :
  Py.contains a (u +:+ v) = Py.contains a u || Py.contains a v.
Proof. induction u as [|x u IH]; sapp; simpl; [done|]. by rewrite IH, orb_assoc. Qed.

Lemma all_chars_contains p w a :
  Py.all_chars p w = true -> Py.contains a w = true -> p a = true.
Proof.
  induction w as [|x w IH]; simpl; [done|].
  intros [Hx Hw]%andb_true_iff [Ha|Ha]%orb_true_iff; [|auto].
  by apply Ascii.eqb_eq in Ha as <-.
Qed.

Lemma matches_alphabet r w rest c c' :
  matches r w rest c c' -> Py.all_chars (alphabet r) w = true.
Proof.
  induction 1; simpl; try done.
  - by rewrite Ascii.eqb_refl.
  - by rewrite H.
  - rewrite all_chars_app. apply andb_true_iff. split.
    + eapply all_chars_mono; [|exact IHmatches1]. intros a ->. done.
    + eapply all_chars_mono; [|exact IHmatches2]. intros a ->. apply orb_true_r.
  - eapply all_chars_mono; [|exact IHmatches]. intros a ->. done.
  - eapply all_chars_mono; [|exact IHmatches]. intros a ->. apply orb_true_r.
Qed.

Lemma at_end_contains a rest :
  at_end rest = true -> a <> "010"%char -> Py.contains a rest = false.
Proof.
  destruct rest as [|b [|? ?]]; simpl; try done.
  intros ->%Ascii.eqb_eq Ha. rewrite orb_false_r. by apply Ascii.eqb_neq.
Qed.

(** A pattern closed by [$] matches no string holding a character that
    is foreign to it. *)
Lemma no_match_foreign n r s a :
  Py.contains a s = true -> a <> "010"%char -> alphabet r a = false ->
  re_match n (Cat r Dollar) s = None.
Proof.
  intros Hs Ha Hr. destruct (re_match n (Cat r Dollar) s) as [m|] eqn:Hm; [|done].
  apply re_match_sound in Hm as (w & rest & c' & -> & Hm & _).
  inversion Hm as [| | | | | |r1 r2 w1 w2 rest' c c1 c2 H1 H2| | | | |]; subst.
  inversion H2; subst. sapp.
  rewrite contains_app, sapp_nil_r in Hs. apply orb_true_iff in Hs as [Hs|Hs].
  - apply matches_alphabet in H1.
    by rewrite (all_chars_contains _ _ _ H1 Hs) in Hr.
  - by rewrite at_end_contains in Hs.
Qed.

Ltac inv_matches :=
  repeat match goal with
  | H : matches (Cat _ _) _ _ _ _ |- _ => inversion H; clear H; subst
  | H : matches (Grp _ _) _ _ _ _ |- _ => inversion H; clear H; subst
  | H : matches (Opt _) _ _ _ _ |- _ => inversion H; clear H; subst
  | H : matches (Lit _) _ _ _ _ |- _ => inversion H; clear H; subst
  | H : matches (Class _) _ _ _ _ |- _ => inversion H; clear H; subst
  | H : matches (Star _) _ _ _ _ |- _ => inversion H; clear H; subst
  | H : matches Caret _ _ _ _ |- _ => inversion H; clear H; subst
  | H : matches Dollar _ _ _ _ |- _ => inversion H; clear H; subst
  end.

Lemma one_of_modifier b :
  one_of ":xy" b = true -> b = ":"%char \/ b = "x"%char \/ b = "y"%char.
Proof.
  unfold one_of. cbn [Py.contains]. rewrite orb_false_r.
  intros [H|[H|H]%orb_true_iff]%orb_true_iff; apply Ascii.eqb_eq in H; auto.
Qed.

Lemma first_match_shape part groups :
  first_match _PATTERNS part = Some groups -> token_shape groups.
Proof.
  unfold first_match, _PATTERNS.
  destruct (re_match 2 pattern_range part) as [m|] eqn:H0.
  { intros [= <-]. left.
    apply re_match_sound in H0 as (w & rest & c' & -> & Hm & ->).
    unfold pattern_range, signed_int, Plus in Hm. inv_matches; simpl; eauto. }
  destruct (re_match 1 pattern_single part) as [m|] eqn:H1.
  { intros [= <-]. right. left.
    apply re_match_sound in H1 as (w & rest & c' & -> & Hm & ->).
    unfold pattern_single, signed_int, Plus in Hm. inv_matches; simpl; eauto. }
  destruct (re_match 4 pattern_stepped part) as [m|] eqn:H2; [|done].
  intros [= <-]. right. right.
  apply re_match_sound in H2 as (w & rest & c' & -> & Hm & ->).
  unfold pattern_stepped, signed_int, Plus in Hm. inv_matches; simpl;
    (do 4 eexists; split; [reflexivity|]);
    (split;
     [ match goal with H : one_of _ _ = true |- _ =>
         apply one_of_modifier in H as [-> | [-> | ->]]; auto end
     | split; [done|]; sapp; simpl;
       match goal with H : digit _ = true |- _ => unfold digit in H; by rewrite H end ]).
Qed.

(** *** Decimal texts and matches of the token patterns *)

Lemma string_of_uint_digits d :
  Py.all_chars Py.is_digit (NilEmpty.string_of_uint d) = true.
Proof. induction d; simpl; auto. Qed.

Lemma string_of_uint_nonempty d : d <> Decimal.Nil -> NilEmpty.string_of_uint d <> "".
Proof. by destruct d. Qed.

(** The text of [str(n)]: a sign for a negative number, then the digits
    of the absolute value. *)
Lemma str_text (n : Z) :
  exists ds d, digits_text ds
    /\ Py.str n = (if n <? 0 then String "-" ds else ds)
    /\ NilEmpty.uint_of_string ds = Some d /\ Z.of_uint d = Z.abs n.
Proof.
  destruct n as [|p|p]; unfold Py.str; simpl.
  - exists "0", (Decimal.D0 Decimal.Nil). by repeat split.
  - exists (NilEmpty.string_of_uint (Pos.to_uint p)), (Pos.to_uint p).
    pose proof (DecimalPos.Unsigned.to_uint_nonnil p) as Hn.
    repeat split.
    + by apply string_of_uint_nonempty.
    + apply string_of_uint_digits.
    + unfold NilZero.string_of_uint. by destruct (Pos.to_uint p).
    + apply NilEmpty.usu.
    + unfold Z.of_uint. by rewrite DecimalPos.Unsigned.of_to.
  - exists (NilEmpty.string_of_uint (Pos.to_uint p)), (Pos.to_uint p).
    pose proof (DecimalPos.Unsigned.to_uint_nonnil p) as Hn.
    repeat split.
    + by apply string_of_uint_nonempty.
    + apply string_of_uint_digits.
    + unfold NilZero.string_of_uint. by destruct (Pos.to_uint p).
    + apply NilEmpty.usu.
    + unfold Z.of_uint. by rewrite DecimalPos.Unsigned.of_to.
Qed.

Lemma str_int_text n : int_text (Py.str n).
Proof.
  destruct (str_text n) as (ds & d & Hds & -> & _).
  exists ds. split; [done|]. destruct (n <? 0); auto.
Qed.

Lemma str_digits_text n : 0 <= n -> digits_text (Py.str n).
Proof.
  intros Hn. destruct (str_text n) as (ds & d & Hds & -> & _).
  by destruct (Z.ltb_spec n 0); [lia|].
Qed.

Lemma digit_not_space a : Py.is_digit a = true -> Py.is_space a = false.
Proof.
  unfold Py.is_digit, Py.is_space. intros [H1 H2]%andb_true_iff.
  apply Nat.leb_le in H1, H2. apply orb_false_iff. split.
  - apply andb_false_iff. right. apply Nat.leb_gt. lia.
  - apply Nat.eqb_neq. lia.
Qed.

Lemma lstrip_digits ds :
  digits_text ds -> Py.lstrip ds = ds.
Proof.
  intros [Hne Hd]. destruct ds as [|a ds]; [done|]. simpl in *.
  apply andb_true_iff in Hd as [Ha _]. by rewrite (digit_not_space _ Ha).
Qed.

Lemma span_all p ds :
  Py.all_chars p ds = true -> Py.span p ds = (ds, "").
Proof.
  induction ds as [|a ds IH]; simpl; [done|].
  intros [-> Hd]%andb_true_iff. by rewrite (IH Hd).
Qed.

Lemma lstrip_nonspace a s :
  Py.is_space a = false -> Py.lstrip (String a s) = String a s.
Proof. simpl. by intros ->. Qed.

(** [int] on a text of digits. *)
Lemma int_of_string_digits ds :
  digits_text ds ->
  Py.int_of_string ds =
  match NilEmpty.uint_of_string ds with
  | Some d => Ok (Z.of_uint d)
  | None => Raise ValueError
  end.
Proof.
  intros Hds. pose proof Hds as [Hne Hd]. unfold Py.int_of_string.
  rewrite (lstrip_digits _ Hds).
  destruct ds as [|a ds']; [done|].
  assert (Ha : Py.is_digit a = true)
    by (simpl in Hd; by apply andb_true_iff in Hd as [? _]).
  replace (match String a ds' with
           | String "-" t => (true, t) | String "+" t => (false, t)
           | _ => (false, String a ds') end) with (false, String a ds').
  2:{ destruct a as [[] [] [] [] [] [] [] []]; try done. }
  rewrite (lstrip_digits _ Hds), (span_all _ _ Hd). by cbn [Py.all_chars].
Qed.

Lemma int_of_string_minus_digits ds :
  digits_text ds ->
  Py.int_of_string (String "-" ds) =
  match NilEmpty.uint_of_string ds with
  | Some d => Ok (- Z.of_uint d)
  | None => Raise ValueError
  end.
Proof.
  intros Hds. pose proof Hds as [Hne Hd]. unfold Py.int_of_string.
  rewrite lstrip_nonspace by done.
  cbn -[NilEmpty.uint_of_string Py.span Py.lstrip].
  rewrite (lstrip_digits _ Hds), (span_all _ _ Hd).
  destruct ds; [done|]. by cbn [Py.all_chars].
Qed.

Lemma int_of_string_digits_nonneg ds n :
  digits_text ds -> Py.int_of_string ds = Ok n -> 0 <= n.
Proof.
  intros Hds. rewrite int_of_string_digits by done.
  destruct (NilEmpty.uint_of_string ds); [|done]. intros [= <-].
  unfold Z.of_uint. lia.
Qed.

(** [int(str(n)) == n]. *)
Lemma int_of_string_str n : Py.int_of_string (Py.str n) = Ok n.
Proof.
  destruct (str_text n) as (ds & d & Hds & -> & Hu & Hz).
  destruct (Z.ltb_spec n 0) as [Hn|Hn].
  - rewrite int_of_string_minus_digits, Hu by done. f_equal. lia.
  - rewrite int_of_string_digits, Hu by done. f_equal. lia.
Qed.

Lemma star_all p ds rest pos k c res :
  Py.all_chars p ds = true -> no_head p rest ->
  k rest (pos + String.length ds)%nat c = Some res ->
  star p (ds +:+ rest) pos k c = Some res.
Proof.
  revert pos. induction ds as [|a ds IH]; intros pos Hd Hr Hk; sapp.
  - simpl in Hk. rewrite Nat.add_0_r in Hk.
    destruct rest as [|b rest]; simpl; [done|]. simpl in Hr. by rewrite Hr.
  - simpl in Hd. apply andb_true_iff in Hd as [Ha Hd]. simpl. rewrite Ha.
    rewrite (IH (S pos)); [done..|].
    simpl in Hk. by rewrite Nat.add_succ_r in Hk.
Qed.

Lemma run_plus_digits ds rest pos k c res :
  digits_text ds -> no_head digit rest ->
  k rest (pos + String.length ds)%nat c = Some res ->
  run (Plus digit) (ds +:+ rest) pos k c = Some res.
Proof.
  intros [Hne Hd] Hr Hk. destruct ds as [|a ds]; [done|].
  simpl in Hd. apply andb_true_iff in Hd as [Ha Hd].
  sapp. unfold Plus. cbn [run]. unfold digit at 1. rewrite Ha.
  apply star_all; [done..|]. simpl in Hk. by rewrite Nat.add_succ_r in Hk.
Qed.

Lemma run_signed_int a rest pos k c res :
  int_text a -> no_head digit rest ->
  k rest (pos + String.length a)%nat c = Some res ->
  run signed_int (a +:+ rest) pos k c = Some res.
Proof.
  intros (ds & Hds & [-> | ->]) Hr Hk; unfold signed_int; cbn [run].
  - pose proof Hds as [Hne Hd]. destruct ds as [|x ds]; [done|].
    simpl in Hd. apply andb_true_iff in Hd as [Hx Hd]. sapp.
    assert (Hm : Ascii.eqb "-" x = false).
    { apply Ascii.eqb_neq. intros <-. done. }
    rewrite Hm. cbn [orelse].
    change (String x (ds +:+ rest)) with (String x ds +:+ rest).
    by apply run_plus_digits.
  - sapp. rewrite Ascii.eqb_refl.
    rewrite (run_plus_digits ds rest (S pos) k c res); [done..|].
    simpl in Hk. by rewrite Nat.add_succ_r in Hk.
Qed.

Lemma substring_0_0 (s : string) : substring 0 0 s = "".
Proof. by destruct s. Qed.

Lemma substring_all (s : string) : substring 0 (String.length s) s = s.
Proof. rewrite <- (sapp_nil_r s) at 2. apply substring_prefix. Qed.

Lemma modifier_not_digit md : one_of ":xy" md = true -> digit md = false.
Proof. by intros [-> | [-> | ->]]%one_of_modifier. Qed.

(** [_PATTERNS[2]] matches a stepped token and captures its four parts. *)
Lemma pattern_stepped_match a b (md : ascii) ch :
  int_text a -> int_text b -> one_of ":xy" md = true -> digits_text ch ->
  exists g0, re_match 4 pattern_stepped (a +:+ "-" +:+ b +:+ String md ch)
    = Some [g0; Some a; Some b; Some (String md ""); Some ch].
Proof.
  intros Ha Hb Hmd Hch. eexists. unfold re_match, pattern_stepped.
  cbn [run Nat.eqb].
  apply run_signed_int; [done | done |]. sapp. rewrite Ascii.eqb_refl.
  apply run_signed_int; [done | by apply modifier_not_digit |].
  rewrite Hmd. rewrite <- (sapp_nil_r ch) at 1.
  apply run_plus_digits; [done | done |]. cbn [at_end].
  repeat match goal with
  | |- context [substring 0 ?n (?x +:+ ?y)] =>
      replace n with (String.length x) by lia; rewrite substring_prefix
  | |- context [substring 0 ?n (String ?x ?y)] =>
      replace n with 1%nat by lia; cbn [substring]; rewrite substring_0_0
  end.
  match goal with |- context [substring 0 ?n ch] =>
    replace n with (String.length ch) by lia end.
  by rewrite substring_all.
Qed.

Lemma contains_digits c ds :
  Py.all_chars Py.is_digit ds = true -> Py.is_digit c = false ->
  Py.contains c ds = false.
Proof.
  intros Hd Hc. destruct (Py.contains c ds) eqn:E; [|done].
  by rewrite (all_chars_contains _ _ _ Hd E) in Hc.
Qed.

Lemma contains_int_text c a :
  int_text a -> Py.is_digit c = false -> c <> "-"%char -> Py.contains c a = false.
Proof.
  intros (ds & [_ Hd] & [-> | ->]) Hc Hm; simpl.
  - by apply contains_digits.
  - rewrite (contains_digits _ _ Hd Hc), orb_false_r. apply Ascii.eqb_neq. congruence.
Qed.

Lemma split_no_sep sep s :
  Py.contains sep s = false -> Py.split sep s = [s].
Proof.
  induction s as [|a s IH]; simpl; [done|].
  intros [Ha Hs]%orb_false_iff. rewrite Ha, (IH Hs). done.
Qed.

(** *** Ascending lists *)

Lemma ascending_ext (l1 l2 : list Z) :
  StronglySorted Z.lt l1 -> StronglySorted Z.lt l2 ->
  (forall x, x ∈ l1 <-> x ∈ l2) -> l1 = l2.
Proof.
  intros H1. revert l2. induction H1 as [|x l1 H1 IH Hx]; intros l2 H2 Hext.
  - destruct l2 as [|y l2]; [done|].
    exfalso. apply (not_elem_of_nil y), Hext. left.
  - destruct H2 as [|y l2 H2 Hy].
    { exfalso. apply (not_elem_of_nil x), Hext. left. }
    rewrite Forall_forall in Hx, Hy.
    assert (x = y) as <-.
    { pose proof (proj1 (Hext x) ltac:(left)) as Hxy.
      pose proof (proj2 (Hext y) ltac:(left)) as Hyx.
      apply elem_of_cons in Hxy as [?|Hxy]; [done|].
      apply elem_of_cons in Hyx as [?|Hyx]; [done|].
      apply Hy in Hxy. apply Hx in Hyx. lia. }
    f_equal. apply IH; [done|]. intros z. split; intros Hz.
    + pose proof (Hx _ Hz). pose proof (proj1 (Hext z) ltac:(by right)) as Hz'.
      apply elem_of_cons in Hz' as [?|?]; [lia|done].
    + pose proof (Hy _ Hz). pose proof (proj2 (Hext z) ltac:(by right)) as Hz'.
      apply elem_of_cons in Hz' as [?|?]; [lia|done].
Qed.

Lemma ascending_fmap_seq (f : nat -> Z) j n :
  (forall i i', (i < i')%nat -> f i < f i') ->
  StronglySorted Z.lt (f <$> seq j n).
Proof.
  intros Hf. revert j. induction n as [|n IH]; intros j; simpl; constructor; [apply IH|].
  apply Forall_forall. intros x (i & -> & Hi%elem_of_seq)%list_elem_of_fmap.
  apply Hf. lia.
Qed.

Lemma ascending_filter (P : Z -> Prop) `{!forall x, Decision (P x)} l :
  StronglySorted Z.lt l -> StronglySorted Z.lt (filter P l).
Proof.
  induction 1 as [|x l Hl IH Hx]; [constructor|].
  rewrite filter_cons. destruct (decide (P x)); [|done].
  constructor; [done|]. rewrite Forall_forall in *.
  intros y [_ Hy]%list_elem_of_filter. auto.
Qed.

Lemma ascending_seqZ m n : StronglySorted Z.lt (seqZ m n).
Proof. unfold seqZ. apply ascending_fmap_seq. lia. Qed.

(** *** [xrange] *)

Lemma xrange_ascending start stop step l :
  0 < step -> Py.xrange start stop step = Ok l -> StronglySorted Z.lt l.
Proof.
  unfold Py.xrange. intros Hs. destruct (Z.eqb_spec step 0); [lia|].
  intros [= <-]. apply ascending_fmap_seq. intros i i' Hi. nia.
Qed.

Lemma xrange_NoDup start stop step l :
  Py.xrange start stop step = Ok l -> NoDup l.
Proof.
  unfold Py.xrange. destruct (Z.eqb_spec step 0); [done|].
  intros [= <-]. apply NoDup_fmap_2_strong; [|apply NoDup_seq].
  intros i i' _ _ Heq. nia.
Qed.

Lemma elem_of_spec_progression x start end_ k :
  x ∈ spec_progression start end_ k <->
  (x - start) `mod` k = 0 /\ start <= x <= end_.
Proof.
  unfold spec_progression, spec_interval.
  rewrite list_elem_of_filter, elem_of_seqZ. intuition lia.
Qed.

(** [xrange(start, end_ + 1, k)] for a positive stride is the arithmetic
    progression of the specification. *)
Lemma xrange_progression start end_ k :
  0 < k -> Py.xrange start (end_ + 1) k = Ok (spec_progression start end_ k).
Proof.
  intros Hk. destruct (Py.xrange start (end_ + 1) k) as [l|e] eqn:Hx.
  2:{ unfold Py.xrange in Hx. destruct (Z.eqb_spec k 0); [lia|done]. }
  f_equal. apply ascending_ext.
  - by eapply xrange_ascending.
  - apply ascending_filter, ascending_seqZ.
  - intros x. rewrite elem_of_spec_progression.
    unfold Py.xrange, Py.len_of_range in Hx.
    destruct (Z.eqb_spec k 0); [lia|]. destruct (Z.ltb_spec 0 k); [|lia].
    injection Hx as <-. rewrite list_elem_of_fmap. setoid_rewrite elem_of_seq.
    replace (end_ + 1 - 1 - start) with (end_ - start) by lia.
    split.
    + intros (i & -> & _ & Hi). simpl in Hi.
      destruct (Z.ltb_spec start (end_ + 1)) as [Hlt|Hge]; [|simpl in Hi; lia].
      assert (0 <= (end_ - start) / k) by (apply Z.div_pos; lia).
      assert (Z.of_nat i <= (end_ - start) / k) by lia.
      pose proof (Z.mul_div_le (end_ - start) k Hk).
      split; [|nia].
      replace (start + Z.of_nat i * k - start) with (Z.of_nat i * k) by lia.
      apply Z_mod_mult.
    + intros [Hm [Hlo Hhi]].
      destruct (Z.ltb_spec start (end_ + 1)) as [Hlt|Hge]; [|lia].
      exists (Z.to_nat ((x - start) / k)).
      assert (0 <= (x - start) / k) by (apply Z.div_pos; lia).
      assert ((x - start) / k <= (end_ - start) / k) by (apply Z.div_le_mono; lia).
      pose proof (Z_div_exact_full_2 (x - start) k ltac:(lia) Hm).
      split; [lia|]. simpl. split; [lia|].
      assert (0 <= (end_ - start) / k) by (apply Z.div_pos; lia). lia.
Qed.

Lemma spec_progression_1 start end_ :
  spec_progression start end_ 1 = spec_interval start end_.
Proof.
  apply ascending_ext.
  - apply ascending_filter, ascending_seqZ.
  - apply ascending_seqZ.
  - intros x. rewrite elem_of_spec_progression. unfold spec_interval.
    rewrite elem_of_seqZ, Z.mod_1_r. intuition lia.
Qed.

Lemma xrange_interval start end_ :
  Py.xrange start (end_ + 1) 1 = Ok (spec_interval start end_).
Proof. by rewrite xrange_progression, spec_progression_1. Qed.

Lemma countdown_reverse (m : nat) :
  (fun i : nat => Z.of_nat m + Z.of_nat i * -1) <$> seq 0 m
  = reverse ((fun i : nat => Z.of_nat i + 1) <$> seq 0 m).
Proof.
  induction m as [|m IH]; [done|].
  rewrite seq_S at 2. rewrite fmap_app.
  change ((fun i : nat => Z.of_nat i + 1) <$> [(0 + m)%nat]) with [Z.of_nat m + 1].
  rewrite reverse_snoc. cbn [seq fmap list_fmap].
  f_equal; [lia|]. rewrite <- IH, <- fmap_S_seq, <- list_fmap_compose.
  apply list_fmap_ext. intros i x _. simpl. lia.
Qed.

(** [xrange(chunk, 0, -1)] enumerates the strides [chunk, ..., 1]. *)
Lemma xrange_strides chunk :
  Py.xrange chunk 0 (-1) = Ok (spec_strides chunk).
Proof.
  unfold Py.xrange, Py.len_of_range, spec_strides, seqZ. simpl. f_equal.
  rewrite Z.div_1_r.
  destruct (Z.ltb_spec 0 chunk) as [Hc|Hc].
  - replace (1 + (chunk - 1 - 0)) with chunk by lia.
    rewrite <- (countdown_reverse (Z.to_nat chunk)).
    apply list_fmap_ext. intros _ i _. lia.
  - by replace (Z.to_nat chunk) with 0%nat by lia.
Qed.

Lemma elem_of_spec_strides k chunk : k ∈ spec_strides chunk <-> 1 <= k <= chunk.
Proof. unfold spec_strides. rewrite elem_of_reverse, elem_of_seqZ. lia. Qed.

(** *** The result monad *)

Lemma bind_ok {A B} (a : A) (f : A -> pyresult B) : Ok a ≫= f = f a.
Proof. reflexivity. Qed.

Lemma bind_raise {A B} e (f : A -> pyresult B) : Raise e ≫= f = Raise e.
Proof. reflexivity. Qed.

Lemma bind_Ok {A B} (m : pyresult A) (f : A -> pyresult B) b :
  m ≫= f = Ok b -> exists a, m = Ok a /\ f a = Ok b.
Proof. destruct m as [a|e]; [|done]. intros H. by exists a. Qed.

Lemma mapM_Ok {A B} (f : A -> pyresult B) l k :
  mapM f l = Ok k -> Forall2 (fun x y => f x = Ok y) l k.
Proof.
  revert k. induction l as [|x l IH]; intros k; simpl.
  - intros [= <-]. constructor.
  - intros (y & Hy & (k' & Hk & [= <-])%bind_Ok)%bind_Ok. constructor; auto.
Qed.

Lemma mapM_Ok_fmap {A B} (f : A -> pyresult B) (g : A -> B) l :
  (forall x, x ∈ l -> f x = Ok (g x)) -> mapM f l = Ok (g <$> l).
Proof.
  induction l as [|x l IH]; intros Hf; simpl; [done|].
  rewrite (Hf x) by left. simpl. rewrite IH; [done|]. intros y Hy. apply Hf. by right.
Qed.

(** *** First occurrences *)

Lemma elem_of_first_occurrences x l : x ∈ spec_first_occurrences l <-> x ∈ l.
Proof.
  induction l as [|y l IH]; simpl; [done|].
  rewrite !elem_of_cons, list_elem_of_filter, IH.
  destruct (decide (x = y)); tauto.
Qed.

Lemma NoDup_first_occurrences l : NoDup (spec_first_occurrences l).
Proof.
  induction l as [|y l IH]; simpl; constructor.
  - rewrite list_elem_of_filter. tauto.
  - by apply NoDup_filter.
Qed.

Lemma filter_all {A} (P : A -> Prop) `{!forall x, Decision (P x)} (l : list A) :
  Forall P l -> filter P l = l.
Proof.
  induction 1 as [|x l Hx Hl IH]; [done|].
  by rewrite filter_cons_True, IH.
Qed.

Lemma first_occurrences_NoDup l : NoDup l -> spec_first_occurrences l = l.
Proof.
  induction 1 as [|x l Hx Hl IH]; simpl; [done|].
  rewrite IH. f_equal. apply filter_all, Forall_forall. congruence.
Qed.

Lemma first_occurrences_app l1 l2 :
  spec_first_occurrences (l1 ++ l2)
  = spec_first_occurrences l1
    ++ filter (fun x => x ∉ l1) (spec_first_occurrences l2).
Proof.
  induction l1 as [|y l1 IH]; simpl.
  - symmetry. apply filter_all, Forall_forall. intros x _. apply not_elem_of_nil.
  - f_equal. rewrite IH, filter_app. f_equal.
    rewrite list_filter_filter. apply list_filter_iff.
    intros x. rewrite not_elem_of_cons. tauto.
Qed.

(** *** [__addFrames] *)

Lemma addFrames_frange self frames :
  FrameSet.__frange (FrameSet.__addFrames self frames) = FrameSet.__frange self.
Proof. unfold FrameSet.__addFrames. by destruct (filter _ frames). Qed.

(** [__addFrames] appends the frames that are not yet in the list, in the
    order given. *)
Lemma addFrames_list self frames :
  wf self ->
  FrameSet.__list (FrameSet.__addFrames self frames)
  = FrameSet.__list self ++ filter (fun f => f ∉ FrameSet.__list self) frames.
Proof.
  intros [_ Hset]. unfold FrameSet.__addFrames.
  assert (filter (fun f => f ∉ FrameSet.__set self) frames
          = filter (fun f => f ∉ FrameSet.__list self) frames) as ->.
  { apply list_filter_iff. intros x. by rewrite Hset, elem_of_list_to_set. }
  destruct (filter _ frames); simpl; [by rewrite app_nil_r | done].
Qed.

Lemma addFrames_wf self frames :
  wf self -> NoDup frames -> wf (FrameSet.__addFrames self frames).
Proof.
  intros Hwf Hnd. split.
  - rewrite addFrames_list by done. destruct Hwf as [Hl _].
    apply NoDup_app. split; [done|]. split; [|by apply NoDup_filter].
    intros x Hx [Hx' _]%list_elem_of_filter. done.
  - destruct Hwf as [_ Hset]. unfold FrameSet.__addFrames.
    destruct (filter _ frames) as [|y k] eqn:E; simpl; [done|].
    by rewrite Hset, list_to_set_app_L.
Qed.

(** The list after a series of [__addFrames] is the list of first
    occurrences of everything handed over so far. *)
Lemma addFrames_first_occurrences self frames seen :
  wf self -> NoDup frames ->
  FrameSet.__list self = spec_first_occurrences seen ->
  FrameSet.__list (FrameSet.__addFrames self frames)
  = spec_first_occurrences (seen ++ frames).
Proof.
  intros Hwf Hnd Hseen. rewrite addFrames_list, first_occurrences_app by done.
  rewrite Hseen, (first_occurrences_NoDup frames) by done. f_equal.
  apply list_filter_iff. intros x. by rewrite elem_of_first_occurrences.
Qed.

Lemma foldl_addFrames self batches seen :
  wf self -> Forall NoDup batches ->
  FrameSet.__list self = spec_first_occurrences seen ->
  let self' := foldl FrameSet.__addFrames self batches in
  wf self'
  /\ FrameSet.__list self' = spec_first_occurrences (seen ++ concat batches)
  /\ FrameSet.__frange self' = FrameSet.__frange self.
Proof.
  intros Hwf Hb. revert self seen Hwf.
  induction Hb as [|b batches Hnd Hb IH]; intros self seen Hwf Hseen; simpl.
  - by rewrite app_nil_r.
  - destruct (IH (FrameSet.__addFrames self b) (seen ++ b)) as (? & ? & ?).
    + by apply addFrames_wf.
    + by apply addFrames_first_occurrences.
    + rewrite app_assoc. by rewrite addFrames_frange in *.
Qed.

(** *** [__handleMatch] *)

Lemma stagger_loop_batches self start end_ staggers :
  FrameSet.stagger_loop self start end_ staggers
  = batches ← mapM (M := pyresult)
      (fun stagger => Py.xrange start (end_ + 1) stagger) staggers;
    Ok (foldl FrameSet.__addFrames self batches).
Proof.
  revert self. induction staggers as [|st staggers IH]; intros self; simpl; [done|].
  destruct (Py.xrange start (end_ + 1) st) as [frames|e]; simpl; [|done].
  rewrite IH. by destruct (mapM _ staggers).
Qed.

(** [__handleMatch] is a series of [__addFrames]. *)
Lemma handleMatch_batches self groups :
  FrameSet.__handleMatch self groups
  = batches ← match_batches groups; Ok (foldl FrameSet.__addFrames self batches).
Proof.
  unfold FrameSet.__handleMatch, match_batches.
  repeat first
    [ progress rewrite ?bind_ok, ?bind_raise, ?stagger_loop_batches
    | match goal with |- context [if ?b then _ else _] => destruct b end
    | match goal with |- context [mbind _ ?m] => destruct m end ];
    reflexivity.
Qed.

(** *** Well-formed frame sets *)

Ltac inv_bind :=
  repeat match goal with
  | H : _ ≫= _ = Ok _ |- _ =>
      let a := fresh "a" in let Ha := fresh "Ha" in
      apply bind_Ok in H as (a & Ha & H)
  | H : Ok _ = Ok _ |- _ => injection H as H; try subst
  | H : Raise _ = Ok _ |- _ => discriminate H
  | H : (if ?b then _ else _) = Ok _ |- _ => destruct b eqn:?
  end.

(** Every list of frames that [__handleMatch] hands over is free of
    repetitions. *)
Lemma match_batches_NoDup groups batches :
  match_batches groups = Ok batches -> Forall NoDup batches.
Proof.
  unfold match_batches. intros H. inv_bind;
    repeat match goal with
    | H : Py.xrange _ _ _ = Ok _ |- _ => apply xrange_NoDup in H
    end;
    try (repeat constructor; by try apply NoDup_filter).
  - repeat constructor. apply not_elem_of_nil.
  - match goal with H : mapM _ _ = Ok _ |- _ => apply mapM_Ok in H; rename H into Hm end.
    clear -Hm. induction Hm as [|st b sts bs Hb _ IH]; constructor;
      eauto using xrange_NoDup.
Qed.

Lemma handleMatch_wf self groups self' :
  wf self -> FrameSet.__handleMatch self groups = Ok self' ->
  wf self' /\ FrameSet.__frange self' = FrameSet.__frange self.
Proof.
  intros Hwf. rewrite handleMatch_batches.
  intros (batches & Hb & [= <-])%bind_Ok.
  apply match_batches_NoDup in Hb.
  destruct (foldl_addFrames self batches (FrameSet.__list self) Hwf Hb) as (? & _ & ?);
    [|done].
  destruct Hwf. by rewrite first_occurrences_NoDup.
Qed.

Lemma pattern_loop_wf self pats part r :
  wf self -> FrameSet.pattern_loop self pats part = Ok r ->
  match r with
  | Some self' => wf self' /\ FrameSet.__frange self' = FrameSet.__frange self
  | None => True
  end.
Proof.
  intros Hwf. induction pats as [|[n pat] pats IH]; simpl.
  - by intros [= <-].
  - destruct (re_match n pat part) as [m|]; [|done].
    intros (self' & H & [= <-])%bind_Ok. by eapply handleMatch_wf.
Qed.

Lemma part_loop_wf self frange parts self' :
  wf self -> FrameSet.part_loop self frange parts = Ok self' ->
  wf self' /\ FrameSet.__frange self' = FrameSet.__frange self.
Proof.
  revert self. induction parts as [|part parts IH]; intros self Hwf;
    cbn [FrameSet.part_loop].
  - by intros [= <-].
  - intros ([self1|] & H1 & H)%bind_Ok; [|done].
    apply pattern_loop_wf in H1 as [Hwf1 Hf1]; [|done].
    destruct (IH _ Hwf1 H) as [? ?]. split; [done|congruence].
Qed.

Lemma wf_empty frange :
  wf {| FrameSet.__frange := frange; FrameSet.__set := ∅; FrameSet.__list := [] |}.
Proof. split; [constructor | done]. Qed.

(** Every constructed [FrameSet] is well formed and keeps its expression. *)
Lemma init_wf frange fs :
  FrameSet.__init__ frange = Ok fs -> wf fs /\ FrameSet.__frange fs = frange.
Proof. intros H. by apply part_loop_wf in H; [|apply wf_empty]. Qed.

Lemma wf_size self :
  wf self -> size (FrameSet.__set self) = length (FrameSet.__list self).
Proof. intros [Hnd ->]. by apply size_list_to_set. Qed.

(** *** Tokens *)

Lemma spec_int_Ok s n : Py.int_of_string s = Ok n -> spec_int s = Some n.
Proof. unfold spec_int. by intros ->. Qed.

Lemma xrange_Ok_step start stop step l :
  Py.xrange start stop step = Ok l -> step <> 0.
Proof. unfold Py.xrange. by destruct (Z.eqb_spec step 0). Qed.

Lemma fill_batches start end_ chunk :
  mapM (M := pyresult) (fun stagger => Py.xrange start (end_ + 1) stagger)
    (spec_strides chunk)
  = Ok (spec_progression start end_ <$> spec_strides chunk).
Proof.
  apply mapM_Ok_fmap. intros k Hk%elem_of_spec_strides.
  apply xrange_progression. lia.
Qed.

(** The frames handed over for a token are the token's values, in its
    natural order. *)
Lemma match_batches_token groups batches :
  token_shape groups -> match_batches groups = Ok batches ->
  exists tok, spec_token_of_groups groups = Some tok
    /\ concat batches = spec_token_values tok.
Proof.
  intros [(a & b & ->) | [(a & ->) | (a & b & md & c & -> & Hmd & Hc)]];
    unfold match_batches; cbn [length Nat.eqb].
  - change (Py.getitem [Some a; Some b] 0) with (Ok (A := option string) (Some a)).
    change (Py.getitem [Some a; Some b] 1) with (Ok (A := option string) (Some b)).
    rewrite !bind_ok. cbn [FrameSet.int_of_group]. intros H. inv_bind.
    rewrite xrange_interval in Ha1. injection Ha1 as <-.
    exists (Range a0 a1). cbn [spec_token_of_groups].
    rewrite (spec_int_Ok _ _ Ha), (spec_int_Ok _ _ Ha0). simpl.
    by rewrite app_nil_r.
  - change (Py.getitem [Some a] 0) with (Ok (A := option string) (Some a)).
    rewrite !bind_ok. cbn [FrameSet.int_of_group]. intros H. inv_bind.
    exists (Single a0). cbn [spec_token_of_groups].
    by rewrite (spec_int_Ok _ _ Ha).
  - change (Py.getitem [Some a; Some b; Some md; Some c] 0)
      with (Ok (A := option string) (Some a)).
    change (Py.getitem [Some a; Some b; Some md; Some c] 1)
      with (Ok (A := option string) (Some b)).
    change (Py.getitem [Some a; Some b; Some md; Some c] 2)
      with (Ok (A := option string) (Some md)).
    change (Py.getitem [Some a; Some b; Some md; Some c] 3)
      with (Ok (A := option string) (Some c)).
    rewrite !bind_ok. cbn [FrameSet.int_of_group]. intros H.
    apply bind_Ok in H as (chunk & Hchunk & H).
    apply bind_Ok in H as (start & Hstart & H).
    apply bind_Ok in H as (end_ & Hend & H).
    rewrite bind_ok in H.
    pose proof (int_of_string_digits_nonneg _ _ Hc Hchunk) as Hnn.
    cbn [spec_token_of_groups].
    rewrite (spec_int_Ok _ _ Hchunk), (spec_int_Ok _ _ Hstart), (spec_int_Ok _ _ Hend).
    destruct Hmd as [-> | [-> | ->]].
    + rewrite bool_decide_eq_false_2, bool_decide_eq_true_2 in H by done.
      rewrite xrange_strides, bind_ok, fill_batches in H. injection H as <-.
      by exists (Stepped start end_ Fill chunk).
    + rewrite bool_decide_eq_true_2 in H by done.
      apply bind_Ok in H as (frames & Hx & [= <-]).
      pose proof (xrange_Ok_step _ _ _ _ Hx).
      rewrite xrange_progression in Hx by lia. injection Hx as <-.
      exists (Stepped start end_ Step chunk). split; [done|]. simpl. by rewrite app_nil_r.
    + rewrite !bool_decide_eq_false_2, bool_decide_eq_true_2 in H by done.
      apply bind_Ok in H as (not_good & Hx & H).
      pose proof (xrange_Ok_step _ _ _ _ Hx).
      rewrite xrange_progression in Hx by lia. injection Hx as <-.
      rewrite xrange_interval, bind_ok in H. injection H as <-.
      exists (Stepped start end_ Complement chunk). split; [done|]. simpl.
      rewrite app_nil_r. apply list_filter_iff. intros x.
      by rewrite elem_of_list_to_set.
Qed.

Lemma pattern_loop_first_match self pats part :
  FrameSet.pattern_loop self pats part =
  match first_match pats part with
  | Some groups => self' ← FrameSet.__handleMatch self groups; Ok (Some self')
  | None => Ok None
  end.
Proof.
  induction pats as [|[n pat] pats IH]; simpl; [done|].
  by destruct (re_match n pat part).
Qed.

(** The list of a [FrameSet] under construction after the parts of an
    expression: the first occurrences over the values of their tokens. *)
Lemma part_loop_tokens self frange parts fs seen :
  wf self -> FrameSet.__list self = spec_first_occurrences seen ->
  FrameSet.part_loop self frange parts = Ok fs ->
  exists toks,
    Forall2 (fun part tok => spec_token part = Some tok) parts toks
    /\ FrameSet.__list fs
       = spec_first_occurrences (seen ++ concat (spec_token_values <$> toks)).
Proof.
  revert self seen. induction parts as [|part parts IH]; intros self seen Hwf Hseen;
    cbn [FrameSet.part_loop].
  - intros [= <-]. exists []. split; [constructor|]. simpl. by rewrite app_nil_r.
  - intros ([self1|] & H1 & H)%bind_Ok; [|done].
    rewrite pattern_loop_first_match in H1.
    destruct (first_match _PATTERNS part) as [groups|] eqn:Hfm; [|done].
    apply bind_Ok in H1 as (self1' & Hh & [= ->]).
    rewrite handleMatch_batches in Hh.
    apply bind_Ok in Hh as (batches & Hb & [= <-]).
    destruct (match_batches_token _ _ (first_match_shape _ _ Hfm) Hb)
      as (tok & Htok & Hvals).
    destruct (foldl_addFrames self batches seen Hwf
                (match_batches_NoDup _ _ Hb) Hseen) as (Hwf1 & Hl1 & _).
    destruct (IH _ _ Hwf1 Hl1 H) as (toks & Htoks & Hl).
    exists (tok :: toks). split.
    + constructor; [|done]. unfold spec_token. by rewrite Hfm.
    + rewrite Hl, Hvals. simpl. by rewrite app_assoc.
Qed.

Lemma init_tokens frange fs :
  FrameSet.__init__ frange = Ok fs ->
  exists toks,
    Forall2 (fun part tok => spec_token part = Some tok) (Py.split "," frange) toks
    /\ FrameSet.__list fs
       = spec_first_occurrences (concat (spec_token_values <$> toks)).
Proof. intros H. by apply (part_loop_tokens _ _ _ _ []) in H; [|apply wf_empty|]. Qed.

(** *** Staggered fill *)

(** The text of a staggered-fill token. *)
Lemma fill_token_contains (c : ascii) a b ch :
  int_text a -> int_text b -> digits_text ch ->
  Py.contains c (a +:+ "-" +:+ b +:+ ":" +:+ ch)
  = Ascii.eqb "-" c || Py.contains c a || Py.contains c b
    || Ascii.eqb ":" c || Py.contains c ch.
Proof.
  intros _ _ _. rewrite !contains_app. cbn [Py.contains].
  rewrite !orb_false_r.
  destruct (Ascii.eqb "-" c), (Py.contains c a), (Py.contains c b),
    (Ascii.eqb ":" c), (Py.contains c ch); reflexivity.
Qed.

Lemma first_match_fill a b ch :
  int_text a -> int_text b -> digits_text ch ->
  first_match _PATTERNS (a +:+ "-" +:+ b +:+ ":" +:+ ch)
  = Some [Some a; Some b; Some ":"; Some ch].
Proof.
  intros Ha Hb Hch. unfold first_match, _PATTERNS.
  assert (Hcolon : Py.contains ":" (a +:+ "-" +:+ b +:+ ":" +:+ ch) = true).
  { rewrite fill_token_contains by done. rewrite Ascii.eqb_refl.
    by rewrite orb_true_r. }
  unfold pattern_range at 1.
  rewrite (no_match_foreign _ _ _ ":" Hcolon) by done.
  unfold pattern_single at 1.
  rewrite (no_match_foreign _ _ _ ":" Hcolon) by done.
  destruct (pattern_stepped_match a b ":" ch) as [g0 Hm]; [done..|].
  change (":" +:+ ch) with (String ":" ch). by rewrite Hm.
Qed.

Lemma match_batches_fill start end_ chunk :
  match_batches [Some (Py.str start); Some (Py.str end_); Some ":"; Some (Py.str chunk)]
  = Ok (spec_progression start end_ <$> spec_strides chunk).
Proof.
  unfold match_batches. cbn [length Nat.eqb].
  set (groups := [Some (Py.str start); Some (Py.str end_); Some ":"; Some (Py.str chunk)]).
  change (Py.getitem groups 0) with (Ok (A := option string) (Some (Py.str start))).
  change (Py.getitem groups 1) with (Ok (A := option string) (Some (Py.str end_))).
  change (Py.getitem groups 2) with (Ok (A := option string) (Some ":")).
  change (Py.getitem groups 3) with (Ok (A := option string) (Some (Py.str chunk))).
  rewrite !bind_ok. cbn [FrameSet.int_of_group].
  rewrite !int_of_string_str, !bind_ok.
  rewrite bool_decide_eq_false_2, bool_decide_eq_true_2 by done.
  by rewrite xrange_strides, bind_ok, fill_batches.
Qed.

(** Parsing a staggered-fill token [start-end:chunk]. *)
Lemma init_fill start end_ chunk :
  0 < chunk ->
  exists fs,
    FrameSet.__init__ (Py.str start +:+ "-" +:+ Py.str end_ +:+ ":" +:+ Py.str chunk)
    = Ok fs
    /\ FrameSet.__list fs
       = spec_first_occurrences
           (concat (spec_progression start end_ <$> spec_strides chunk)).
Proof.
  intros Hchunk.
  pose proof (str_int_text start) as Ha. pose proof (str_int_text end_) as Hb.
  pose proof (str_digits_text chunk ltac:(lia)) as Hch.
  destruct Hch as [Hne Hd] eqn:E. clear E.
  unfold FrameSet.__init__. rewrite split_no_sep.
  2:{ rewrite fill_token_contains by done.
      rewrite !contains_int_text, (contains_digits _ _ Hd) by done. done. }
  cbn [FrameSet.part_loop]. rewrite pattern_loop_first_match.
  rewrite first_match_fill by done.
  rewrite handleMatch_batches, match_batches_fill, !bind_ok.
  eexists. split; [reflexivity|].
  apply (foldl_addFrames _ _ []); [apply wf_empty| |done].
  eapply match_batches_NoDup, match_batches_fill.
Qed.

Lemma elem_of_concat (x : Z) (ls : list (list Z)) :
  x ∈ concat ls <-> exists l, l ∈ ls /\ x ∈ l.
Proof.
  rewrite list_elem_of_In, in_concat. setoid_rewrite list_elem_of_In. done.
Qed.

Lemma elem_of_fill x start end_ chunk :
  x ∈ spec_first_occurrences
        (concat (spec_progression start end_ <$> spec_strides chunk))
  <-> exists k, 1 <= k <= chunk /\ x ∈ spec_progression start end_ k.
Proof.
  rewrite elem_of_first_occurrences, elem_of_concat. split.
  - intros (l & (k & -> & Hk%elem_of_spec_strides)%list_elem_of_fmap & Hx). eauto.
  - intros (k & Hk & Hx). exists (spec_progression start end_ k). split; [|done].
    apply list_elem_of_fmap. exists k. by rewrite elem_of_spec_strides.
Qed.

(** *** Inversion *)

Lemma getitem_nat {A} (l : list A) (i : nat) :
  Py.getitem l (Z.of_nat i) =
  match l !! i with
  | Some x => Ok x
  | None => Raise IndexError
  end.
Proof.
  unfold Py.getitem. destruct (Z.ltb_spec (Z.of_nat i) 0); [lia|].
  rewrite Nat2Z.id. destruct (Z.leb_spec 0 (Z.of_nat i)); [|lia]. simpl.
  destruct (Z.ltb_spec (Z.of_nat i) (Z.of_nat (length l))) as [Hlt|Hge]; [done|].
  by rewrite lookup_ge_None_2 by lia.
Qed.

(** The loop of [invertedFrameRange] collects the gaps of the list and is
    left through the [IndexError] of its last round. *)
Lemma inverted_loop_gaps pre suf result :
  suf <> [] ->
  FrameSet.inverted_loop (pre ++ suf) (zip (seq (length pre) (length suf)) suf) result
  = (result ++ spec_gaps suf, Some IndexError).
Proof.
  revert pre result. induction suf as [|a suf IH]; intros pre result Hne; [done|].
  cbn [length seq zip zip_with FrameSet.inverted_loop].
  replace (Z.of_nat (length pre) + 1) with (Z.of_nat (S (length pre))) by lia.
  rewrite getitem_nat, (lookup_app_r pre) by lia.
  replace (S (length pre) - length pre)%nat with 1%nat by lia.
  destruct suf as [|b suf]; simpl lookup.
  { simpl. by rewrite app_nil_r. }
  specialize (IH (pre ++ [a]) ). rewrite <- (app_assoc pre [a]) in IH.
  rewrite length_app in IH. simpl length in IH.
  replace (length pre + 1)%nat with (S (length pre)) in IH by lia.
  cbn [spec_gaps]. destruct (Z.eqb_spec (b - a) 1) as [Hd|Hd].
  - rewrite IH by done. destruct (Z.ltb_spec 1 (b - a)); [lia|]. done.
  - unfold Py.xrange, Py.len_of_range. cbn [Z.eqb Z.ltb Z.compare].
    rewrite IH by done. rewrite <- app_assoc. f_equal. f_equal. f_equal.
    rewrite Z.div_1_r.
    destruct (Z.ltb_spec 1 (b - a)), (Z.ltb_spec (a + 1) b); try lia.
    + unfold seqZ. replace (1 + (b - 1 - (a + 1))) with (b - a - 1) by lia.
      apply list_fmap_ext. intros _ i _. lia.
    + done.
Qed.

(** [invertedFrameRange] compacts the gaps of the sorted values, and
    returns the empty string when there is none. *)
Lemma invertedFrameRange_gaps self zfill :
  FrameSet.invertedFrameRange self zfill =
  match spec_gaps (Py.sorted (elements (FrameSet.__set self))) with
  | [] => Ok ""
  | gaps => fst (framesToFrameRange gaps true zfill)
  end.
Proof.
  unfold FrameSet.invertedFrameRange, enumerate.
  destruct (Py.sorted (elements (FrameSet.__set self))) as [|a l] eqn:E.
  { reflexivity. }
  rewrite <- E.
  pose proof (inverted_loop_gaps [] (Py.sorted (elements (FrameSet.__set self))) [])
    as H.
  cbn [app length] in H. rewrite H by (by rewrite E).
  by destruct (spec_gaps _).
Qed.

Lemma sorted_ascending (s : gset Z) :
  StronglySorted Z.lt (Py.sorted (elements s)).
Proof.
  unfold Py.sorted.
  assert (Hs : StronglySorted Z.le (merge_sort Z.le (elements s)))
    by (apply StronglySorted_merge_sort; apply _).
  assert (Hn : NoDup (merge_sort Z.le (elements s))).
  { rewrite merge_sort_Permutation. apply NoDup_elements. }
  induction Hs as [|x l Hl IH Hx]; constructor.
  - apply IH. by apply NoDup_cons in Hn as [_ ?].
  - apply NoDup_cons in Hn as [Hxl _]. rewrite Forall_forall in *.
    intros y Hy. specialize (Hx y Hy). assert (x <> y) by (by intros ->). lia.
Qed.

Lemma elem_of_sorted (s : gset Z) x : x ∈ Py.sorted (elements s) <-> x ∈ s.
Proof. unfold Py.sorted. by rewrite merge_sort_Permutation, elem_of_elements. Qed.

(** The gaps of an ascending list: the integers that lie between two
    elements of the list and are not in it, each once. *)
Lemma elem_of_spec_gaps l x :
  StronglySorted Z.lt l ->
  x ∈ spec_gaps l <-> (x ∉ l) /\ exists a b, a ∈ l /\ b ∈ l /\ a < x < b.
Proof.
  induction 1 as [|a l Hl IH Ha].
  { simpl. split; [by intros ?%elem_of_nil|].
    intros [_ (a & b & Ha%elem_of_nil & _)]. done. }
  rewrite Forall_forall in Ha.
  destruct l as [|b l].
  { simpl. split; [by intros ?%elem_of_nil|].
    intros [_ (a' & b' & ->%list_elem_of_singleton & ->%list_elem_of_singleton & ?)]. lia. }
  cbn [spec_gaps]. rewrite elem_of_app, IH.
  pose proof (Ha b ltac:(left)) as Hab.
  inversion Hl as [|? ? Hl' Hb]; subst. rewrite Forall_forall in Hb.
  assert (Hgap : x ∈ (if 1 <? b - a then seqZ (a + 1) (b - a - 1) else []) <-> a < x < b).
  { destruct (Z.ltb_spec 1 (b - a)); [rewrite elem_of_seqZ; lia|].
    split; [by intros ?%elem_of_nil | lia]. }
  rewrite Hgap. split.
  - intros [Hx | [Hx (a' & b' & Ha' & Hb' & Hlt)]].
    + split.
      * rewrite !not_elem_of_cons. split; [lia|]. split; [lia|].
        intros Hin%Hb. lia.
      * exists a, b. split; [left|]. split; [right; left|done].
    + split.
      * rewrite not_elem_of_cons. split; [|done].
        pose proof (Ha a' Ha'). lia.
      * exists a', b'. split; [by right|]. split; [by right|done].
  - intros [Hx (a' & b' & Ha' & Hb' & Hlt)].
    apply not_elem_of_cons in Hx as [Hxa Hx].
    destruct (decide (x < b)) as [Hlb|Hge].
    + left. apply elem_of_cons in Ha' as [->|Ha']; [lia|].
      apply elem_of_cons in Ha' as [->|Ha']; [lia|]. apply Hb in Ha'. lia.
    + right. split; [done|].
      assert (x <> b) by (intros ->; apply Hx; left).
      exists b, b'. split; [left|]. split; [|lia].
      apply elem_of_cons in Hb' as [->|Hb']; [lia|done].
Qed.

Lemma spec_gaps_ascending l :
  StronglySorted Z.lt l -> StronglySorted Z.lt (spec_gaps l).
Proof.
  induction 1 as [|a l Hl IH Ha]; [constructor|].
  destruct l as [|b l]; [constructor|]. cbn [spec_gaps].
  apply StronglySorted_app_2; [| |done].
  2:{ destruct (1 <? b - a); [apply ascending_seqZ | constructor]. }
  - intros x y Hx Hy.
    apply (elem_of_spec_gaps _ _ Hl) in Hy as [_ (a' & b' & Ha' & _ & ?)].
    assert (b <= a').
    { inversion Hl as [|? ? _ Hb]; subst. rewrite Forall_forall in Hb.
      apply elem_of_cons in Ha' as [->|Ha']; [lia|]. apply Hb in Ha'. lia. }
    destruct (1 <? b - a); [|by apply elem_of_nil in Hx].
    apply elem_of_seqZ in Hx. lia.
Qed.

(** A set without gap has the empty string as its inverted range. *)
Lemma invertedFrameRange_gap_free self zfill :
  (forall x a b, a ∈ FrameSet.__set self -> b ∈ FrameSet.__set self ->
     a < x < b -> x ∈ FrameSet.__set self) ->
  FrameSet.invertedFrameRange self zfill = Ok "".
Proof.
  intros Hfree. rewrite invertedFrameRange_gaps.
  destruct (spec_gaps _) as [|g gaps] eqn:E; [done|].
  assert (Hg : g ∈ spec_gaps (Py.sorted (elements (FrameSet.__set self))))
    by (rewrite E; left).
  apply (elem_of_spec_gaps _ _ (sorted_ascending _)) in Hg
    as [Hn (a & b & Ha & Hb & Hlt)].
  rewrite elem_of_sorted in *. exfalso. eauto.
Qed.

(** *** Compaction *)

Lemma compact_loop_tail zfill pre prev rest start count result :
  compact_loop zfill (pre ++ prev :: rest)
    (zip (seq (S (length pre)) (length rest)) rest) start count result
  = Ok (compact_tail zfill start count prev rest result).
Proof.
  revert pre prev start count result.
  induction rest as [|b rest IH]; intros pre prev start count result; [done|].
  cbn [length seq zip zip_with compact_loop compact_tail].
  assert (Hnext : forall st ct res,
    compact_loop zfill (pre ++ prev :: b :: rest)
      (zip (seq (S (S (length pre))) (length rest)) rest) st ct res
    = Ok (compact_tail zfill st ct b rest res)).
  { intros st ct res. specialize (IH (pre ++ [prev]) b st ct res).
    rewrite <- app_assoc, length_app in IH. simpl in IH.
    by replace (length pre + 1)%nat with (S (length pre)) in IH by lia. }
  destruct (b =? start); [apply Hnext|].
  replace (Z.of_nat (S (length pre)) - 1) with (Z.of_nat (length pre)) by lia.
  replace (Z.of_nat (S (length pre)) + 1) with (Z.of_nat (S (S (length pre)))) by lia.
  rewrite !getitem_nat.
  rewrite (lookup_app_r pre), (lookup_app_r pre), (lookup_app_r pre) by lia.
  replace (length pre - length pre)%nat with 0%nat by lia.
  replace (S (length pre) - length pre)%nat with 1%nat by lia.
  replace (S (S (length pre)) - length pre)%nat with 2%nat by lia.
  simpl lookup. cbv iota. rewrite !bind_ok. cbv beta zeta.
  destruct (b - prev =? 0); [apply Hnext|].
  destruct rest as [|c rest]; [done|]. simpl lookup. cbv iota.
  destruct (negb (b - prev =? c - b)); [|apply Hnext].
  destruct ((count + 1 =? 2) && (c - b =? 1)); apply Hnext.
Qed.

Lemma sorted_of_ascending l : StronglySorted Z.lt l -> Py.sorted l = l.
Proof.
  intros Hl. unfold Py.sorted.
  apply (Sorted_unique Z.le); [apply Sorted_merge_sort; apply _ | |apply merge_sort_Permutation].
  apply StronglySorted_Sorted.
  induction Hl as [|x l _ IH Hx]; constructor; [done|].
  eapply Forall_impl; [exact Hx|]. intros; simpl in *; lia.
Qed.

(** [framesToFrameRange] on an ascending list of two frames or more. *)
Lemma framesToFrameRange_tail x y rest sort zfill :
  StronglySorted Z.lt (x :: y :: rest) ->
  framesToFrameRange (x :: y :: rest) sort zfill
  = (Ok (Py.join "," (compact_tail zfill x 1 x (y :: rest) [])), x :: y :: rest).
Proof.
  intros Hl. unfold framesToFrameRange. cbn [length Nat.eqb].
  assert ((if sort then Py.sorted (x :: y :: rest) else x :: y :: rest)
          = x :: y :: rest) as -> by (destruct sort; [by apply sorted_of_ascending|done]).
  f_equal. change (Py.getitem (x :: y :: rest) 0) with (Ok x). rewrite bind_ok.
  pose proof (compact_loop_tail zfill [] x (y :: rest) x 1 []) as H.
  unfold enumerate. cbn [app length seq] in H |- *.
  change (zip (0%nat :: 1%nat :: seq 2 (length rest)) (x :: y :: rest))
    with ((0%nat, x) :: zip (1%nat :: seq 2 (length rest)) (y :: rest)).
  cbn [compact_loop]. rewrite Z.eqb_refl, H. by rewrite bind_ok.
Qed.

(** What [append] writes for the runs of an ascending list. *)
Lemma append_single zfill result s :
  append zfill result s s 1 1 = result ++ [spec_render_run zfill [s]].
Proof. reflexivity. Qed.

Lemma append_pair zfill result s e d :
  s < e -> append zfill result s e d 2 = result ++ [spec_render_run zfill [s; e]].
Proof.
  intros Hlt. unfold append. cbn [Z.eqb orb].
  destruct (Z.eqb_spec s e); [lia|]. by rewrite andb_false_r.
Qed.

Lemma last_cons_default (c : Z) run d : List.last (c :: run) d = List.last run c.
Proof.
  revert c d. induction run as [|e run IH]; intros c d; [done|].
  change (List.last (c :: e :: run) d) with (List.last (e :: run) d).
  by rewrite !(IH e).
Qed.

Lemma append_run zfill result x y z run :
  x < y -> y < List.last (z :: run) y ->
  append zfill result x (List.last (z :: run) y) (y - x)
    (2 + Z.of_nat (length (z :: run)))
  = result ++ [spec_render_run zfill (x :: y :: z :: run)].
Proof.
  intros Hxy Hlast. unfold append.
  destruct (Z.eqb_spec (2 + Z.of_nat (length (z :: run))) 1) as [H1|_];
    [simpl in H1; lia|].
  destruct (Z.eqb_spec x (List.last (z :: run) y)); [lia|]. cbn [orb].
  assert ((2 <? 2 + Z.of_nat (length (z :: run))) = true) as ->
    by (apply Z.ltb_lt; simpl; lia).
  rewrite andb_true_r. unfold spec_render_run.
  rewrite (last_cons_default x), (last_cons_default y).
  destruct (Z.ltb_spec 1 (y - x)), (Z.eqb_spec (y - x) 1); try lia; done.
Qed.

Lemma spec_run_tail_app d prev l run rest :
  spec_run_tail d prev l = (run, rest) -> l = run ++ rest.
Proof.
  revert prev run rest. induction l as [|y l IH]; intros prev run rest; simpl.
  - by intros [= <- <-].
  - destruct (y - prev =? d); [|by intros [= <- <-]].
    destruct (spec_run_tail d y l) as [run' rest'] eqn:E.
    intros [= <- <-]. simpl. f_equal. by eapply IH.
Qed.

Lemma spec_run_tail_last d prev l run rest :
  0 < d -> spec_run_tail d prev l = (run, rest) -> run <> [] ->
  prev < List.last run prev.
Proof.
  intros Hd. revert prev run rest. induction l as [|y l IH]; intros prev run rest; simpl.
  - by intros [= <- <-].
  - destruct (Z.eqb_spec (y - prev) d) as [Hy|]; [|by intros [= <- <-]].
    destruct (spec_run_tail d y l) as [run' rest'] eqn:E.
    intros [= <- <-] _. rewrite last_cons_default.
    destruct run' as [|e run']; [simpl; lia|].
    specialize (IH y _ _ E ltac:(done)). lia.
Qed.

(** The loop inside a run of difference [d] that holds [count] frames, two
    at least, and goes on with the head of [rest]. *)
Lemma compact_tail_in_run zfill d start count prev rest result :
  0 < d -> start < prev -> rest <> [] ->
  StronglySorted Z.lt (prev :: rest) ->
  (forall c rest', rest = c :: rest' -> c - prev = d) ->
  2 <= count ->
  let '(run, rest') := spec_run_tail d prev rest in
  let result' :=
    append zfill result start (List.last run prev) d (count + Z.of_nat (length run)) in
  compact_tail zfill start count prev rest result =
  match rest' with
  | [] => result'
  | e :: rest'' => compact_tail zfill e 1 e rest'' result'
  end.
Proof.
  intros Hd. revert start count prev result.
  induction rest as [|c rest IH]; intros start count prev result Hs Hne Hasc Hhead Hc;
    [done|].
  pose proof (Hhead c rest eq_refl) as Hcd.
  apply StronglySorted_cons in Hasc as [Hprev Hasc].
  cbn [spec_run_tail]. destruct (Z.eqb_spec (c - prev) d) as [_|]; [|done].
  cbn [compact_tail]. destruct (Z.eqb_spec c start) as [|_]; [lia|].
  cbv zeta. destruct (Z.eqb_spec (c - prev) 0) as [|_]; [lia|].
  destruct rest as [|e rest].
  { simpl. by rewrite Hcd. }
  destruct (Z.eqb_spec (c - prev) (e - c)) as [Heq|Hneq]; cbn [negb].
  - assert (Hhead' : forall c' rest', e :: rest = c' :: rest' -> c' - c = d)
      by (intros ? ? [= <- <-]; lia).
    specialize (IH start (count + 1) c result ltac:(lia) ltac:(done) Hasc Hhead'
                  ltac:(lia)).
    cbn [spec_run_tail] in IH |- *.
    destruct (Z.eqb_spec (e - c) d) as [_|]; [|lia].
    destruct (spec_run_tail d e rest) as [run rest'] eqn:E.
    cbv zeta in IH. rewrite IH, !last_cons_default.
    replace (count + 1 + Z.of_nat (length (e :: run)))
      with (count + Z.of_nat (length (c :: e :: run))) by (simpl length; lia).
    done.
  - cbn [spec_run_tail].
    destruct (Z.eqb_spec (e - c) d) as [|_]; [lia|].
    destruct (Z.eqb_spec (count + 1) 2); [lia|]. cbn [andb].
    cbn [compact_tail]. rewrite Z.eqb_refl. simpl. by rewrite Hcd.
Qed.

Lemma spec_runs_nil fuel : spec_runs fuel [] = [].
Proof. by destruct fuel. Qed.

Lemma spec_runs_nonempty fuel x l :
  (0 < fuel)%nat -> spec_runs fuel (x :: l) <> [].
Proof.
  destruct fuel as [|fuel]; [lia|]. intros _.
  simpl. destruct l as [|y l]; [done|].
  destruct (spec_run_tail (y - x) y l) as [[|? ?] [|? ?]]; try done.
  by destruct (_ =? 1).
Qed.

Lemma written_runs_cons run runs :
  runs <> [] -> written_runs (run :: runs) = run :: written_runs runs.
Proof. destruct runs; [done|]. by destruct run as [|? [|? ?]]. Qed.

Lemma ascending_suffix (l1 l2 : list Z) :
  StronglySorted Z.lt (l1 ++ l2) -> StronglySorted Z.lt l2.
Proof. apply StronglySorted_app_1_r. Qed.

(** From the start of a run, the loop writes the runs of the
    specification, except a final run of one frame. *)
Lemma compact_tail_runs zfill fuel : forall x rest result,
  (length (x :: rest) <= fuel)%nat -> StronglySorted Z.lt (x :: rest) ->
  compact_tail zfill x 1 x rest result
  = result ++ (spec_render_run zfill <$> written_runs (spec_runs fuel (x :: rest))).
Proof.
  induction fuel as [|fuel IH]; intros x rest result Hlen Hasc; [simpl in Hlen; lia|].
  destruct rest as [|y rest]; [simpl; by rewrite app_nil_r|].
  pose proof Hasc as Hasc0.
  apply StronglySorted_cons in Hasc as [Hx Hasc].
  pose proof (Forall_inv Hx) as Hxy. simpl in Hxy.
  cbn [compact_tail]. destruct (Z.eqb_spec y x) as [|_]; [lia|]. cbv zeta.
  destruct (Z.eqb_spec (y - x) 0) as [|_]; [lia|]. cbn [Z.add Pos.add].
  destruct rest as [|z rest].
  { rewrite append_pair by done. cbn [spec_runs spec_run_tail].
    by rewrite spec_runs_nil. }
  pose proof Hasc as Hasc1.
  apply StronglySorted_cons in Hasc1 as [Hy Hasc1].
  pose proof (Forall_inv Hy) as Hyz. simpl in Hyz.
  simpl in Hlen. change (1 + 1) with 2.
  cbn [spec_runs spec_run_tail].
  destruct (Z.eqb_spec (y - x) (z - y)) as [Heq|Hneq]; cbn [negb].
  - (* the run goes on *)
    destruct (Z.eqb_spec (z - y) (y - x)) as [_|]; [|lia].
    pose proof (compact_tail_in_run zfill (y - x) x 2 y (z :: rest) result
      ltac:(lia) Hxy ltac:(done) Hasc) as Hrun.
    cbn [spec_run_tail] in Hrun.
    destruct (Z.eqb_spec (z - y) (y - x)) as [_|]; [|lia].
    destruct (spec_run_tail (y - x) z rest) as [run rest'] eqn:E.
    rewrite Hrun; [| intros ? ? [= <- <-]; lia | lia]. clear Hrun.
    assert (Hlast : y < List.last (z :: run) y).
    { rewrite last_cons_default. destruct run as [|e run]; [simpl; lia|].
      pose proof (spec_run_tail_last (y - x) z rest _ _ ltac:(lia) E ltac:(done)).
      lia. }
    rewrite append_run by done.
    pose proof (spec_run_tail_app _ _ _ _ _ E) as Hrest.
    destruct rest' as [|e rest''].
    + by rewrite spec_runs_nil.
    + rewrite IH.
      * rewrite written_runs_cons by (apply spec_runs_nonempty; lia).
        by rewrite <- app_assoc.
      * subst rest. rewrite length_app in Hlen. simpl in *. lia.
      * subst rest. apply (ascending_suffix (z :: run)). by rewrite <- app_comm_cons.
  - destruct (Z.eqb_spec (z - y) (y - x)) as [|_]; [lia|]. cbn [Z.eqb Pos.eqb andb].
    destruct (Z.eqb_spec (z - y) 1) as [H1|H1].
    + (* tie-break *)
      rewrite append_single, IH by (simpl; done || lia).
      rewrite written_runs_cons by (apply spec_runs_nonempty; lia).
      by rewrite <- app_assoc.
    + rewrite append_pair by done. cbn [compact_tail]. rewrite Z.eqb_refl.
      rewrite IH by (simpl; done || lia).
      rewrite written_runs_cons by (apply spec_runs_nonempty; lia).
      by rewrite <- app_assoc.
Qed.

(** On an ascending list of two frames or more, [framesToFrameRange]
    writes the maximal runs of the list with the tie-break of the
    specification, and leaves out a final run of one frame. *)
Theorem framesToFrameRange_runs frames sort zfill :
  StronglySorted Z.lt frames -> (2 <= length frames)%nat ->
  framesToFrameRange frames sort zfill
  = (Ok (Py.join ","
           (spec_render_run zfill
              <$> written_runs (spec_runs (length frames) frames))),
     frames).
Proof.
  intros Hasc Hlen. destruct frames as [|x [|y rest]]; try (simpl in Hlen; lia).
  rewrite framesToFrameRange_tail by done.
  by rewrite (compact_tail_runs zfill (length (x :: y :: rest))).
Qed.

(** When the last run holds two frames or more, the result is the
    compaction of the specification. *)
Corollary framesToFrameRange_spec_compact frames sort zfill :
  StronglySorted Z.lt frames -> (2 <= length frames)%nat ->
  written_runs (spec_runs (length frames) frames) = spec_runs (length frames) frames ->
  fst (framesToFrameRange frames sort zfill) = Ok (spec_compact frames zfill).
Proof.
  intros Hasc Hlen Hw. rewrite framesToFrameRange_runs by done.
  unfold spec_compact. by rewrite Hw.
Qed.

(** *** Compaction: examples and the single-frame case *)

Example compact_contiguous :
  framesToFrameRange [1; 2; 3; 4; 5] true 0 = (Ok "1-5", [1; 2; 3; 4; 5]).
Proof. vm_compute. reflexivity. Qed.

Example compact_stepped :
  framesToFrameRange [1; 3; 5; 7] true 0 = (Ok "1-7x2", [1; 3; 5; 7]).
Proof. vm_compute. reflexivity. Qed.

Example compact_tie_break :
  framesToFrameRange [1; 3; 4; 5] true 0 = (Ok "1,3-5", [1; 3; 4; 5]).
Proof. vm_compute. reflexivity. Qed.

Example compact_padded_pair :
  framesToFrameRange [1; 3] true 4 = (Ok "0001,0003", [1; 3]).
Proof. vm_compute. reflexivity. Qed.

(** A list of one frame is returned as [str(frames[0])], whatever [zfill]. *)
Lemma framesToFrameRange_single n sort zfill :
  framesToFrameRange [n] sort zfill = (Ok (Py.str n), [n]).
Proof. reflexivity. Qed.

(** C1 (code defect).  On the ascending list [1, 2, 4] the maximal runs are
    [1, 2] and [4], rendered "1,2,4" by the specification; the loop of
    [framesToFrameRange] leaves a run that starts on the last frame
    unwritten and returns "1,2". *)
Theorem C1_last_frame_run_is_dropped :
  framesToFrameRange [1; 2; 4] true 0 = (Ok "1,2", [1; 2; 4])
  /\ spec_compact [1; 2; 4] 0 = "1,2,4".
Proof. split; vm_compute; reflexivity. Qed.

(** C7 (as stated, refuted).  Compacting [1, 2, 4, 5] does not give
    "1-2,4-5". *)
Lemma C7_counterexample :
  fst (framesToFrameRange [1; 2; 4; 5] true 0) <> Ok "1-2,4-5".
Proof. vm_compute. discriminate. Qed.

(** C7 (amended).  Compacting [1, 2, 4, 5] gives "1,2,4,5": each of the
    two-frame runs is written as a comma-joined pair. *)
Theorem C7_pairs_are_comma_joined :
  fst (framesToFrameRange [1; 2; 4; 5] true 0) = Ok "1,2,4,5"
  /\ spec_compact [1; 2; 4; 5] 0 = "1,2,4,5".
Proof. split; vm_compute; reflexivity. Qed.

(** C8 (code defect).  For the single frame 7 and a pad width of 4 the
    result is "7", not the padded "0007" that [format] gives everywhere
    else in the function. *)
Theorem C8_single_frame_is_not_padded :
  framesToFrameRange [7] true 4 = (Ok "7", [7])
  /\ Py.format_0d 7 4 = "0007"
  /\ framesToFrameRange [7; 9] true 4 = (Ok "0007,0009", [7; 9]).
Proof. repeat split; vm_compute; reflexivity. Qed.

(** *** Parsing *)

(** C2.  A staggered-fill token [start-end:chunk] with a positive chunk
    parses to the first occurrences of the progressions of strides
    [chunk, ..., 1] taken in that order, that is to their union; the list
    of any parsed expression is the list of first occurrences over the
    values of its tokens, left to right, each in its natural order; and
    "1-100:4" has the ordered values of "1-100x4,1-100x3,1-100x2,1-100". *)
Theorem C2_staggered_fill_and_first_occurrence_order :
  (forall start end_ chunk : Z, 0 < chunk -> start <= end_ ->
     exists fs,
       FrameSet.__init__
         (Py.str start +:+ "-" +:+ Py.str end_ +:+ ":" +:+ Py.str chunk) = Ok fs
       /\ FrameSet.__list fs
          = spec_first_occurrences
              (concat (spec_progression start end_ <$> spec_strides chunk))
       /\ (forall x, x ∈ FrameSet.__list fs <->
             exists k, 1 <= k <= chunk /\ x ∈ spec_progression start end_ k))
  /\ (forall (frange : string) (fs : FrameSet.t),
        FrameSet.__init__ frange = Ok fs ->
        exists toks,
          Forall2 (fun part tok => spec_token part = Some tok)
            (Py.split "," frange) toks
          /\ FrameSet.__list fs
             = spec_first_occurrences (concat (spec_token_values <$> toks)))
  /\ (exists fs1 fs2,
        FrameSet.__init__ "1-100:4" = Ok fs1
        /\ FrameSet.__init__ "1-100x4,1-100x3,1-100x2,1-100" = Ok fs2
        /\ FrameSet.__list fs1 = FrameSet.__list fs2).
Proof.
  split; [|split].
  - intros start end_ chunk Hchunk _.
    destruct (init_fill start end_ chunk Hchunk) as (fs & Hfs & Hl).
    exists fs. split; [done|]. split; [done|].
    intros x. rewrite Hl. apply elem_of_fill.
  - apply init_tokens.
  - do 2 eexists. split; [vm_compute; reflexivity|].
    split; [vm_compute; reflexivity|]. vm_compute. reflexivity.
Qed.

(** The token "1-10:3": strides 3, 2, 1. *)
Lemma C2_witness :
  exists fs, FrameSet.__init__ "1-10:3" = Ok fs
    /\ FrameSet.__list fs = [1; 4; 7; 10; 3; 5; 9; 2; 6; 8].
Proof.
  destruct (proj1 C2_staggered_fill_and_first_occurrence_order 1 10 3)
    as (fs & Hfs & Hl & _); [lia | lia |].
  exists fs. split; [exact Hfs|]. rewrite Hl. vm_compute. reflexivity.
Defined.

(** C4 (code defect).  A zero chunk raises no [ParseException]: the
    exception object is built and dropped.  "1-10x0" and "1-10y0" end in
    the [ValueError] of [xrange], and "1-10:0" returns a [FrameSet], an
    empty one. *)
Theorem C4_zero_chunk_is_not_a_parse_error :
  FrameSet.__init__ "1-10x0" = Raise ValueError
  /\ FrameSet.__init__ "1-10y0" = Raise ValueError
  /\ FrameSet.__init__ "1-10:0"
     = Ok {| FrameSet.__frange := "1-10:0"; FrameSet.__set := ∅;
             FrameSet.__list := [] |}.
Proof. repeat split; vm_compute; reflexivity. Qed.

(** C6.  In every constructed [FrameSet] the set and the list have the
    same number of elements and the list has no repetition. *)
Theorem C6_set_and_list_have_equal_size (frange : string) (fs : FrameSet.t) :
  FrameSet.__init__ frange = Ok fs ->
  size (FrameSet.__set fs) = length (FrameSet.__list fs)
  /\ NoDup (FrameSet.__list fs)
  /\ (forall x, x ∈ FrameSet.__set fs <-> x ∈ FrameSet.__list fs).
Proof.
  intros [Hwf _]%init_wf. split; [by apply wf_size|].
  destruct Hwf as [Hnd Hset]. split; [done|].
  intros x. by rewrite Hset, elem_of_list_to_set.
Qed.

(** The expression "1-5,3-7" of overlapping tokens: 7 values, not 10. *)
Lemma C6_witness :
  exists fs, FrameSet.__init__ "1-5,3-7" = Ok fs
    /\ length (FrameSet.__list fs) = 7%nat
    /\ size (FrameSet.__set fs) = length (FrameSet.__list fs).
Proof.
  eexists. split; [vm_compute; reflexivity|]. split; [reflexivity|].
  apply (C6_set_and_list_have_equal_size "1-5,3-7"). vm_compute. reflexivity.
Defined.

(** *** Inversion: the inverted range *)

(** C3 (code defect).  The set of "1,5,7" has the gaps 2, 3, 4 and 6; its
    inverted range is "2-4", which leaves out the gap between 5 and 7: the
    compaction drops the run that starts on the last gap value. *)
Theorem C3_inverted_range_misses_last_gap :
  exists fs gaps,
    FrameSet.__init__ "1,5,7" = Ok fs
    /\ spec_gaps (Py.sorted (elements (FrameSet.__set fs))) = [2; 3; 4; 6]
    /\ FrameSet.invertedFrameRange fs 0 = Ok "2-4"
    /\ FrameSet.__init__ "2-4" = Ok gaps
    /\ FrameSet.__list gaps = [2; 3; 4].
Proof.
  do 2 eexists. split; [vm_compute; reflexivity|].
  split; [vm_compute; reflexivity|]. split; [vm_compute; reflexivity|].
  split; [vm_compute; reflexivity|]. reflexivity.
Qed.

(** *** Queries and mutation *)

(** [normalize] leaves the set and the expression of [self] alone and
    sorts its list, unless the list has exactly one element. *)
Lemma normalize_self self :
  snd (FrameSet.normalize self)
  = {| FrameSet.__frange := FrameSet.__frange self;
       FrameSet.__set := FrameSet.__set self;
       FrameSet.__list :=
         if (length (FrameSet.__list self) =? 1)%nat then FrameSet.__list self
         else Py.sorted (FrameSet.__list self) |}.
Proof.
  unfold FrameSet.normalize, framesToFrameRange.
  by destruct (length (FrameSet.__list self) =? 1)%nat.
Qed.

(** C5 (code defect).  [normalize] changes the [FrameSet] it is called on:
    the list of "5,1,3" is [5, 1, 3] before the call and [1, 3, 5] after
    it, so that [start], [end], [frame] and [index] answer differently. *)
Theorem C5_normalize_sorts_the_list_of_self :
  exists fs,
    FrameSet.__init__ "5,1,3" = Ok fs
    /\ FrameSet.__list fs = [5; 1; 3]
    /\ FrameSet.start fs = Ok 5
    /\ FrameSet.index fs 5 = Ok 0
    /\ FrameSet.__list (snd (FrameSet.normalize fs)) = [1; 3; 5]
    /\ FrameSet.start (snd (FrameSet.normalize fs)) = Ok 1
    /\ FrameSet.index (snd (FrameSet.normalize fs)) 5 = Ok 2.
Proof.
  eexists. split; [vm_compute; reflexivity|].
  repeat split; vm_compute; reflexivity.
Qed.

(** *** File sequences *)

Lemma frame_int self n b e :
  FileSequence.__basename self = Some b -> FileSequence.__ext self = Some e ->
  FileSequence.frame self (VInt n)
  = Ok (FileSequence.__dir self +:+ b
          +:+ Py.zfill (Py.str n) (FileSequence.__zfill self) +:+ e).
Proof.
  intros Hb He. unfold FileSequence.frame. simpl. rewrite Hb, He. simpl.
  by rewrite sapp_nil_r.
Qed.

Lemma frame_token self s b e :
  Py.int_of_string s = Raise ValueError ->
  FileSequence.__basename self = Some b -> FileSequence.__ext self = Some e ->
  FileSequence.frame self (VStr s) = Ok (FileSequence.__dir self +:+ b +:+ s +:+ e).
Proof.
  intros Hs Hb He. unfold FileSequence.frame. simpl. rewrite Hs, Hb, He. simpl.
  by rewrite sapp_nil_r.
Qed.

(** C9.  For the sequence "/path/to/file.1-5#.exr", [frame(3)] is
    "/path/to/file.0003.exr" and [frame("#")] is "/path/to/file.#.exr". *)
Theorem C9_frame_pads_integers_and_passes_tokens :
  exists seq,
    FileSequence.__init__ "/path/to/file.1-5#.exr" = Ok seq
    /\ FileSequence.zfill seq = 4%nat
    /\ FileSequence.frame seq (VInt 3) = Ok "/path/to/file.0003.exr"
    /\ FileSequence.frame seq (VStr "#") = Ok "/path/to/file.#.exr".
Proof.
  eexists. split; [vm_compute; reflexivity|].
  repeat split; vm_compute; reflexivity.
Qed.

(** Without a frame set, the queries that go through it raise
    [AttributeError] or [TypeError]. *)
Lemma no_frameSet_errors self :
  FileSequence.__frameSet self = None ->
  FileSequence.start self = Raise AttributeError
  /\ FileSequence.end_ self = Raise AttributeError
  /\ FileSequence.frameRange self = Raise AttributeError
  /\ FileSequence.invertedFrameRange self = Raise AttributeError
  /\ (forall idx, FileSequence.index self idx = Raise TypeError)
  /\ FileSequence.__iter__ self = Raise TypeError.
Proof.
  intros H.
  unfold FileSequence.start, FileSequence.end_, FileSequence.frameRange,
    FileSequence.invertedFrameRange, FileSequence.on_frameSet,
    FileSequence.index, FileSequence.__iter__.
  by rewrite H.
Qed.

Lemma int_of_string_raises s e :
  Py.int_of_string s = Raise e -> e = ValueError.
Proof.
  unfold Py.int_of_string.
  repeat (case_match; try discriminate); congruence.
Qed.

(** Without an extension, [frame] raises [TypeError] for every argument. *)
Lemma frame_without_ext self v :
  FileSequence.__ext self = None -> FileSequence.frame self v = Raise TypeError.
Proof.
  intros He. unfold FileSequence.frame. rewrite He.
  destruct v as [|n|s]; simpl; [done | by destruct (FileSequence.__basename self) |].
  destruct (Py.int_of_string s) as [n|e] eqn:E; simpl.
  - by destruct (FileSequence.__basename self).
  - apply int_of_string_raises in E as ->. simpl.
    by destruct (FileSequence.__basename self).
Qed.

Example no_range_with_extension :
  exists seq,
    FileSequence.__init__ "/path/to/file.exr" = Ok seq
    /\ FileSequence.frameSet seq = None
    /\ FileSequence.frame seq (VInt 3) = Ok "/path/to/file3.exr"
    /\ FileSequence.__str__ seq = Ok "/path/to/file.exr".
Proof.
  eexists. split; [vm_compute; reflexivity|].
  repeat split; vm_compute; reflexivity.
Qed.

(** C10 (code defect).  The descriptor "/path/to/file" has no frame range
    and parses, with no frame set; its extension is [None], not the empty
    string, and [frame] and the string rendering raise [TypeError]. *)
Theorem C10_no_extension_breaks_frame_and_str :
  exists seq,
    FileSequence.__init__ "/path/to/file" = Ok seq
    /\ FileSequence.frameSet seq = None
    /\ FileSequence.extension seq = None
    /\ FileSequence.frame seq (VInt 3) = Raise TypeError
    /\ FileSequence.frame seq (VStr "#") = Raise TypeError
    /\ FileSequence.__str__ seq = Raise TypeError.
Proof.
  eexists. split; [vm_compute; reflexivity|].
  repeat split; vm_compute; reflexivity.
Qed.


(** ** Further properties *)

(** *** Queries of a [FrameSet] *)

Lemma getitem_Ok {A} (l : list A) i x :
  Py.getitem l i = Ok x <->
  (- Z.of_nat (length l) <= i < Z.of_nat (length l))
  /\ l !! Z.to_nat (if i <? 0 then i + Z.of_nat (length l) else i) = Some x.
Proof.
  unfold Py.getitem.
  set (j := if i <? 0 then i + Z.of_nat (length l) else i).
  assert (Hj : (0 <= j < Z.of_nat (length l))
               <-> (- Z.of_nat (length l) <= i < Z.of_nat (length l))).
  { unfold j. destruct (Z.ltb_spec i 0); lia. }
  destruct (Z.leb_spec 0 j), (Z.ltb_spec j (Z.of_nat (length l))); simpl.
  - destruct (l !! Z.to_nat j) as [y|] eqn:E.
    + split; [intros [= ->]; split; [lia|done] | intros [_ [= ->]]; done].
    + apply lookup_ge_None in E. lia.
  - split; [done|]. intros [? _]. lia.
  - split; [done|]. intros [? _]. lia.
  - split; [done|]. intros [? _]. lia.
Qed.

Lemma getitem_Raise {A} (l : list A) i e :
  Py.getitem l i = Raise e ->
  e = IndexError /\ ~ (- Z.of_nat (length l) <= i < Z.of_nat (length l)).
Proof.
  intros H. destruct (decide (- Z.of_nat (length l) <= i < Z.of_nat (length l)))
    as [Hin|Hout].
  - exfalso. unfold Py.getitem in H.
    set (j := if i <? 0 then i + Z.of_nat (length l) else i) in *.
    assert (0 <= j < Z.of_nat (length l)) as [? ?]
      by (unfold j; destruct (Z.ltb_spec i 0); lia).
    destruct (Z.leb_spec 0 j), (Z.ltb_spec j (Z.of_nat (length l))); try lia.
    simpl in H. destruct (l !! Z.to_nat j) eqn:E; [done|].
    apply lookup_ge_None in E. lia.
  - split; [|done]. unfold Py.getitem in H.
    repeat (case_match; try congruence).
Qed.

Lemma list_index_Some x (l : list Z) i :
  FrameSet.list_index x l = Some i ->
  0 <= i < Z.of_nat (length l) /\ l !! Z.to_nat i = Some x
  /\ forall j, (j < Z.to_nat i)%nat -> l !! j <> Some x.
Proof.
  revert i. induction l as [|y l IH]; intros i; simpl; [done|].
  destruct (Z.eqb_spec y x) as [->|Hne].
  - intros [= <-]. split; [lia|]. split; [done|]. intros j Hj. simpl in Hj. lia.
  - destruct (FrameSet.list_index x l) as [i'|] eqn:E; [|done].
    intros [= <-]. destruct (IH i' eq_refl) as (Hi & Hl & Hfirst).
    split; [lia|]. replace (Z.to_nat (Z.succ i')) with (S (Z.to_nat i')) by lia.
    split; [done|]. intros [|j] Hj; simpl; [congruence|]. apply Hfirst. lia.
Qed.

Lemma list_index_None x (l : list Z) :
  FrameSet.list_index x l = None <-> x ∉ l.
Proof.
  induction l as [|y l IH]; simpl.
  - split; [intros _; apply not_elem_of_nil | done].
  - rewrite not_elem_of_cons. destruct (Z.eqb_spec y x) as [->|Hne].
    + split; [done | intros [? _]; done].
    + destruct (FrameSet.list_index x l) as [i'|]; simpl.
      * split; [done|]. intros [_ Hx]. by apply IH in Hx.
      * split; [|done]. intros _. split; [congruence|]. by apply IH.
Qed.

(** X1.  In a constructed [FrameSet], [index] and [frame] are inverse:
    the index of a frame is a position in the list where [frame] gives the
    frame back, and the frame at a position, counted from either end, has
    that position as its index. *)
Theorem index_frame_inverse (frange : string) (fs : FrameSet.t) (x i : Z) :
  FrameSet.__init__ frange = Ok fs ->
  (FrameSet.index fs x = Ok i ->
     0 <= i < FrameSet.__len__ fs /\ FrameSet.frame fs i = Ok x)
  /\ (FrameSet.frame fs i = Ok x ->
        FrameSet.index fs x = Ok (if i <? 0 then i + FrameSet.__len__ fs else i)).
Proof.
  intros [[Hnd _] _]%init_wf. unfold FrameSet.index, FrameSet.frame, FrameSet.__len__.
  split.
  - destruct (FrameSet.list_index x (FrameSet.__list fs)) as [i'|] eqn:E; [|done].
    intros [= <-]. apply list_index_Some in E as (Hi & Hl & _).
    split; [done|]. apply getitem_Ok. split; [lia|].
    by destruct (Z.ltb_spec i' 0); [lia|].
  - intros [Hi Hl]%getitem_Ok.
    set (j := if i <? 0 then i + Z.of_nat (length (FrameSet.__list fs)) else i) in *.
    assert (0 <= j) by (unfold j; destruct (Z.ltb_spec i 0); lia).
    destruct (FrameSet.list_index x (FrameSet.__list fs)) as [i'|] eqn:E.
    + apply list_index_Some in E as (Hi' & Hl' & _). f_equal.
      pose proof (NoDup_lookup _ _ _ _ Hnd Hl Hl'). lia.
    + apply list_index_None in E. exfalso. apply E.
      by eapply list_elem_of_lookup_2.
Qed.

Lemma index_frame_inverse_witness :
  exists fs, FrameSet.__init__ "1-10:3" = Ok fs
    /\ FrameSet.frame fs 4 = Ok 3 /\ FrameSet.index fs 8 = Ok 9.
Proof.
  eexists. split; [vm_compute; reflexivity|]. split.
  - refine (proj2 (proj1 (index_frame_inverse "1-10:3" _ 3 4 _) _));
      vm_compute; reflexivity.
  - refine (proj2 (index_frame_inverse "1-10:3" _ 8 (-1) _) _);
      vm_compute; reflexivity.
Defined.

(** X2.  In a constructed [FrameSet], [index] raises [ValueError] exactly
    for the frames that [hasFrame] denies, and returns a position for the
    others. *)
Theorem index_raises_iff_not_hasFrame (frange : string) (fs : FrameSet.t) (x : Z) :
  FrameSet.__init__ frange = Ok fs ->
  (FrameSet.hasFrame fs x = false <-> FrameSet.index fs x = Raise ValueError)
  /\ (FrameSet.hasFrame fs x = true <-> exists i, FrameSet.index fs x = Ok i).
Proof.
  intros [[_ Hset] _]%init_wf. unfold FrameSet.hasFrame, FrameSet.index.
  rewrite bool_decide_eq_false, bool_decide_eq_true, Hset, elem_of_list_to_set.
  destruct (FrameSet.list_index x (FrameSet.__list fs)) as [i|] eqn:E.
  - assert (x ∈ FrameSet.__list fs).
    { apply list_index_Some in E as (_ & Hl & _). by eapply list_elem_of_lookup_2. }
    split; [split; [done|discriminate] | split; [eauto | done]].
  - apply list_index_None in E.
    split; [done|]. split; [done|]. by intros [? ?].
Qed.

Lemma index_raises_iff_not_hasFrame_witness :
  exists fs, FrameSet.__init__ "1-10x2" = Ok fs
    /\ FrameSet.index fs 4 = Raise ValueError.
Proof.
  eexists. split; [vm_compute; reflexivity|].
  refine (proj1 (proj1 (index_raises_iff_not_hasFrame "1-10x2" _ 4 _)) _);
    vm_compute; reflexivity.
Defined.

(** X3.  [frame(idx)] answers exactly for [-len <= idx < len] and raises
    [IndexError] otherwise; [start] and [end] raise [IndexError] exactly
    on an empty [FrameSet]. *)
Theorem frame_bounds (fs : FrameSet.t) (idx : Z) :
  ((exists x, FrameSet.frame fs idx = Ok x)
     <-> - FrameSet.__len__ fs <= idx < FrameSet.__len__ fs)
  /\ (FrameSet.frame fs idx = Raise IndexError
        <-> ~ (- FrameSet.__len__ fs <= idx < FrameSet.__len__ fs))
  /\ (FrameSet.start fs = Raise IndexError <-> FrameSet.__list fs = [])
  /\ (FrameSet.end_ fs = Raise IndexError <-> FrameSet.__list fs = []).
Proof.
  unfold FrameSet.frame, FrameSet.start, FrameSet.end_, FrameSet.__len__.
  assert (Hx : forall i, (exists x, Py.getitem (FrameSet.__list fs) i = Ok x)
     <-> - Z.of_nat (length (FrameSet.__list fs)) <= i
         < Z.of_nat (length (FrameSet.__list fs))).
  { intros i. split.
    - intros [x Hx]. by apply getitem_Ok in Hx as [? _].
    - intros Hi. destruct (Py.getitem (FrameSet.__list fs) i) as [x|e] eqn:E; [eauto|].
      apply getitem_Raise in E as [_ ?]. done. }
  assert (He : forall i, Py.getitem (FrameSet.__list fs) i = Raise IndexError
     <-> ~ (- Z.of_nat (length (FrameSet.__list fs)) <= i
            < Z.of_nat (length (FrameSet.__list fs)))).
  { intros i. split.
    - by intros [_ ?]%getitem_Raise.
    - intros Hi. destruct (Py.getitem (FrameSet.__list fs) i) as [x|e] eqn:E.
      + exfalso. apply Hi, Hx. eauto.
      + by apply getitem_Raise in E as [-> _]. }
  split; [apply Hx|]. split; [apply He|].
  rewrite !He. destruct (FrameSet.__list fs); simpl; split; split; try done; lia.
Qed.


(** *** [framesToFrameRange] and the inverted range never fail on frames *)

Lemma sorted_length l : length (Py.sorted l) = length l.
Proof. unfold Py.sorted. by rewrite merge_sort_Permutation. Qed.

Lemma framesToFrameRange_Ok (frames : list Z) (sort : bool) (zfill : nat) :
  frames <> [] -> exists s, fst (framesToFrameRange frames sort zfill) = Ok s.
Proof.
  intros Hne. unfold framesToFrameRange.
  destruct (length frames =? 1)%nat eqn:E1.
  - destruct frames as [|n [|? ?]]; try done. by exists (Py.str n).
  - set (l := if sort then Py.sorted frames else frames).
    assert (Hlen : length l = length frames)
      by (unfold l; destruct sort; [apply sorted_length | done]).
    destruct l as [|x rest] eqn:El.
    { destruct frames; [done | simpl in Hlen; lia]. }
    cbn [fst]. change (Py.getitem (x :: rest) 0) with (Ok x). rewrite bind_ok.
    unfold enumerate. cbn [length seq].
    change (zip (0%nat :: seq 1 (length rest)) (x :: rest))
      with ((0%nat, x) :: zip (seq 1 (length rest)) rest).
    cbn [compact_loop]. rewrite Z.eqb_refl.
    pose proof (compact_loop_tail zfill [] x rest x 1 []) as Hloop.
    cbn [app length] in Hloop. rewrite Hloop, bind_ok. eauto.
Qed.

Lemma invertedFrameRange_Ok (self : FrameSet.t) (zfill : nat) :
  exists s, FrameSet.invertedFrameRange self zfill = Ok s.
Proof.
  rewrite invertedFrameRange_gaps.
  destruct (spec_gaps _) as [|g gaps] eqn:E; [eauto|].
  by apply framesToFrameRange_Ok.
Qed.



(** X6.  After [normalize()] the [FrameSet] it was called on has the same
    set and expression, and its list holds the same frames in ascending
    order. *)
Theorem normalize_leaves_self_sorted (frange : string) (fs : FrameSet.t) :
  FrameSet.__init__ frange = Ok fs ->
  let self' := snd (FrameSet.normalize fs) in
  FrameSet.__set self' = FrameSet.__set fs
  /\ FrameSet.__frange self' = frange
  /\ FrameSet.__list self' ≡ₚ FrameSet.__list fs
  /\ StronglySorted Z.lt (FrameSet.__list self').
Proof.
  intros [[Hnd Hset] Hf]%init_wf. cbv zeta. rewrite normalize_self. simpl.
  split; [done|]. split; [done|].
  destruct (length (FrameSet.__list fs) =? 1)%nat eqn:E.
  - split; [done|]. destruct (FrameSet.__list fs) as [|x [|? ?]]; try done.
    repeat constructor.
  - split; [apply merge_sort_Permutation|].
    assert (Hs : StronglySorted Z.le (Py.sorted (FrameSet.__list fs)))
      by (apply StronglySorted_merge_sort; apply _).
    assert (Hn : NoDup (Py.sorted (FrameSet.__list fs)))
      by (unfold Py.sorted; by rewrite merge_sort_Permutation).
    induction Hs as [|x l Hl IH Hx]; constructor.
    + apply IH. by apply NoDup_cons in Hn as [_ ?].
    + apply NoDup_cons in Hn as [Hxl _]. rewrite Forall_forall in *.
      intros y Hy. specialize (Hx y Hy). assert (x <> y) by (by intros ->). lia.
Qed.

Lemma normalize_leaves_self_sorted_witness :
  exists fs, FrameSet.__init__ "1-10:3" = Ok fs
    /\ FrameSet.__list fs = [1; 4; 7; 10; 3; 5; 9; 2; 6; 8]
    /\ StronglySorted Z.lt (FrameSet.__list (snd (FrameSet.normalize fs))).
Proof.
  eexists. split; [vm_compute; reflexivity|]. split; [reflexivity|].
  refine (proj2 (proj2 (proj2 (normalize_leaves_self_sorted "1-10:3" _ _)))).
  vm_compute. reflexivity.
Defined.

(** *** The three token patterns, read declaratively *)

Lemma matches_plus_digit w rest c c' :
  matches (Plus digit) w rest c c' -> digits_text w /\ c' = c.
Proof.
  unfold Plus. intros H. inv_matches. split; [|done]. sapp. split; [done|].
  cbn [Py.all_chars]. unfold digit in *.
  match goal with Hb : Py.is_digit _ = true |- _ => by rewrite Hb end.
Qed.

Lemma matches_signed_int w rest c c' :
  matches signed_int w rest c c' -> int_text w /\ c' = c.
Proof.
  unfold signed_int. intros H.
  inversion H as [| | | | | |r1 r2 w1 w2 rest' c0 c1 c2 H1 H2| | | | |]; subst.
  clear H. apply matches_plus_digit in H2 as [Hd ->].
  inversion H1 as [| | | | | | | | |r w0 rest0 c0 c3 Hl| |]; subst; clear H1.
  - inversion Hl; subst. split; [|done]. exists w2. split; [done|]. sapp. by right.
  - split; [|done]. exists w2. split; [done|]. sapp. by left.
Qed.

Lemma matches_pattern_range w rest c c' :
  matches pattern_range w rest c c' ->
  exists a b, c' = <[2%nat := Some b]> (<[1%nat := Some a]> c)
    /\ int_text a /\ int_text b /\ w = a +:+ "-" +:+ b /\ at_end rest = true.
Proof.
  unfold pattern_range. intros H.
  repeat match goal with
  | H : matches (Cat _ _) _ _ _ _ |- _ => inversion H; clear H; subst
  | H : matches (Grp _ _) _ _ _ _ |- _ => inversion H; clear H; subst
  | H : matches (Lit _) _ _ _ _ |- _ => inversion H; clear H; subst
  | H : matches Caret _ _ _ _ |- _ => inversion H; clear H; subst
  | H : matches Dollar _ _ _ _ |- _ => inversion H; clear H; subst
  | H : matches signed_int _ _ _ _ |- _ => apply matches_signed_int in H as [? ->]
  end.
  do 2 eexists. split; [reflexivity|]. do 2 (split; [assumption|]).
  split; [|assumption]. sapp. by rewrite !sapp_nil_r, sapp_assoc.
Qed.

Lemma matches_pattern_single w rest c c' :
  matches pattern_single w rest c c' ->
  int_text w /\ c' = <[1%nat := Some w]> c /\ at_end rest = true.
Proof.
  unfold pattern_single. intros H.
  repeat match goal with
  | H : matches (Cat _ _) _ _ _ _ |- _ => inversion H; clear H; subst
  | H : matches (Grp _ _) _ _ _ _ |- _ => inversion H; clear H; subst
  | H : matches Caret _ _ _ _ |- _ => inversion H; clear H; subst
  | H : matches Dollar _ _ _ _ |- _ => inversion H; clear H; subst
  | H : matches signed_int _ _ _ _ |- _ => apply matches_signed_int in H as [? ->]
  end.
  sapp. rewrite !sapp_nil_r. done.
Qed.

Lemma matches_pattern_stepped w rest c c' :
  matches pattern_stepped w rest c c' ->
  exists a b md ch,
    c' = <[4%nat := Some ch]> (<[3%nat := Some (String md "")]>
           (<[2%nat := Some b]> (<[1%nat := Some a]> c)))
    /\ int_text a /\ int_text b /\ one_of ":xy" md = true
    /\ digits_text ch /\ w = a +:+ "-" +:+ b +:+ String md ch
    /\ at_end rest = true.
Proof.
  unfold pattern_stepped. intros H.
  repeat match goal with
  | H : matches (Cat _ _) _ _ _ _ |- _ => inversion H; clear H; subst
  | H : matches (Grp _ _) _ _ _ _ |- _ => inversion H; clear H; subst
  | H : matches (Lit _) _ _ _ _ |- _ => inversion H; clear H; subst
  | H : matches (Class _) _ _ _ _ |- _ => inversion H; clear H; subst
  | H : matches Caret _ _ _ _ |- _ => inversion H; clear H; subst
  | H : matches Dollar _ _ _ _ |- _ => inversion H; clear H; subst
  | H : matches signed_int _ _ _ _ |- _ => apply matches_signed_int in H as [? ->]
  | H : matches (Plus digit) _ _ _ _ |- _ => apply matches_plus_digit in H as [? ->]
  end.
  do 4 eexists. split; [reflexivity|]. do 4 (split; [assumption|]).
  split; [|assumption]. sapp. rewrite !sapp_nil_r, !sapp_assoc. sapp.
  by rewrite ?sapp_assoc.
Qed.

(** *** Texts that [int] accepts *)

Lemma uint_of_string_digits ds :
  Py.all_chars Py.is_digit ds = true -> exists d, NilEmpty.uint_of_string ds = Some d.
Proof.
  induction ds as [|a ds IH]; cbn [Py.all_chars NilEmpty.uint_of_string]; [eauto|].
  intros [Ha Hd]%andb_true_iff. destruct (IH Hd) as [d ->].
  destruct a as [[] [] [] [] [] [] [] []]; try done; simpl; eauto.
Qed.

Lemma int_of_string_digits_Ok ds :
  digits_text ds -> exists n, Py.int_of_string ds = Ok n /\ 0 <= n.
Proof.
  intros Hds. destruct (uint_of_string_digits ds) as [d Hd]; [apply Hds|].
  rewrite int_of_string_digits, Hd by done. eexists. split; [done|].
  unfold Z.of_uint. lia.
Qed.

Lemma int_of_string_int_text a : int_text a -> exists n, Py.int_of_string a = Ok n.
Proof.
  intros (ds & Hds & [-> | ->]).
  - destruct (int_of_string_digits_Ok ds Hds) as (n & Hn & _). eauto.
  - destruct (uint_of_string_digits ds) as [d Hd]; [apply Hds|].
    rewrite int_of_string_minus_digits, Hd by done. eauto.
Qed.

(** *** The first pattern that matches a part *)

Lemma int_text_head a : int_text a -> exists c s, a = String c s /\ (c = "-"%char \/ Py.is_digit c = true).
Proof.
  intros (ds & [Hne Hd] & [-> | ->]).
  - destruct ds as [|c s]; [done|]. exists c, s. split; [done|]. right.
    cbn [Py.all_chars] in Hd. by apply andb_true_iff in Hd as [? _].
  - eauto.
Qed.

Lemma contains_minus_range a b rest :
  int_text a -> Py.contains "-" (a +:+ "-" +:+ b +:+ rest) = true.
Proof.
  intros _. rewrite contains_app. apply orb_true_iff. right.
  sapp. cbn [Py.contains]. by rewrite Ascii.eqb_refl.
Qed.

(** A text [\-?[0-9]+] does not match [_PATTERNS[0]]. *)
Lemma pattern_range_no_int a rest :
  int_text a -> at_end rest = true -> re_match 2 pattern_range (a +:+ rest) = None.
Proof.
  intros Ha Hrest.
  destruct (re_match 2 pattern_range (a +:+ rest)) as [m|] eqn:E; [|done]. exfalso.
  apply re_match_sound in E as (w & rest' & c' & Heq & Hm & _).
  apply matches_pattern_range in Hm as (a1 & b1 & _ & Ha1 & Hb1 & -> & Hrest').
  destruct Ha as (ds & [Hne Hd] & Ha).
  destruct Ha1 as (ds1 & [Hne1 Hd1] & Ha1).
  assert (Hrd : forall r, at_end r = true -> Py.contains "-" r = false).
  { intros [|x [|y r]]; cbn [at_end Py.contains]; try done.
    intros ->%Ascii.eqb_eq. done. }
  assert (Hm1 : Py.contains "-" (ds +:+ rest) = false).
  { rewrite contains_app, (contains_digits _ _ Hd), (Hrd _ Hrest) by done. done. }
  assert (Hm2 : forall s, Py.contains "-" (ds1 +:+ "-" +:+ s) = true).
  { intros s. rewrite contains_app. apply orb_true_iff. right.
    sapp. cbn [Py.contains]. by rewrite Ascii.eqb_refl. }
  rewrite !sapp_assoc in Heq.
  destruct Ha as [-> | ->], Ha1 as [-> | ->].
  - rewrite Heq in Hm1. by rewrite (Hm2 (b1 +:+ rest')) in Hm1.
  - destruct ds as [|d ds]; [done|]. sapp. injection Heq as -> _.
    cbn [Py.all_chars] in Hd. by apply andb_true_iff in Hd as [? _].
  - destruct ds1 as [|d1 ds1]; [done|]. sapp. injection Heq as <- _.
    cbn [Py.all_chars] in Hd1. by apply andb_true_iff in Hd1 as [? _].
  - rewrite (sapp_cons _ ds), (sapp_cons _ ds1) in Heq.
    injection Heq as Heq. rewrite Heq in Hm1.
    by rewrite (Hm2 (b1 +:+ rest')) in Hm1.
Qed.

Ltac captured :=
  repeat match goal with
  | |- context [substring 0 ?n (?x +:+ ?y)] =>
      replace n with (String.length x) by lia; rewrite substring_prefix
  | |- context [substring 0 ?n ?x] =>
      replace n with (String.length x) by lia; rewrite substring_all
  end.

Lemma pattern_range_match a b :
  int_text a -> int_text b ->
  exists g0, re_match 2 pattern_range (a +:+ "-" +:+ b) = Some [g0; Some a; Some b].
Proof.
  intros Ha Hb. eexists. unfold re_match, pattern_range.
  cbn [run Nat.eqb].
  apply run_signed_int; [done | done |]. sapp. rewrite Ascii.eqb_refl.
  rewrite <- (sapp_nil_r b) at 1.
  apply run_signed_int; [done | done |]. cbn [at_end].
  captured. reflexivity.
Qed.

Lemma pattern_single_match a :
  int_text a ->
  exists g0, re_match 1 pattern_single a = Some [g0; Some a].
Proof.
  intros Ha. eexists. unfold re_match, pattern_single.
  cbn [run Nat.eqb].
  rewrite <- (sapp_nil_r a) at 1.
  apply run_signed_int; [done | done |]. cbn [at_end].
  captured. reflexivity.
Qed.

Lemma first_match_range a b :
  int_text a -> int_text b ->
  first_match _PATTERNS (a +:+ "-" +:+ b) = Some [Some a; Some b].
Proof.
  intros Ha Hb. unfold first_match, _PATTERNS.
  destruct (pattern_range_match a b Ha Hb) as [g0 ->]. done.
Qed.

Lemma first_match_single a :
  int_text a -> first_match _PATTERNS a = Some [Some a].
Proof.
  intros Ha. unfold first_match, _PATTERNS.
  rewrite <- (sapp_nil_r a) at 1. rewrite pattern_range_no_int by done.
  destruct (pattern_single_match a Ha) as [g0 ->]. done.
Qed.

Lemma first_match_stepped a b (md : ascii) ch :
  int_text a -> int_text b -> one_of ":xy" md = true -> digits_text ch ->
  first_match _PATTERNS (a +:+ "-" +:+ b +:+ String md ch)
  = Some [Some a; Some b; Some (String md ""); Some ch].
Proof.
  intros Ha Hb Hmd Hch. unfold first_match, _PATTERNS.
  assert (Hc : Py.contains md (a +:+ "-" +:+ b +:+ String md ch) = true).
  { rewrite !contains_app. cbn [Py.contains]. rewrite Ascii.eqb_refl.
    by rewrite !orb_true_r. }
  assert (Hnl : md <> "010"%char)
    by (apply one_of_modifier in Hmd as [-> | [-> | ->]]; done).
  unfold pattern_range at 1.
  rewrite (no_match_foreign _ _ _ md Hc Hnl)
    by (apply one_of_modifier in Hmd as [-> | [-> | ->]]; done).
  unfold pattern_single at 1.
  rewrite (no_match_foreign _ _ _ md Hc Hnl)
    by (apply one_of_modifier in Hmd as [-> | [-> | ->]]; done).
  destruct (pattern_stepped_match a b md ch) as [g0 ->]; done.
Qed.

(** The groups of the first pattern that matches a part, and the text of
    the part: a line feed may follow the token. *)
Lemma first_match_token part groups :
  first_match _PATTERNS part = Some groups ->
  exists rest, at_end rest = true /\
    ((exists a b, int_text a /\ int_text b
        /\ part = a +:+ "-" +:+ b +:+ rest /\ groups = [Some a; Some b])
     \/ (exists a, int_text a /\ part = a +:+ rest /\ groups = [Some a])
     \/ (exists a b md ch, int_text a /\ int_text b /\ one_of ":xy" md = true
           /\ digits_text ch /\ part = a +:+ "-" +:+ b +:+ String md ch +:+ rest
           /\ groups = [Some a; Some b; Some (String md ""); Some ch])).
Proof.
  unfold first_match, _PATTERNS.
  destruct (re_match 2 pattern_range part) as [m|] eqn:H0.
  { intros [= <-].
    apply re_match_sound in H0 as (w & rest & c' & -> & Hm & ->).
    apply matches_pattern_range in Hm as (a & b & -> & Ha & Hb & -> & Hrest).
    exists rest. split; [done|]. left. exists a, b.
    by rewrite !sapp_assoc. }
  destruct (re_match 1 pattern_single part) as [m|] eqn:H1.
  { intros [= <-].
    apply re_match_sound in H1 as (w & rest & c' & -> & Hm & ->).
    apply matches_pattern_single in Hm as (Ha & -> & Hrest).
    exists rest. split; [done|]. right. left. by exists w. }
  destruct (re_match 4 pattern_stepped part) as [m|] eqn:H2; [|done].
  intros [= <-].
  apply re_match_sound in H2 as (w & rest & c' & -> & Hm & ->).
  apply matches_pattern_stepped in Hm
    as (a & b & md & ch & -> & Ha & Hb & Hmd & Hch & -> & Hrest).
  exists rest. split; [done|]. right. right. exists a, b, md, ch.
  rewrite !sapp_assoc. sapp. by rewrite ?sapp_assoc.
Qed.

(** *** Zero-padded numerals *)

Lemma zeros_digits k : Py.all_chars Py.is_digit (Py.zeros k) = true.
Proof. induction k; simpl; auto. Qed.

Lemma uint_of_string_zeros k ds d :
  NilEmpty.uint_of_string ds = Some d ->
  exists d', NilEmpty.uint_of_string (Py.zeros k +:+ ds) = Some d'
    /\ Z.of_uint d' = Z.of_uint d.
Proof.
  intros Hd. induction k as [|k (d' & IH & Hz)]; cbn [Py.zeros]; sapp; [eauto|].
  cbn [NilEmpty.uint_of_string]. rewrite IH. simpl. eauto.
Qed.

(** The text of [format(n, "0<width>d")]: as [str(n)], with zeros before
    the digits. *)
Lemma format_0d_text (n : Z) (width : nat) :
  exists ds d, digits_text ds
    /\ Py.format_0d n width = (if n <? 0 then String "-" ds else ds)
    /\ NilEmpty.uint_of_string ds = Some d /\ Z.of_uint d = Z.abs n.
Proof.
  destruct (str_text n) as (ds & d & [Hne Hd] & Hs & Hu & Hz).
  unfold Py.format_0d, Py.zfill. rewrite Hs.
  set (k := (width - _)%nat). clearbody k.
  destruct (uint_of_string_zeros k ds d Hu) as (d' & Hu' & Hz').
  exists (Py.zeros k +:+ ds), d'.
  split; [split|].
  - destruct ds; [done|]. destruct k; sapp; done.
  - by rewrite all_chars_app, zeros_digits, Hd.
  - split; [|split; [done|congruence]].
    destruct (n <? 0); [done|].
    destruct ds as [|c ds]; [done|].
    cbn [Py.all_chars] in Hd. apply andb_true_iff in Hd as [Hc _].
    destruct c as [[] [] [] [] [] [] [] []]; done.
Qed.

Lemma format_0d_int_text n width : int_text (Py.format_0d n width).
Proof.
  destruct (format_0d_text n width) as (ds & d & Hds & -> & _).
  exists ds. split; [done|]. destruct (n <? 0); auto.
Qed.

(** [int(format(n, "0<width>d")) == n]. *)
Lemma int_of_string_format_0d n width :
  Py.int_of_string (Py.format_0d n width) = Ok n.
Proof.
  destruct (format_0d_text n width) as (ds & d & Hds & -> & Hu & Hz).
  destruct (Z.ltb_spec n 0) as [Hn|Hn].
  - rewrite int_of_string_minus_digits, Hu by done. f_equal. lia.
  - rewrite int_of_string_digits, Hu by done. f_equal. lia.
Qed.

Lemma format_0d_0 n : Py.format_0d n 0 = Py.str n.
Proof.
  unfold Py.format_0d, Py.zfill. cbn [Nat.sub Py.zeros].
  destruct (Py.str n) as [|c s]; [done|].
  destruct c as [[] [] [] [] [] [] [] []]; done.
Qed.

(** *** One token *)

Ltac getitems :=
  repeat match goal with
  | |- context [Py.getitem ?l ?i] =>
      let r := eval vm_compute in (Py.getitem l i) in
      change (Py.getitem l i) with r
  end.

Lemma match_batches_range a b s e :
  Py.int_of_string a = Ok s -> Py.int_of_string b = Ok e ->
  match_batches [Some a; Some b] = Ok [spec_interval s e].
Proof.
  intros Ha Hb. unfold match_batches. cbn [length Nat.eqb]. getitems.
  rewrite !bind_ok. cbn [FrameSet.int_of_group].
  by rewrite Ha, Hb, !bind_ok, xrange_interval, bind_ok.
Qed.

Lemma match_batches_single a n :
  Py.int_of_string a = Ok n -> match_batches [Some a] = Ok [[n]].
Proof.
  intros Ha. unfold match_batches. cbn [length Nat.eqb]. getitems.
  rewrite !bind_ok. cbn [FrameSet.int_of_group].
  by rewrite Ha, !bind_ok.
Qed.

Lemma match_batches_stepped a b (md : ascii) ch s e k :
  Py.int_of_string a = Ok s -> Py.int_of_string b = Ok e ->
  Py.int_of_string ch = Ok k ->
  match_batches [Some a; Some b; Some (String md ""); Some ch]
  = if Ascii.eqb md "x" then frames ← Py.xrange s (e + 1) k; Ok [frames]
    else if Ascii.eqb md ":" then Ok (spec_progression s e <$> spec_strides k)
    else if Ascii.eqb md "y" then
      not_good ← Py.xrange s (e + 1) k;
      Ok [filter (fun f => f ∉ (list_to_set not_good : gset Z)) (spec_interval s e)]
    else Ok [].
Proof.
  intros Ha Hb Hch. unfold match_batches. cbn [length Nat.eqb]. getitems.
  rewrite !bind_ok. cbn [FrameSet.int_of_group].
  rewrite Ha, Hb, Hch, !bind_ok.
  destruct (Ascii.eqb_spec md "x") as [->|Hx].
  { by rewrite bool_decide_eq_true_2. }
  rewrite bool_decide_eq_false_2 by congruence.
  destruct (Ascii.eqb_spec md ":") as [->|Hc].
  { rewrite bool_decide_eq_true_2 by done.
    by rewrite xrange_strides, bind_ok, fill_batches. }
  rewrite bool_decide_eq_false_2 by congruence.
  destruct (Ascii.eqb_spec md "y") as [->|Hy].
  { rewrite bool_decide_eq_true_2 by done.
    destruct (Py.xrange s (e + 1) k); [|done].
    by rewrite !bind_ok, xrange_interval, bind_ok. }
  by rewrite bool_decide_eq_false_2 by congruence.
Qed.

(** A range text of one part: the outcome of the constructor is that of
    the part's match. *)
Lemma init_one_part part groups :
  Py.contains "," part = false -> first_match _PATTERNS part = Some groups ->
  FrameSet.__init__ part
  = batches ← match_batches groups;
    Ok (foldl FrameSet.__addFrames
          {| FrameSet.__frange := part; FrameSet.__set := ∅; FrameSet.__list := [] |}
          batches).
Proof.
  intros Hc Hm. unfold FrameSet.__init__. rewrite split_no_sep by done.
  cbn [FrameSet.part_loop]. rewrite pattern_loop_first_match, Hm.
  rewrite handleMatch_batches.
  destruct (match_batches groups); [|done]. by rewrite !bind_ok.
Qed.

Lemma init_one_batch part groups frames :
  Py.contains "," part = false -> first_match _PATTERNS part = Some groups ->
  match_batches groups = Ok [frames] ->
  exists fs, FrameSet.__init__ part = Ok fs /\ FrameSet.__list fs = frames
    /\ forall x, FrameSet.hasFrame fs x = true <-> x ∈ frames.
Proof.
  intros Hc Hm Hb. rewrite (init_one_part _ _ Hc Hm), Hb, bind_ok.
  eexists. split; [reflexivity|].
  pose proof (match_batches_NoDup _ _ Hb) as Hnd.
  destruct (foldl_addFrames
    {| FrameSet.__frange := part; FrameSet.__set := ∅; FrameSet.__list := [] |}
    [frames] []) as ([_ Hset] & Hl & _); [apply wf_empty|done|done|].
  apply (proj1 (Forall_singleton _ _)) in Hnd.
  cbn [app concat] in Hl. rewrite app_nil_r, first_occurrences_NoDup in Hl by done.
  split; [done|]. intros x. unfold FrameSet.hasFrame.
  by rewrite bool_decide_eq_true, Hset, elem_of_list_to_set, Hl.
Qed.

Lemma contains_comma_range a b :
  int_text a -> int_text b -> Py.contains "," (a +:+ "-" +:+ b) = false.
Proof.
  intros Ha Hb. rewrite !contains_app. cbn [Py.contains].
  by rewrite !contains_int_text.
Qed.

Lemma contains_comma_stepped a b (md : ascii) ch :
  int_text a -> int_text b -> one_of ":xy" md = true -> digits_text ch ->
  Py.contains "," (a +:+ "-" +:+ b +:+ String md ch) = false.
Proof.
  intros Ha Hb Hmd [_ Hch]. rewrite !contains_app. cbn [Py.contains].
  rewrite !contains_int_text, (contains_digits _ _ Hch) by done.
  by apply one_of_modifier in Hmd as [-> | [-> | ->]].
Qed.

(** X7.  A number, zero-padded or not, parses to the one frame it
    denotes, and a range of two numbers to the integers from the first to
    the second in ascending order, which are none when the second is the
    smaller: such a range is no error. *)
Theorem init_single_and_range (n a b : Z) (w w1 w2 : nat) :
  (exists fs, FrameSet.__init__ (Py.format_0d n w) = Ok fs
     /\ FrameSet.__list fs = [n])
  /\ (exists fs,
        FrameSet.__init__ (Py.format_0d a w1 +:+ "-" +:+ Py.format_0d b w2) = Ok fs
        /\ FrameSet.__list fs = seqZ a (b - a + 1)
        /\ (forall x, FrameSet.hasFrame fs x = true <-> a <= x <= b)
        /\ (b < a -> FrameSet.__list fs = [])).
Proof.
  pose proof (format_0d_int_text n w) as Hn.
  pose proof (format_0d_int_text a w1) as Ha.
  pose proof (format_0d_int_text b w2) as Hb.
  split.
  - destruct (init_one_batch (Py.format_0d n w) [Some (Py.format_0d n w)] [n])
      as (fs & Hfs & Hl & _).
    + by apply contains_int_text.
    + by apply first_match_single.
    + apply match_batches_single, int_of_string_format_0d.
    + eauto.
  - destruct (init_one_batch (Py.format_0d a w1 +:+ "-" +:+ Py.format_0d b w2)
        [Some (Py.format_0d a w1); Some (Py.format_0d b w2)] (spec_interval a b))
      as (fs & Hfs & Hl & Hx).
    + by apply contains_comma_range.
    + by apply first_match_range.
    + apply match_batches_range; apply int_of_string_format_0d.
    + exists fs. split; [done|]. split; [done|]. split.
      * intros x. rewrite Hx. unfold spec_interval. rewrite elem_of_seqZ. lia.
      * intros Hlt. rewrite Hl. unfold spec_interval.
        unfold seqZ. replace (Z.to_nat (b - a + 1)) with 0%nat by lia. done.
Qed.

(** X8.  With a positive chunk, [a-bxk] parses to the frames of the range
    at a multiple of [k] from [a], and [a-byk] to the other frames of the
    range, both in ascending order. *)
Theorem init_step_and_complement (a b k : Z) (w1 w2 : nat) :
  0 < k ->
  (exists fs,
     FrameSet.__init__
       (Py.format_0d a w1 +:+ "-" +:+ Py.format_0d b w2 +:+ "x" +:+ Py.str k) = Ok fs
     /\ StronglySorted Z.lt (FrameSet.__list fs)
     /\ (forall x, x ∈ FrameSet.__list fs <-> a <= x <= b /\ (x - a) `mod` k = 0))
  /\ (exists fs,
        FrameSet.__init__
          (Py.format_0d a w1 +:+ "-" +:+ Py.format_0d b w2 +:+ "y" +:+ Py.str k) = Ok fs
        /\ StronglySorted Z.lt (FrameSet.__list fs)
        /\ (forall x, x ∈ FrameSet.__list fs <-> a <= x <= b /\ (x - a) `mod` k <> 0)).
Proof.
  intros Hk.
  pose proof (format_0d_int_text a w1) as Ha.
  pose proof (format_0d_int_text b w2) as Hb.
  pose proof (str_digits_text k ltac:(lia)) as Hch.
  split.
  - destruct (init_one_batch
        (Py.format_0d a w1 +:+ "-" +:+ Py.format_0d b w2 +:+ String "x" (Py.str k))
        [Some (Py.format_0d a w1); Some (Py.format_0d b w2); Some "x"; Some (Py.str k)]
        (spec_progression a b k)) as (fs & Hfs & Hl & _).
    + by apply contains_comma_stepped.
    + by apply first_match_stepped.
    + rewrite (match_batches_stepped _ _ "x" _ a b k)
        by auto using int_of_string_format_0d, int_of_string_str.
      cbn [Ascii.eqb]. rewrite Ascii.eqb_refl.
      by rewrite xrange_progression, bind_ok.
    + exists fs. split; [done|]. rewrite Hl. split.
      * apply ascending_filter, ascending_seqZ.
      * intros x. rewrite elem_of_spec_progression. tauto.
  - destruct (init_one_batch
        (Py.format_0d a w1 +:+ "-" +:+ Py.format_0d b w2 +:+ String "y" (Py.str k))
        [Some (Py.format_0d a w1); Some (Py.format_0d b w2); Some "y"; Some (Py.str k)]
        (filter (fun f => f ∉ (list_to_set (spec_progression a b k) : gset Z))
           (spec_interval a b))) as (fs & Hfs & Hl & _).
    + by apply contains_comma_stepped.
    + by apply first_match_stepped.
    + rewrite (match_batches_stepped _ _ "y" _ a b k)
        by auto using int_of_string_format_0d, int_of_string_str.
      replace (Ascii.eqb "y" "x") with false by done.
      replace (Ascii.eqb "y" ":") with false by done.
      rewrite Ascii.eqb_refl.
      by rewrite xrange_progression, bind_ok.
    + exists fs. split; [done|]. rewrite Hl. split.
      * apply ascending_filter, ascending_seqZ.
      * intros x. rewrite list_elem_of_filter, elem_of_list_to_set,
          elem_of_spec_progression.
        unfold spec_interval. rewrite elem_of_seqZ. split.
        -- intros [Hn Hx]. split; [lia|]. intros Hm. apply Hn. split; [done|lia].
        -- intros [Hx Hn]. split; [|lia]. by intros [Hm _].
Qed.

Lemma init_step_and_complement_witness :
  exists fs1 fs2,
    FrameSet.__init__ "1-10x3" = Ok fs1 /\ FrameSet.__list fs1 = [1; 4; 7; 10]
    /\ FrameSet.__init__ "1-10y3" = Ok fs2 /\ 5 ∈ FrameSet.__list fs2.
Proof.
  destruct (init_step_and_complement 1 10 3 0 0 ltac:(lia))
    as [(fs1 & H1 & _) (fs2 & H2 & _ & Hx)].
  exists fs1, fs2. split; [exact H1|]. split.
  - vm_compute in H1. injection H1 as <-. reflexivity.
  - split; [exact H2|]. apply Hx. split; [lia|]. vm_compute. discriminate.
Defined.


(** *** The outcomes of the constructor *)

Lemma handleMatch_outcome self part groups :
  first_match _PATTERNS part = Some groups ->
  (zero_chunk_token part /\ FrameSet.__handleMatch self groups = Raise ValueError)
  \/ (~ zero_chunk_token part /\ exists self', FrameSet.__handleMatch self groups = Ok self').
Proof.
  intros Hm. rewrite handleMatch_batches.
  destruct (first_match_token _ _ Hm) as (rest & Hrest & [H | [H | H]]).
  - destruct H as (a & b & Ha & Hb & -> & ->). right. split.
    { intros (? & ? & ? & ? & Hm' & _). congruence. }
    destruct (int_of_string_int_text a Ha) as [s Hs].
    destruct (int_of_string_int_text b Hb) as [e He].
    rewrite (match_batches_range a b s e), bind_ok by done. eauto.
  - destruct H as (a & Ha & -> & ->). right. split.
    { intros (? & ? & ? & ? & Hm' & _). congruence. }
    destruct (int_of_string_int_text a Ha) as [s Hs].
    rewrite (match_batches_single a s), bind_ok by done. eauto.
  - destruct H as (a & b & md & ch & Ha & Hb & Hmd & Hch & -> & ->).
    destruct (int_of_string_int_text a Ha) as [s Hs].
    destruct (int_of_string_int_text b Hb) as [e He].
    destruct (int_of_string_digits_Ok ch Hch) as (k & Hk & Hk0).
    rewrite (match_batches_stepped a b md ch s e k) by done.
    apply one_of_modifier in Hmd as [-> | [-> | ->]].
    + right. split.
      { intros (? & ? & ? & ? & Hm' & [Hx | Hy] & _); congruence. }
      replace (Ascii.eqb ":" "x") with false by done.
      rewrite Ascii.eqb_refl, bind_ok. eauto.
    + rewrite Ascii.eqb_refl.
      destruct (Z.eq_dec k 0) as [-> | Hne].
      * left. split; [|done]. do 4 eexists. split; [exact Hm|]. auto.
      * right. split.
        { intros (? & ? & ? & ? & Hm' & _ & Hz).
          rewrite Hm in Hm'. injection Hm' as _ _ _ <-. congruence. }
        rewrite xrange_progression, !bind_ok by lia. eauto.
    + replace (Ascii.eqb "y" "x") with false by done.
      replace (Ascii.eqb "y" ":") with false by done.
      rewrite Ascii.eqb_refl.
      destruct (Z.eq_dec k 0) as [-> | Hne].
      * left. split; [|done]. do 4 eexists. split; [exact Hm|]. auto.
      * right. split.
        { intros (? & ? & ? & ? & Hm' & _ & Hz).
          rewrite Hm in Hm'. injection Hm' as _ _ _ <-. congruence. }
        rewrite xrange_progression, !bind_ok by lia. eauto.
Qed.

Lemma part_loop_outcome frange parts : forall self,
  match FrameSet.part_loop self frange parts with
  | Ok _ =>
      forall p, p ∈ parts -> first_match _PATTERNS p <> None /\ ~ zero_chunk_token p
  | Raise e =>
      exists pre part post, parts = pre ++ part :: post
        /\ (forall p, p ∈ pre ->
              first_match _PATTERNS p <> None /\ ~ zero_chunk_token p)
        /\ ((first_match _PATTERNS part = None
             /\ e = ParseException
                      ("Failed to parse frame range: " +:+ frange
                         +:+ " on part '" +:+ part +:+ "'"))
            \/ (zero_chunk_token part /\ e = ValueError))
  end.
Proof.
  induction parts as [|part parts IH]; intros self; cbn [FrameSet.part_loop].
  { intros p Hp. by apply elem_of_nil in Hp. }
  rewrite pattern_loop_first_match.
  destruct (first_match _PATTERNS part) as [groups|] eqn:Hm.
  - destruct (handleMatch_outcome self part groups Hm) as [[Hz ->] | [Hz [self' ->]]].
    + rewrite !bind_raise. exists [], part, parts. split; [done|].
      split; [intros p Hp; by apply elem_of_nil in Hp|]. by right.
    + rewrite !bind_ok. specialize (IH self').
      destruct (FrameSet.part_loop self' frange parts) as [fs|e].
      * intros p [-> | Hp]%elem_of_cons; [|by apply IH].
        split; [congruence|done].
      * destruct IH as (pre & bad & post & -> & Hpre & Hbad).
        exists (part :: pre), bad, post. split; [done|]. split; [|done].
        intros p [-> | Hp]%elem_of_cons; [|by apply Hpre].
        split; [congruence|done].
  - rewrite bind_ok. exists [], part, parts. split; [done|].
    split; [intros p Hp; by apply elem_of_nil in Hp|]. by left.
Qed.

(** X9.  The constructor succeeds exactly when every part of the range
    text matches one of the patterns and none is an [x] or [y] token with a
    zero chunk.  Otherwise the first part that breaks this decides the
    exception: [ParseException], with a message that quotes the text and
    the part, for a part that matches no pattern, [ValueError] for a zero
    chunk. *)
Theorem init_outcome (frange : string) :
  let parts := Py.split "," frange in
  ((exists fs, FrameSet.__init__ frange = Ok fs)
     <-> forall p, p ∈ parts ->
           first_match _PATTERNS p <> None /\ ~ zero_chunk_token p)
  /\ (forall e, FrameSet.__init__ frange = Raise e ->
        exists pre part post, parts = pre ++ part :: post
          /\ (forall p, p ∈ pre ->
                first_match _PATTERNS p <> None /\ ~ zero_chunk_token p)
          /\ ((first_match _PATTERNS part = None
               /\ e = ParseException
                        ("Failed to parse frame range: " +:+ frange
                           +:+ " on part '" +:+ part +:+ "'"))
              \/ (zero_chunk_token part /\ e = ValueError))).
Proof.
  intros parts. unfold FrameSet.__init__. fold parts.
  pose proof (part_loop_outcome frange parts
    {| FrameSet.__frange := frange; FrameSet.__set := ∅; FrameSet.__list := [] |}) as H.
  destruct (FrameSet.part_loop _ frange parts) as [fs|e].
  - split; [|done]. split; [done|eauto].
  - split; [|by intros ? [= <-]].
    split; [by intros [? ?]|]. intros Hall. exfalso.
    destruct H as (pre & part & post & Hparts & _ & Hbad).
    destruct (Hall part) as [Hm Hz].
    { rewrite Hparts. apply elem_of_app. right. by left. }
    destruct Hbad as [[? _] | [? _]]; done.
Qed.

(** *** [isFrameRange] and the constructor *)

Lemma existsb_patterns part :
  existsb
    (fun '(n, p) => match re_match n p part with Some _ => true | None => false end)
    _PATTERNS = true
  <-> first_match _PATTERNS part <> None.
Proof.
  unfold _PATTERNS, first_match. cbn [existsb].
  destruct (re_match 2 pattern_range part); [done|].
  destruct (re_match 1 pattern_single part); [done|].
  destruct (re_match 4 pattern_stepped part); [done|].
  cbn [orb]. split; [done|]. by intros [].
Qed.

Lemma isFrameRange_parts frange :
  let text := Py.remove_char "@" (Py.remove_char "#" frange) in
  FrameSet.isFrameRange frange = true
  <-> text <> "" /\ forall p, p ∈ Py.split "," text -> first_match _PATTERNS p <> None.
Proof.
  intros text. unfold FrameSet.isFrameRange. fold text.
  assert (H : forallb
    (fun part => existsb
       (fun '(n, p) => match re_match n p part with Some _ => true | None => false end)
       _PATTERNS) (Py.split "," text) = true
    <-> forall p, p ∈ Py.split "," text -> first_match _PATTERNS p <> None).
  { rewrite forallb_forall. setoid_rewrite <- list_elem_of_In.
    by setoid_rewrite existsb_patterns. }
  destruct text; [|by rewrite H; split; [|intros [_ ?]]].
  split; [done|]. by intros [? _].
Qed.

(** X10.  [isFrameRange] looks at the text without its padding
    characters.  It accepts every text that the constructor accepts, and
    what it accepts the constructor never refuses with [ParseException];
    the constructor may still refuse it with [ValueError], as it does for
    "1-5x0". *)
Theorem isFrameRange_and_constructor (frange : string) :
  let text := Py.remove_char "@" (Py.remove_char "#" frange) in
  ((exists fs, FrameSet.__init__ text = Ok fs) -> FrameSet.isFrameRange frange = true)
  /\ (FrameSet.isFrameRange frange = true ->
        (exists fs, FrameSet.__init__ text = Ok fs)
        \/ FrameSet.__init__ text = Raise ValueError)
  /\ (FrameSet.isFrameRange frange = false ->
        exists e, FrameSet.__init__ text = Raise e)
  /\ FrameSet.isFrameRange "1-5x0" = true
  /\ FrameSet.__init__ "1-5x0" = Raise ValueError.
Proof.
  intros text.
  pose proof (isFrameRange_parts frange) as Hparts. cbv zeta in Hparts.
  fold text in Hparts.
  pose proof (part_loop_outcome text (Py.split "," text)
    {| FrameSet.__frange := text; FrameSet.__set := ∅; FrameSet.__list := [] |}) as H.
  change (FrameSet.part_loop _ text (Py.split "," text))
    with (FrameSet.__init__ text) in H.
  destruct (FrameSet.__init__ text) as [fs|e] eqn:E.
  - assert (Hfr : FrameSet.isFrameRange frange = true).
    { apply Hparts. split; [|intros p Hp; by apply H].
      intros Ht. rewrite Ht in E. vm_compute in E. done. }
    split; [done|]. split; [eauto|]. split; [congruence|].
    split; vm_compute; reflexivity.
  - destruct H as (pre & part & post & Hsplit & _ & Hbad).
    split; [by intros [? ?]|]. split; [|split; [eauto|split; vm_compute; reflexivity]].
    intros [_ Hall]%Hparts. right.
    destruct Hbad as [[Hm _] | [_ ->]]; [|done].
    exfalso. apply (Hall part); [|done].
    rewrite Hsplit. apply elem_of_app. right. by left.
Qed.

(** *** Padding characters *)

Lemma sum_padding_repeat (c : ascii) (w : nat) (k : Z) :
  _PADDING c = Ok w ->
  FileSequence.sum_padding (Py.repeat_char c k) = Ok (Z.to_nat k * w)%nat.
Proof.
  intros Hc. unfold Py.repeat_char.
  induction (Z.to_nat k) as [|n IH]; [done|].
  rewrite Nat.iter_succ. cbn [FileSequence.sum_padding].
  by rewrite Hc, bind_ok, IH, bind_ok.
Qed.

Lemma sum_padding_getPaddingChars (num : Z) :
  FileSequence.sum_padding (getPaddingChars num)
  = Ok (Z.to_nat (if num =? 0 then 1 else num)).
Proof.
  unfold getPaddingChars. destruct (Z.eqb_spec num 0) as [->|Hn]; [done|].
  destruct (Z.eqb_spec (num `mod` 4) 0) as [Hm|Hm].
  - rewrite (sum_padding_repeat "#" 4) by done. f_equal.
    destruct (Z.le_gt_cases 0 num).
    + apply Z.mod_divide in Hm as [q ->]; [|done].
      rewrite Z.div_mul by done. lia.
    + assert (num / 4 < 0) by (apply Z.div_lt_upper_bound; lia). lia.
  - rewrite (sum_padding_repeat "@" 1) by done. f_equal. lia.
Qed.

Lemma sum_padding_outcome (padding : string) :
  match FileSequence.sum_padding padding with
  | Ok _ => Py.all_chars (one_of "#@") padding = true
  | Raise e => Py.all_chars (one_of "#@") padding = false /\ e = KeyError
  end.
Proof.
  induction padding as [|c padding IH]; [done|].
  cbn [FileSequence.sum_padding Py.all_chars]. unfold _PADDING, one_of at 1 3.
  cbn [Py.contains]. rewrite !(Ascii.eqb_sym _ c), orb_false_r.
  destruct (Ascii.eqb c "#"); [|destruct (Ascii.eqb c "@")];
    rewrite ?bind_ok, ?bind_raise; cbn [orb andb]; try done;
    destruct (FileSequence.sum_padding padding); rewrite ?bind_ok, ?bind_raise;
    done.
Qed.

(** X11.  [getPaddingChars] and the padding width agree: the characters
    for a width of [num] make a sequence pad to [num] digits, for every
    [num] from 1 on; for 0 they are "@", which pads to one digit, and for a
    negative number they are none.  [setPadding] with these characters
    succeeds and changes nothing but the padding and its width. *)
Theorem setPadding_getPaddingChars (self : FileSequence.t) (num : Z) :
  let '(r, self') := FileSequence.setPadding self (getPaddingChars num) in
  r = Ok tt
  /\ FileSequence.zfill self' = Z.to_nat (if num =? 0 then 1 else num)
  /\ FileSequence.padding self' = Some (getPaddingChars num)
  /\ FileSequence.dirname self' = FileSequence.dirname self
  /\ FileSequence.basename self' = FileSequence.basename self
  /\ FileSequence.frameSet self' = FileSequence.frameSet self
  /\ FileSequence.extension self' = FileSequence.extension self.
Proof.
  unfold FileSequence.setPadding. rewrite sum_padding_getPaddingChars. done.
Qed.

(** X12.  [setPadding] succeeds exactly for a text of "#" and "@"
    characters.  For another text it raises [KeyError] after the padding
    has been replaced: the sequence then holds the new padding with the
    width of the old one. *)
Theorem setPadding_outcome (self : FileSequence.t) (padding : string) :
  let '(r, self') := FileSequence.setPadding self padding in
  FileSequence.padding self' = Some padding
  /\ (r = Ok tt <-> Py.all_chars (one_of "#@") padding = true)
  /\ (r = Raise KeyError <-> Py.all_chars (one_of "#@") padding = false)
  /\ (r = Ok tt -> FileSequence.sum_padding padding = Ok (FileSequence.zfill self'))
  /\ (r = Raise KeyError -> FileSequence.zfill self' = FileSequence.zfill self).
Proof.
  unfold FileSequence.setPadding.
  pose proof (sum_padding_outcome padding) as H.
  destruct (FileSequence.sum_padding padding) as [z|e].
  - rewrite H. repeat split; done.
  - destruct H as [-> ->]. repeat split; done.
Qed.

(** *** [padFrameRange] *)

Lemma split_cons sep s : exists x l, Py.split sep s = x :: l.
Proof.
  destruct s as [|c s]; cbn [Py.split]; [eauto|].
  destruct (Ascii.eqb c sep); [eauto|]. destruct (Py.split sep s); eauto.
Qed.

Lemma split_app_sep sep a s :
  Py.contains sep a = false ->
  Py.split sep (a +:+ String sep s) = a :: Py.split sep s.
Proof.
  induction a as [|c a IH]; sapp; cbn [Py.split Py.contains].
  - by rewrite Ascii.eqb_refl.
  - intros [Hc Ha]%orb_false_iff. rewrite Hc, (IH Ha). done.
Qed.

Lemma split_contains sep s :
  Py.contains sep s = true -> exists a b l, Py.split sep s = a :: b :: l.
Proof.
  induction s as [|c s IH]; cbn [Py.split Py.contains]; [done|].
  destruct (Ascii.eqb c sep).
  - intros _. destruct (split_cons sep s) as (x & l & ->). eauto.
  - intros Hs. destruct (IH Hs) as (a & b & l & ->). eauto.
Qed.


Lemma padFrameRange_parts frs zfill :
  padFrameRange frs zfill
  = Ok (Py.join "," (padded_part zfill <$> Py.split "," frs)).
Proof.
  unfold padFrameRange. rewrite (mapM_Ok_fmap _ (padded_part zfill)); [done|].
  intros part _. unfold padded_part.
  destruct (Py.contains "-" part) eqn:E; cbn [negb].
  - destruct (split_contains _ _ E) as (a & b & l & ->).
    change 0 with (Z.of_nat 0). change 1 with (Z.of_nat 1).
    by rewrite !getitem_nat.
  - by rewrite split_no_sep.
Qed.

Lemma str_negative a : a < 0 -> Py.str a = String "-" (Py.str (- a)).
Proof. destruct a; try lia. intros _. reflexivity. Qed.

Lemma zfill_empty zfill : Py.zfill "" zfill = Py.zeros zfill.
Proof. unfold Py.zfill. cbn [String.length]. by rewrite Nat.sub_0_r, sapp_nil_r. Qed.

Lemma digits_no_minus ds : digits_text ds -> Py.contains "-" ds = false.
Proof. intros [_ Hd]. by apply contains_digits. Qed.

(** X13.  [padFrameRange] never raises.  A range of two numbers that are
    not negative comes back with both numbers padded.  When the first
    number is negative its sign is taken for the dash of the range: the
    result is a run of zeros, a dash and the padded absolute value, and the
    second number is lost. *)
Theorem padFrameRange_range (zfill : nat) :
  (forall frs, exists r, padFrameRange frs zfill = Ok r)
  /\ (forall a b, 0 <= a -> 0 <= b ->
        padFrameRange (Py.str a +:+ "-" +:+ Py.str b) zfill
        = Ok (Py.format_0d a zfill +:+ "-" +:+ Py.format_0d b zfill))
  /\ (forall a b, a < 0 ->
        padFrameRange (Py.str a +:+ "-" +:+ Py.str b) zfill
        = Ok (Py.zeros zfill +:+ "-" +:+ Py.format_0d (- a) zfill)).
Proof.
  split; [intros frs; rewrite padFrameRange_parts; eauto|].
  split.
  - intros a b Ha Hb. rewrite padFrameRange_parts.
    rewrite split_no_sep
      by (apply contains_comma_range; apply str_int_text).
    cbn [fmap list_fmap Py.join]. unfold padded_part.
    change ("-" +:+ Py.str b) with (String "-" (Py.str b)).
    rewrite split_app_sep by (by apply digits_no_minus, str_digits_text).
    rewrite split_no_sep by (by apply digits_no_minus, str_digits_text).
    done.
  - intros a b Ha. rewrite padFrameRange_parts.
    rewrite split_no_sep
      by (apply contains_comma_range; apply str_int_text).
    cbn [fmap list_fmap Py.join]. unfold padded_part.
    rewrite (str_negative a Ha). sapp. cbn [Py.split]. rewrite Ascii.eqb_refl.
    change (String "-" (Py.str b)) with ("-" +:+ Py.str b).
    change ("-" +:+ Py.str b) with (String "-" (Py.str b)).
    rewrite split_app_sep
      by (apply digits_no_minus, str_digits_text; lia).
    by rewrite zfill_empty.
Qed.

(** *** [FileSequence.format] *)

Lemma getitem_last {A} (l : list A) :
  Py.getitem l (-1) = match last l with Some x => Ok x | None => Raise IndexError end.
Proof.
  destruct (last l) as [x|] eqn:E.
  - apply getitem_Ok. rewrite last_lookup in E.
    assert (length l <> 0)%nat by (intros Hl; destruct l; done).
    split; [lia|]. replace (-1 <? 0) with true by done.
    replace (Z.to_nat (-1 + Z.of_nat (length l))) with (pred (length l)) by lia.
    done.
  - apply last_None in E as ->. done.
Qed.

(** X14.  [format] asks the frame set for its first and last frame before
    it looks at the template: whatever the template is, it raises
    [AttributeError] for a sequence without a frame set and [IndexError]
    for one whose frame set is empty.  Otherwise it calls the template's
    [format] with the nine keys, among them the first frame, the last
    frame, the number of frames, the padded range and the inverted
    range. *)
Theorem format_outcome
    (str_format : string -> list (string * value) -> pyresult string)
    (self : FileSequence.t) (template : string) :
  match FileSequence.__frameSet self with
  | None => FileSequence.format str_format self template = Raise AttributeError
  | Some fs =>
      match FrameSet.__list fs with
      | [] => FileSequence.format str_format self template = Raise IndexError
      | first :: rest =>
          exists range inverted,
            padFrameRange (FrameSet.__frange fs) (FileSequence.zfill self) = Ok range
            /\ FrameSet.invertedFrameRange fs (FileSequence.zfill self) = Ok inverted
            /\ FileSequence.format str_format self template
               = str_format template
                   [("basename", of_group (FileSequence.basename self));
                    ("extension", of_group (FileSequence.extension self));
                    ("start", VInt first);
                    ("end", VInt (List.last rest first));
                    ("length", VInt (Z.of_nat (S (length rest))));
                    ("padding", of_group (FileSequence.padding self));
                    ("range", VStr range);
                    ("inverted", VStr inverted);
                    ("dirname", VStr (FileSequence.dirname self))]
      end
  end.
Proof.
  unfold FileSequence.format, FileSequence.start, FileSequence.end_,
    FileSequence.__len__, FileSequence.frameRange, FileSequence.invertedFrameRange,
    FileSequence.on_frameSet, FileSequence.zfill.
  destruct (FileSequence.__frameSet self) as [fs|]; [|done].
  unfold FrameSet.start, FrameSet.end_, FrameSet.frameRange, FrameSet.__len__.
  destruct (FrameSet.__list fs) as [|first rest] eqn:El; [done|].
  rewrite getitem_last.
  change (Py.getitem (first :: rest) 0) with (Ok first).
  destruct (invertedFrameRange_Ok fs (FileSequence.__zfill self)) as [inverted Hinv].
  eexists _, inverted. split; [apply padFrameRange_parts|]. split; [done|].
  rewrite padFrameRange_parts, Hinv, !bind_ok.
  assert (Hlast : last (first :: rest) = Some (List.last rest first)).
  { clear. revert first. induction rest as [|y rest IH]; intros first; [done|].
    rewrite last_cons_cons, last_cons_default. apply IH. }
  rewrite Hlast, bind_ok. done.
Qed.

(** *** The descriptor of a [FileSequence] *)

Ltac inv_matches_all :=
  repeat match goal with
  | H : matches (Cat _ _) _ _ _ _ |- _ => inversion H; clear H; subst
  | H : matches (Grp _ _) _ _ _ _ |- _ => inversion H; clear H; subst
  | H : matches (Opt _) _ _ _ _ |- _ => inversion H; clear H; subst
  | H : matches (Or _ _) _ _ _ _ |- _ => inversion H; clear H; subst
  | H : matches (Lit _) _ _ _ _ |- _ => inversion H; clear H; subst
  | H : matches (Class _) _ _ _ _ |- _ => inversion H; clear H; subst
  | H : matches (Star _) _ _ _ _ |- _ => inversion H; clear H; subst
  | H : matches (LazyStar _) _ _ _ _ |- _ => inversion H; clear H; subst
  | H : matches Caret _ _ _ _ |- _ => inversion H; clear H; subst
  | H : matches Dollar _ _ _ _ |- _ => inversion H; clear H; subst
  end.

(** A match of [_SEQ_PATTERN]: the text is cut into the directory, the
    base name, the range, the padding and the extension. *)
Lemma matches_seq_pattern w rest c' :
  matches _SEQ_PATTERN w rest (replicate 6 None) c' ->
  at_end rest = true /\
  exists dir (g1 : option string),
    (g1 = None /\ dir = ""
     \/ g1 = Some dir /\ exists d, dir = d +:+ "/" /\ Py.all_chars dot d = true) /\
    ((w = dir /\ c' = [None; g1; None; None; None; None])
     \/ exists base fr pad,
          (base <> "" /\ Py.all_chars dot base = true)
          /\ Py.all_chars (fun c => one_of ":xy-," c || digit c) fr = true
          /\ Py.all_chars (one_of "#@") pad = true /\
          ((w = dir +:+ base +:+ fr +:+ pad
            /\ c' = [None; g1; Some base; Some fr; Some pad; None])
           \/ exists ext,
                (exists e, ext = String "." e /\ Py.all_chars not_dot e = true)
                /\ w = dir +:+ base +:+ fr +:+ pad +:+ ext
                /\ c' = [None; g1; Some base; Some fr; Some pad; Some ext])).
Proof.
  unfold _SEQ_PATTERN, LazyPlus. intros H. inv_matches_all; (split; [done|]).
  all: match goal with
       | H : Py.all_chars dot ?d = true |- context [?d +:+ "/"] =>
           exists (d +:+ "/"), (Some (d +:+ "/")); split; [right; eauto|]
       | |- _ => exists "", None; split; [by left|]
       end.
  all: try (left; sapp; by rewrite ?sapp_nil_r).
  all: right;
    match goal with
    | Hb : dot ?b = true, Hpad : Py.all_chars (one_of "#@") ?pad = true,
      Hfr : Py.all_chars ?p ?fr = true
      |- context [String ?b "" +:+ ?bs] =>
        lazymatch p with
        | dot => fail | not_dot => fail | one_of "#@" => fail | _ => idtac
        end;
        exists (String b bs), fr, pad;
        split; [split; [done | cbn [Py.all_chars]; rewrite Hb; cbn [andb]; assumption]|];
        split; [exact Hfr|]; split; [exact Hpad|]
    end.
  all: first
    [ left; split; [|reflexivity];
      sapp; rewrite !sapp_nil_r, ?sapp_assoc; sapp; rewrite ?sapp_assoc; reflexivity
    | right;
      match goal with
      | He : Py.all_chars not_dot ?e = true |- _ =>
          exists (String "." e); split; [by exists e|]
      end;
      split; [|sapp; by rewrite ?sapp_nil_r];
      sapp; rewrite !sapp_nil_r, ?sapp_assoc; sapp; rewrite ?sapp_assoc; reflexivity ].
Qed.

Ltac groups_of_match :=
  repeat match goal with
  | H : context [group ?m ?i] |- _ =>
      let r := eval cbv [group mjoin option_join option_bind mbind
                         lookup list_lookup insert list_insert] in (group m i) in
      change (group m i) with r in H
  end.

(** The fields of a constructed [FileSequence] are consecutive pieces of
    the descriptor, each of the shape of its group in the pattern. *)
Lemma init_fields sequence self :
  FileSequence.__init__ sequence = Ok self ->
  exists dir base fr pad rest,
    at_end rest = true /\ base <> "" /\ Py.all_chars (one_of "#@") pad = true
    /\ sequence = dir +:+ base +:+ fr +:+ pad
                    +:+ default "" (FileSequence.__ext self) +:+ rest
    /\ FileSequence.__dir self = dir
    /\ FileSequence.__basename self = Some base
    /\ FileSequence.__padding self = Some pad
    /\ FileSequence.sum_padding pad = Ok (FileSequence.__zfill self)
    /\ (fr = "" /\ FileSequence.__frameSet self = None
        \/ fr <> "" /\ exists fs, FrameSet.__init__ fr = Ok fs
                                  /\ FileSequence.__frameSet self = Some fs)
    /\ (dir = "" \/ exists d, dir = d +:+ "/" /\ Py.all_chars dot d = true)
    /\ Py.all_chars dot base = true
    /\ Py.all_chars (fun c => one_of ":xy-," c || digit c) fr = true
    /\ match FileSequence.__ext self with
       | Some ext => exists e, ext = String "." e /\ Py.all_chars not_dot e = true
       | None => True
       end.
Proof.
  unfold FileSequence.__init__.
  destruct (re_match 5 _SEQ_PATTERN sequence) as [m|] eqn:Hm; [|done].
  apply re_match_sound in Hm as (w & rest & c' & -> & Hm & ->).
  apply matches_seq_pattern in Hm as (Hrest & dir & g1 & Hdir & Hm).
  intros H.
  assert (Hd : match g1 with None | Some "" => "" | Some d => d end = dir).
  { destruct Hdir as [[-> ->] | [-> (d & -> & _)]]; [done|]. by destruct d. }
  assert (Hshape : dir = "" \/ exists d, dir = d +:+ "/" /\ Py.all_chars dot d = true).
  { destruct Hdir as [[_ ->] | [_ ?]]; auto. }
  destruct Hm as [[-> ->] | (base & fr & pad & [Hbase Hbdot] & Hfr & Hpad & Hm)].
  { groups_of_match. done. }
  exists dir, base, fr, pad, rest.
  destruct Hm as [[-> ->] | (ext & Hext & -> & ->)]; groups_of_match.
  all: rewrite Hd in H; cbv iota in H.
  all: destruct fr as [|f fr];
    [| destruct (FrameSet.__init__ (String f fr)) as [fs|e] eqn:Hfs; [|done] ];
    rewrite !bind_ok in H;
    destruct (FileSequence.sum_padding pad) as [z|e] eqn:Hz; [|done| |done];
    rewrite bind_ok in H; injection H as <-;
    cbn [FileSequence.__dir FileSequence.__basename FileSequence.__padding
         FileSequence.__frameSet FileSequence.__ext FileSequence.__zfill default];
    rewrite ?sapp_assoc, ?sapp_nil_l.
  all: split_and!; try done.
  all: first [by left | right; split; [done|]; eauto].
Qed.

(** X22.  What the constructor makes of a descriptor: the descriptor is
    the directory, the base name, the range text, the padding and the
    extension one after the other, with at most a line feed left over.
    The directory is empty or ends in "/"; the base name is not empty; the
    padding is made of "#" and "@" and its width counts 4 for each "#" and
    1 for each "@"; the frame set is [None] exactly when the range text is
    empty, and otherwise the [FrameSet] of that text; the extension, when
    there is one, is a "." followed by a text without ".". *)
Theorem init_decomposition (sequence : string) (self : FileSequence.t) :
  FileSequence.__init__ sequence = Ok self ->
  exists base fr pad rest,
    sequence = FileSequence.dirname self +:+ base +:+ fr +:+ pad
                 +:+ default "" (FileSequence.extension self) +:+ rest
    /\ at_end rest = true
    /\ (FileSequence.dirname self = ""
        \/ exists d, FileSequence.dirname self = d +:+ "/")
    /\ FileSequence.basename self = Some base /\ base <> ""
    /\ FileSequence.padding self = Some pad
    /\ Py.all_chars (one_of "#@") pad = true
    /\ FileSequence.sum_padding pad = Ok (FileSequence.zfill self)
    /\ (fr = "" /\ FileSequence.frameSet self = None
        \/ fr <> "" /\ exists fs, FrameSet.__init__ fr = Ok fs
                                  /\ FileSequence.frameSet self = Some fs)
    /\ match FileSequence.extension self with
       | Some ext => exists e, ext = String "." e /\ Py.all_chars not_dot e = true
       | None => True
       end.
Proof.
  unfold FileSequence.dirname, FileSequence.basename, FileSequence.padding,
    FileSequence.zfill, FileSequence.frameSet, FileSequence.extension.
  intros (dir & base & fr & pad & rest & Hrest & Hbase & Hpad & Hseq & <- & Hb & Hp
          & Hz & Hfs & Hdir & _ & _ & Hext)%init_fields.
  exists base, fr, pad, rest. split_and!; try done.
  destruct Hdir as [? | (d & ? & _)]; eauto.
Qed.

Lemma init_decomposition_witness :
  exists self base fr pad rest,
    FileSequence.__init__ "/path/to/file.1-5#.exr" = Ok self
    /\ "/path/to/file.1-5#.exr"
       = FileSequence.dirname self +:+ base +:+ fr +:+ pad
           +:+ default "" (FileSequence.extension self) +:+ rest
    /\ at_end rest = true.
Proof.
  eexists.
  destruct (init_decomposition "/path/to/file.1-5#.exr" _ eq_refl)
    as (base & fr & pad & rest & Hseq & Hrest & _).
  exists base, fr, pad, rest. split; [reflexivity|]. split; assumption.
Defined.

(** X15.  A constructed sequence that has an extension, and whose range,
    if there is one, holds at least one frame, prints as its descriptor:
    [str] returns the text the sequence was built from, less a line feed
    that may end it. *)
Theorem str_round_trip (sequence : string) (self : FileSequence.t) :
  FileSequence.__init__ sequence = Ok self ->
  FileSequence.extension self <> None ->
  (forall fs, FileSequence.frameSet self = Some fs -> FrameSet.__list fs <> []) ->
  exists r rest,
    FileSequence.__str__ self = Ok r /\ sequence = r +:+ rest /\ at_end rest = true.
Proof.
  unfold FileSequence.extension, FileSequence.frameSet.
  intros (dir & base & fr & pad & rest & Hrest & _ & _ & -> & Hdir & Hbase & Hpad
          & _ & Hfs & _)%init_fields Hext Hne.
  destruct (FileSequence.__ext self) as [ext|] eqn:Eext; [|done].
  exists (dir +:+ base +:+ fr +:+ pad +:+ ext), rest.
  split; [|split; [|done]].
  - unfold FileSequence.__str__. rewrite Hdir, Hbase, Hpad, Eext.
    assert (Hfr : match FileSequence.__frameSet self with
                  | Some fs => if FrameSet.__len__ fs =? 0 then "" else FrameSet.__str__ fs
                  | None => ""
                  end = fr).
    { destruct Hfs as [[-> ->] | (_ & fs & Hinit & Hself)]; [done|].
      rewrite Hself. specialize (Hne fs Hself).
      apply init_wf in Hinit as [_ Hfrange]. unfold FrameSet.__len__, FrameSet.__str__.
      destruct (FrameSet.__list fs); [done|]. done. }
    rewrite Hfr. cbn [FileSequence.join_values of_group].
    rewrite !bind_ok. by rewrite sapp_nil_r.
  - cbn [default]. by rewrite !sapp_assoc.
Qed.

Lemma str_round_trip_witness :
  exists self, FileSequence.__init__ "/path/to/file.1-5#.exr" = Ok self
    /\ exists r rest, FileSequence.__str__ self = Ok r
         /\ "/path/to/file.1-5#.exr" = r +:+ rest /\ at_end rest = true.
Proof.
  eexists. split; [vm_compute; reflexivity|].
  eapply (str_round_trip "/path/to/file.1-5#.exr").
  - vm_compute. reflexivity.
  - vm_compute. discriminate.
  - intros fs Hfs. vm_compute in Hfs. injection Hfs as <-. discriminate.
Defined.

Lemma sum_padding_Ok pad :
  Py.all_chars (one_of "#@") pad = true -> exists z, FileSequence.sum_padding pad = Ok z.
Proof.
  intros H. pose proof (sum_padding_outcome pad) as Ho.
  destruct (FileSequence.sum_padding pad); [eauto|].
  destruct Ho as [Ho _]. congruence.
Qed.

Lemma init_raises_parse_or_value frange e :
  FrameSet.__init__ frange = Raise e -> (exists msg, e = ParseException msg) \/ e = ValueError.
Proof.
  unfold FrameSet.__init__. intros H.
  pose proof (part_loop_outcome frange (Py.split "," frange)
    {| FrameSet.__frange := frange; FrameSet.__set := ∅; FrameSet.__list := [] |}) as Ho.
  rewrite H in Ho. destruct Ho as (? & ? & ? & _ & _ & [[_ ->] | [_ ->]]); eauto.
Qed.

(** The exceptions of the constructor of [FileSequence]. *)
Lemma init_raise sequence e :
  FileSequence.__init__ sequence = Raise e ->
  (re_match 5 _SEQ_PATTERN sequence = None
   /\ e = ParseException ("Failed to parse FileSequence: " +:+ sequence))
  \/ (e = TypeError
      /\ exists dir rest, sequence = dir +:+ rest /\ at_end rest = true
           /\ (dir = "" \/ exists d, dir = d +:+ "/" /\ Py.all_chars dot d = true))
  \/ (exists dir base fr tail,
        sequence = dir +:+ base +:+ fr +:+ tail /\ FrameSet.__init__ fr = Raise e).
Proof.
  unfold FileSequence.__init__.
  destruct (re_match 5 _SEQ_PATTERN sequence) as [m|] eqn:Hm.
  2:{ intros [= <-]. by left. }
  apply re_match_sound in Hm as (w & rest & c' & -> & Hm & ->).
  apply matches_seq_pattern in Hm as (Hrest & dir & g1 & Hdir & Hm).
  intros H. right.
  destruct Hm as [[-> ->] | (base & fr & pad & Hbase & _ & Hpad & Hm)].
  { groups_of_match. cbv iota in H. rewrite bind_ok, bind_raise in H.
    left. split; [congruence|].
    exists dir, rest. split; [done|]. split; [done|].
    destruct Hdir as [[_ ->] | [_ ?]]; auto. }
  right. exists dir, base, fr.
  destruct (sum_padding_Ok pad Hpad) as [z Hz].
  destruct Hm as [[-> ->] | (ext & _ & -> & ->)]; groups_of_match; cbv iota in H;
    rewrite Hz in H.
  all: destruct fr as [|f fr];
    [rewrite !bind_ok in H; done
    | destruct (FrameSet.__init__ (String f fr)) as [fs|e'] eqn:Hfs;
      [rewrite !bind_ok in H; done
      | rewrite !bind_raise in H; assert (e' = e) as -> by congruence] ].
  - exists (pad +:+ rest). by rewrite !sapp_assoc.
  - exists (pad +:+ ext +:+ rest). by rewrite !sapp_assoc.
Qed.

(** X16.  The constructor of [FileSequence] raises one of three
    exceptions: [ParseException] with the descriptor in its message when
    the descriptor does not match the pattern, [TypeError] when it matches
    as a directory alone, or the [ParseException] or [ValueError] that the
    constructor of [FrameSet] raises on the range inside it. *)
Theorem FileSequence_init_errors (sequence : string) (e : exn) :
  FileSequence.__init__ sequence = Raise e ->
  (re_match 5 _SEQ_PATTERN sequence = None
   /\ e = ParseException ("Failed to parse FileSequence: " +:+ sequence))
  \/ (e = TypeError
      /\ exists dir rest, sequence = dir +:+ rest /\ at_end rest = true
           /\ (dir = "" \/ exists d, dir = d +:+ "/" /\ Py.all_chars dot d = true))
  \/ (exists dir base fr tail,
        sequence = dir +:+ base +:+ fr +:+ tail /\ FrameSet.__init__ fr = Raise e
        /\ ((exists msg, e = ParseException msg) \/ e = ValueError)).
Proof.
  intros [H | [H | (dir & base & fr & tail & Hs & Hfr)]]%init_raise; [auto..|].
  right. right. exists dir, base, fr, tail. split; [done|]. split; [done|].
  by apply init_raises_parse_or_value in Hfr.
Qed.

Lemma FileSequence_init_errors_witness :
  FileSequence.__init__ "/path/to/file.1-5x0#.exr" = Raise ValueError
  /\ exists dir base fr tail,
       "/path/to/file.1-5x0#.exr" = dir +:+ base +:+ fr +:+ tail
       /\ FrameSet.__init__ fr = Raise ValueError.
Proof.
  assert (H0 : FileSequence.__init__ "/path/to/file.1-5x0#.exr" = Raise ValueError)
    by (vm_compute; reflexivity).
  split; [exact H0|].
  destruct (FileSequence_init_errors _ _ H0)
    as [[_ H] | [[H _] | (dir & base & fr & tail & Hs & Hfr & _)]].
  - discriminate H.
  - discriminate H.
  - exists dir, base, fr, tail. split; assumption.
Defined.

Lemma star_backtrack p ds rest pos k c res :
  Py.all_chars p ds = true ->
  star p rest (pos + String.length ds)%nat k c = Some res ->
  star p (ds +:+ rest) pos k c = Some res.
Proof.
  revert pos. induction ds as [|a ds IH]; intros pos; sapp; cbn [Py.all_chars String.length].
  - intros _. by rewrite Nat.add_0_r.
  - intros [Ha Hd]%andb_true_iff Hk. cbn [star]. rewrite Ha.
    rewrite (IH (S pos) Hd); [done|]. by rewrite <- Nat.add_succ_comm in Hk.
Qed.

Lemma re_match_directory d rest :
  Py.all_chars dot d = true -> at_end rest = true ->
  re_match 5 _SEQ_PATTERN (d +:+ "/" +:+ rest)
  = Some [Some (d +:+ "/"); Some (d +:+ "/"); None; None; None; None].
Proof.
  intros Hd Hrest. unfold re_match, _SEQ_PATTERN.
  cbn [run Nat.eqb].
  erewrite star_backtrack; [cbn [orelse]; reflexivity|done|].
  assert (Hsub : forall r, substring 0 (S (0 + String.length d) - 0) (d +:+ "/" +:+ r)
                          = d +:+ "/").
  { intros r. rewrite <- sapp_assoc.
    replace (S (0 + String.length d) - 0)%nat with (String.length (d +:+ "/"))
      by (rewrite slength_app; simpl; lia).
    apply substring_prefix. }
  sapp. cbn [star]. change (dot "/") with true. cbv iota.
  rewrite Ascii.eqb_refl.
  change (String "/" rest) with ("/" +:+ rest). rewrite Hsub.
  destruct rest as [|x [|y r]]; [| |done].
  - reflexivity.
  - cbn [at_end] in Hrest. apply Ascii.eqb_eq in Hrest as ->. reflexivity.
Qed.


(** X17.  The constructor raises [TypeError] exactly for a descriptor
    that is a directory alone: nothing, or a text that ends in "/", in one
    line, with or without a line feed after it.  The pattern matches such a
    descriptor with no base name and no padding, and the sum over the
    padding fails. *)
Theorem init_TypeError_iff_directory (sequence : string) :
  FileSequence.__init__ sequence = Raise TypeError
  <-> exists dir rest, sequence = dir +:+ rest /\ at_end rest = true
        /\ (dir = "" \/ exists d, dir = d +:+ "/" /\ Py.all_chars dot d = true).
Proof.
  split.
  - intros [[_ H] | [[_ H] | (dir & base & fr & tail & _ & Hfr)]]%init_raise;
      [done|done|].
    by apply init_raises_parse_or_value in Hfr as [[msg H] | H].
  - intros (dir & rest & -> & Hrest & [-> | (d & -> & Hd)]).
    + destruct rest as [|x [|y r]]; [| |done].
      * vm_compute. reflexivity.
      * cbn [at_end] in Hrest. apply Ascii.eqb_eq in Hrest as ->.
        vm_compute. reflexivity.
    + unfold FileSequence.__init__.
      rewrite sapp_assoc, (re_match_directory d rest Hd Hrest). reflexivity.
Qed.

(** *** From the compacted text back to the frames *)

Lemma join_app (sep : string) (l1 l2 : list string) :
  l1 <> [] -> l2 <> [] ->
  Py.join sep (l1 ++ l2) = Py.join sep l1 +:+ sep +:+ Py.join sep l2.
Proof.
  intros H1 H2. induction l1 as [|x l1 IH]; [done|].
  destruct l1 as [|y l1].
  - destruct l2; [done|]. done.
  - change ((x :: y :: l1) ++ l2) with (x :: ((y :: l1) ++ l2)).
    cbn [Py.join app]. cbn [Py.join app] in IH. rewrite IH by done.
    by rewrite !sapp_assoc.
Qed.

Lemma join_concat (sep : string) (ls : list (list string)) :
  Forall (fun l => l <> []) ls ->
  Py.join sep (Py.join sep <$> ls) = Py.join sep (concat ls).
Proof.
  induction 1 as [|l ls Hl Hls IH]; [done|].
  destruct ls as [|l' ls].
  - cbn. by rewrite app_nil_r.
  - change (Py.join sep (Py.join sep <$> l :: l' :: ls))
      with (Py.join sep l +:+ sep +:+ Py.join sep (Py.join sep <$> l' :: ls)).
    rewrite IH. change (concat (l :: l' :: ls)) with (l ++ concat (l' :: ls)).
    rewrite (join_app sep l (concat (l' :: ls))); [reflexivity|exact Hl|].
    apply Forall_cons in Hls as [Hl' _]. cbn [concat]. by destruct l'.
Qed.

Lemma split_join (sep : ascii) (toks : list string) :
  toks <> [] -> Forall (fun t => Py.contains sep t = false) toks ->
  Py.split sep (Py.join (String sep "") toks) = toks.
Proof.
  intros Hne Hall. induction Hall as [|t toks Ht Hall IH]; [done|].
  destruct toks as [|t' toks].
  - by apply split_no_sep.
  - change (Py.join (String sep "") (t :: t' :: toks))
      with (t +:+ String sep "" +:+ Py.join (String sep "") (t' :: toks)).
    rewrite sapp_cons, sapp_nil_l, split_app_sep by done.
    by rewrite IH.
Qed.


Lemma arith_run_S x d n : arith_run x d (S n) = x :: arith_run (x + d) d n.
Proof.
  unfold arith_run. cbn [seq fmap list_fmap]. f_equal; [lia|].
  rewrite <- seq_shift, <- list_fmap_compose. apply list_fmap_ext.
  intros _ i _. simpl. lia.
Qed.

Lemma arith_run_length x d n : length (arith_run x d n) = n.
Proof. unfold arith_run. by rewrite length_fmap, length_seq. Qed.

Lemma spec_run_tail_arith d prev l run rest :
  spec_run_tail d prev l = (run, rest) -> run = arith_run (prev + d) d (length run).
Proof.
  revert prev run. induction l as [|y l IH]; intros prev run; cbn [spec_run_tail].
  - by intros [= <- <-].
  - destruct (Z.eqb_spec (y - prev) d) as [Hd|Hd]; [|by intros [= <- <-]].
    destruct (spec_run_tail d y l) as [run' rest'] eqn:E. intros [= <- <-].
    cbn [length]. rewrite arith_run_S. f_equal; [lia|].
    rewrite (IH y run' E) at 1. f_equal. lia.
Qed.

Lemma arith_run_last x d n dflt :
  List.last (arith_run x d (S n)) dflt = x + Z.of_nat n * d.
Proof.
  revert x dflt. induction n as [|n IH]; intros x dflt.
  - cbn. lia.
  - rewrite arith_run_S, last_cons_default, IH. lia.
Qed.

Lemma arith_run_ascending x d n : 0 < d -> StronglySorted Z.lt (arith_run x d n).
Proof.
  intros Hd. revert x. induction n as [|n IH]; intros x; [constructor|].
  rewrite arith_run_S. constructor; [apply IH|].
  apply Forall_forall. intros y Hy. unfold arith_run in Hy.
  apply list_elem_of_fmap in Hy as (i & -> & _). nia.
Qed.

(** The runs of an ascending list are progressions, and together they are
    the list. *)
Lemma spec_runs_ok fuel : forall l,
  StronglySorted Z.lt l ->
  Forall run_ok (spec_runs fuel l)
  /\ ((length l <= fuel)%nat -> concat (spec_runs fuel l) = l).
Proof.
  induction fuel as [|fuel IH]; intros l Hl.
  { split; [destruct l; constructor|]. destruct l; [done|]. simpl. lia. }
  destruct l as [|x [|y l']].
  - split; [constructor|done].
  - split; [|done]. constructor; [|constructor]. exists x, 1, 1%nat.
    split; [lia|]. split; [lia|]. cbn. f_equal. lia.
  - cbn [spec_runs].
    assert (Hxy : x < y).
    { apply StronglySorted_inv in Hl as [_ Hx]. by apply Forall_cons in Hx as [? _]. }
    assert (Htl : StronglySorted Z.lt (y :: l'))
      by (by apply StronglySorted_inv in Hl as [? _]).
    destruct (spec_run_tail (y - x) y l') as [run rest] eqn:E.
    pose proof (spec_run_tail_app _ _ _ _ _ E) as Happ.
    pose proof (spec_run_tail_arith _ _ _ _ _ E) as Hrun.
    assert (Hrest : StronglySorted Z.lt rest).
    { apply StronglySorted_inv in Htl as [Hl' _]. rewrite Happ in Hl'.
      by apply ascending_suffix in Hl'. }
    assert (Hgen : Forall run_ok ((x :: y :: run) :: spec_runs fuel rest)
      /\ ((length (x :: y :: l') <= S fuel)%nat ->
          concat ((x :: y :: run) :: spec_runs fuel rest) = x :: y :: l')).
    { destruct (IH rest Hrest) as [IH1 IH2]. split.
      - constructor; [|done]. exists x, (y - x), (2 + length run)%nat.
        split; [lia|]. split; [lia|].
        cbn [Nat.add]. rewrite !arith_run_S.
        replace (x + (y - x)) with y by lia. by rewrite <- Hrun.
      - intros Hlen. cbn [concat]. rewrite IH2.
        + by rewrite Happ, <- !app_comm_cons.
        + rewrite Happ in Hlen. cbn [length] in Hlen.
          rewrite length_app in Hlen. lia. }
    destruct run as [|r run]; [|done].
    destruct rest as [|z rest]; [done|].
    cbn [app] in Happ. subst l'.
    destruct (Z.eqb_spec (z - y) 1) as [Hz|Hz].
    + destruct (IH (y :: z :: rest) Htl) as [IH1 IH2]. split.
      * constructor; [|done]. exists x, 1, 1%nat.
        split; [lia|]. split; [lia|]. cbn. f_equal. lia.
      * intros Hlen. cbn [concat app]. rewrite IH2; [done|].
        cbn [length] in *. lia.
    + done.
Qed.

Lemma xrange_arith x d n :
  0 < d -> (1 <= n)%nat ->
  Py.xrange x (x + (Z.of_nat n - 1) * d + 1) d = Ok (arith_run x d n).
Proof.
  intros Hd Hn. unfold Py.xrange, Py.len_of_range.
  destruct (Z.eqb_spec d 0); [lia|].
  destruct (Z.ltb_spec 0 d); [|lia].
  destruct (Z.ltb_spec x (x + (Z.of_nat n - 1) * d + 1)); [|nia].
  replace (x + (Z.of_nat n - 1) * d + 1 - 1 - x) with ((Z.of_nat n - 1) * d) by lia.
  rewrite Z.div_mul by lia.
  replace (Z.to_nat (1 + (Z.of_nat n - 1))) with n by lia. done.
Qed.

Lemma interval_arith x n :
  (1 <= n)%nat -> spec_interval x (x + (Z.of_nat n - 1)) = arith_run x 1 n.
Proof.
  intros Hn. pose proof (xrange_interval x (x + (Z.of_nat n - 1))) as H1.
  pose proof (xrange_arith x 1 n ltac:(lia) Hn) as H2.
  rewrite Z.mul_1_r in H2. congruence.
Qed.


Lemma part_batches_single n zfill : part_batches (Py.format_0d n zfill) [[n]].
Proof.
  exists [Some (Py.format_0d n zfill)]. split.
  - apply first_match_single, format_0d_int_text.
  - apply match_batches_single, int_of_string_format_0d.
Qed.

Lemma run_tokens_parse zfill run :
  run_ok run ->
  run_tokens zfill run <> []
  /\ Forall (fun t => Py.contains "," t = false) (run_tokens zfill run)
  /\ spec_render_run zfill run = Py.join "," (run_tokens zfill run)
  /\ exists bss, Forall2 part_batches (run_tokens zfill run) bss
                 /\ concat (concat bss) = run.
Proof.
  intros (x & d & n & Hd & Hn & ->).
  destruct n as [|[|[|m]]]; [lia| | |].
  - (* one frame *)
    rewrite arith_run_S. change (arith_run _ d 0) with (@nil Z).
    cbn [run_tokens spec_render_run Py.join].
    split; [done|]. split.
    { constructor; [|done]. apply contains_int_text; [apply format_0d_int_text|done..]. }
    split; [done|]. exists [[[x]]]. split; [|done].
    constructor; [apply part_batches_single|constructor].
  - (* two frames *)
    rewrite !arith_run_S. change (arith_run _ d 0) with (@nil Z).
    cbn [run_tokens spec_render_run Py.join].
    split; [done|]. split.
    { repeat constructor; (apply contains_int_text; [apply format_0d_int_text|done..]). }
    split; [done|]. exists [[[x]]; [[x + d]]]. split; [|done].
    repeat constructor; apply part_batches_single.
  - (* three frames or more *)
    set (run := arith_run x d (S (S (S m)))).
    assert (Hrun : run = x :: (x + d) :: (x + d + d) :: arith_run (x + d + d + d) d m)
      by (unfold run; by rewrite !arith_run_S).
    assert (Hlast : List.last run x = x + (Z.of_nat (S (S (S m))) - 1) * d).
    { unfold run. rewrite arith_run_last. lia. }
    assert (Htok : run_tokens zfill run =
      if d =? 1 then [Py.format_0d x zfill +:+ "-" +:+ Py.format_0d (List.last run x) zfill]
      else [Py.format_0d x zfill +:+ "-" +:+ Py.format_0d (List.last run x) zfill
              +:+ "x" +:+ Py.str d]).
    { rewrite Hrun at 1. cbn [run_tokens]. rewrite <- Hrun.
      by replace (x + d - x) with d by lia. }
    assert (Hren : spec_render_run zfill run = Py.join "," (run_tokens zfill run)).
    { rewrite Htok. rewrite Hrun at 1. cbn [spec_render_run]. rewrite <- Hrun.
      replace (x + d - x) with d by lia. by destruct (d =? 1). }
    rewrite Htok.
    pose proof (format_0d_int_text x zfill) as Hx.
    pose proof (format_0d_int_text (List.last run x) zfill) as Hl.
    destruct (Z.eqb_spec d 1) as [->|Hd1].
    + split; [done|]. split.
      { constructor; [|done]. by apply contains_comma_range. }
      split; [by rewrite Hren, Htok|]. exists [[run]]. split; [|by cbn; rewrite app_nil_r].
      constructor; [|constructor].
      eexists. split; [by apply first_match_range|].
      rewrite (match_batches_range _ _ x (List.last run x))
        by apply int_of_string_format_0d.
      rewrite Hlast, Z.mul_1_r, interval_arith by lia. done.
    + assert (Hds : digits_text (Py.str d)) by (apply str_digits_text; lia).
      split; [done|]. split.
      { constructor; [|done].
        change ("x" +:+ Py.str d) with (String "x" (Py.str d)).
        by apply contains_comma_stepped. }
      split; [by rewrite Hren, Htok; destruct (Z.eqb_spec d 1)|].
      exists [[run]]. split; [|by cbn; rewrite app_nil_r].
      constructor; [|constructor].
      eexists. split.
      { change ("x" +:+ Py.str d) with (String "x" (Py.str d)).
        by apply first_match_stepped. }
      rewrite (match_batches_stepped _ _ "x" _ x (List.last run x) d)
        by auto using int_of_string_format_0d, int_of_string_str.
      rewrite Ascii.eqb_refl, Hlast, xrange_arith by lia. done.
Qed.

Lemma part_loop_batches frange parts bss : forall self,
  Forall2 part_batches parts bss ->
  FrameSet.part_loop self frange parts
  = Ok (foldl FrameSet.__addFrames self (concat bss)).
Proof.
  intros self H. revert self.
  induction H as [|part bs parts bss (groups & Hm & Hb) _ IH]; intros self; [done|].
  cbn [FrameSet.part_loop]. rewrite pattern_loop_first_match, Hm.
  rewrite handleMatch_batches, Hb, !bind_ok, IH.
  cbn [concat]. by rewrite foldl_app.
Qed.

Lemma runs_parse zfill runs :
  Forall run_ok runs -> runs <> [] ->
  exists bss,
    Forall2 part_batches
      (Py.split "," (Py.join "," (spec_render_run zfill <$> runs))) bss
    /\ concat (concat bss) = concat runs.
Proof.
  intros Hok Hne.
  assert (Htok : Forall (fun l => l <> []) (run_tokens zfill <$> runs)).
  { apply Forall_fmap. eapply Forall_impl; [exact Hok|].
    intros run Hrun. by apply run_tokens_parse. }
  assert (Hren : spec_render_run zfill <$> runs
                 = Py.join "," <$> (run_tokens zfill <$> runs)).
  { rewrite <- list_fmap_compose. apply Forall_fmap_ext.
    eapply Forall_impl; [exact Hok|]. intros run Hrun. by apply run_tokens_parse. }
  rewrite Hren, join_concat by done.
  rewrite split_join.
  - clear Hne Htok Hren. induction Hok as [|run runs Hrun Hok (bss & IH1 & IH2)].
    + by exists [].
    + destruct (run_tokens_parse zfill run Hrun) as (_ & _ & _ & bs & Hb1 & Hb2).
      exists (bs ++ bss). split.
      * cbn [fmap list_fmap concat]. by apply Forall2_app.
      * rewrite !concat_app. cbn [concat]. by rewrite Hb2, IH2.
  - destruct Hok as [|run runs Hrun _]; [done|].
    cbn [fmap list_fmap concat].
    destruct (run_tokens_parse zfill run Hrun) as (Hr & _). by destruct (run_tokens zfill run).
  - apply Forall_concat, Forall_fmap. eapply Forall_impl; [exact Hok|].
    intros run Hrun. by apply run_tokens_parse.
Qed.

Lemma written_runs_Forall (P : list Z -> Prop) runs :
  Forall P runs -> Forall P (written_runs runs).
Proof.
  induction 1 as [|run runs Hrun Hruns IH]; [done|].
  destruct runs as [|run' runs].
  - destruct run as [|x [|y run]]; by repeat constructor.
  - rewrite written_runs_cons by done. by constructor.
Qed.

Lemma written_runs_concat runs :
  concat runs = concat (written_runs runs)
  \/ exists last, concat runs = concat (written_runs runs) ++ [last].
Proof.
  induction runs as [|run runs IH]; [by left|].
  destruct runs as [|run' runs].
  - destruct run as [|x [|y run]]; [by left| |by left].
    right. by exists x.
  - rewrite written_runs_cons by done.
    rewrite (concat_cons run (run' :: runs)), (concat_cons run (written_runs _)).
    destruct IH as [-> | [last ->]]; [by left|].
    right. exists last. by rewrite app_assoc.
Qed.

Lemma written_runs_nonempty fuel x y l :
  (1 <= fuel)%nat -> written_runs (spec_runs (S fuel) (x :: y :: l)) <> [].
Proof.
  intros Hfuel. cbn [spec_runs].
  destruct (spec_run_tail (y - x) y l) as [[|r run] [|z rest]] eqn:E.
  - by destruct (spec_runs fuel []).
  - destruct (z - y =? 1).
    + rewrite written_runs_cons; [done|]. apply spec_runs_nonempty. lia.
    + by destruct (spec_runs fuel (z :: rest)).
  - by destruct (spec_runs fuel []).
  - by destruct (spec_runs fuel (z :: rest)).
Qed.

Lemma ascending_NoDup (l : list Z) : StronglySorted Z.lt l -> NoDup l.
Proof.
  induction 1 as [|x l Hl IH Hx]; constructor; [|done].
  intros Hin. eapply Forall_forall in Hx; [|exact Hin]. lia.
Qed.

(** The text that [framesToFrameRange] makes of an ascending list parses,
    and the parse gives the runs that were written. *)
Lemma compact_parse frames sort zfill :
  StronglySorted Z.lt frames -> (2 <= length frames)%nat ->
  exists s fs,
    fst (framesToFrameRange frames sort zfill) = Ok s
    /\ FrameSet.__init__ s = Ok fs
    /\ FrameSet.__list fs = concat (written_runs (spec_runs (length frames) frames)).
Proof.
  intros Hasc Hlen. rewrite framesToFrameRange_runs by done. cbn [fst].
  set (runs := written_runs (spec_runs (length frames) frames)).
  destruct (spec_runs_ok (length frames) frames Hasc) as [Hok Hcat].
  specialize (Hcat ltac:(lia)).
  assert (Hne : runs <> []).
  { unfold runs. destruct frames as [|x [|y l]]; cbn [length] in *; [lia..|].
    apply written_runs_nonempty. lia. }
  destruct (runs_parse zfill runs) as (bss & Hparts & Hvals);
    [by apply written_runs_Forall | done |].
  eexists _, _. split; [reflexivity|].
  unfold FrameSet.__init__. rewrite (part_loop_batches _ _ bss) by done.
  split; [reflexivity|].
  set (s := Py.join "," _).
  destruct (foldl_addFrames
    {| FrameSet.__frange := s; FrameSet.__set := ∅; FrameSet.__list := [] |}
    (concat bss) []) as (_ & Hl & _); [apply wf_empty| |done|].
  { apply Forall_concat. eapply Forall2_Forall_r; [exact Hparts|].
    apply Forall_forall. intros part _ bs (groups & _ & Hb).
    by eapply match_batches_NoDup. }
  rewrite Hl. cbn [app]. rewrite Hvals. apply first_occurrences_NoDup.
  apply ascending_NoDup.
  destruct (written_runs_concat (spec_runs (length frames) frames)) as [H | [last H]];
    fold runs in H; rewrite Hcat in H.
  - by rewrite <- H.
  - rewrite H in Hasc. clear -Hasc.
    induction (concat runs) as [|a l IH]; [constructor|].
    cbn [app] in Hasc. apply StronglySorted_inv in Hasc as [Hl Ha].
    constructor; [by apply IH|]. by apply Forall_app in Ha as [? _].
Qed.

(** X18.  The text that [framesToFrameRange] makes of an ascending list of
    two frames or more is a range that [FrameSet] accepts.  Parsed, it
    gives back the frames in their order, all of them or all but the last
    one. *)
Theorem framesToFrameRange_parses_back (frames : list Z) (sort : bool) (zfill : nat) :
  StronglySorted Z.lt frames -> (2 <= length frames)%nat ->
  exists s fs,
    fst (framesToFrameRange frames sort zfill) = Ok s
    /\ FrameSet.__init__ s = Ok fs
    /\ (FrameSet.__list fs = frames
        \/ exists last, frames = FrameSet.__list fs ++ [last]).
Proof.
  intros Hasc Hlen.
  destruct (compact_parse frames sort zfill Hasc Hlen) as (s & fs & Hs & Hfs & Hl).
  exists s, fs. split; [done|]. split; [done|]. rewrite Hl.
  destruct (spec_runs_ok (length frames) frames Hasc) as [_ Hcat].
  specialize (Hcat ltac:(lia)).
  destruct (written_runs_concat (spec_runs (length frames) frames)) as [H | [last H]];
    rewrite Hcat in H; eauto.
Qed.

Lemma framesToFrameRange_parses_back_witness :
  exists s fs,
    fst (framesToFrameRange [1; 2; 3; 5] true 4) = Ok s
    /\ FrameSet.__init__ s = Ok fs
    /\ (FrameSet.__list fs = [1; 2; 3; 5]
        \/ exists last, [1; 2; 3; 5] = FrameSet.__list fs ++ [last]).
Proof.
  apply (framesToFrameRange_parses_back [1; 2; 3; 5] true 4).
  - repeat constructor; lia.
  - simpl. lia.
Defined.

Lemma sorted_NoDup_ascending (l : list Z) :
  NoDup l -> StronglySorted Z.lt (Py.sorted l).
Proof.
  intros Hnd.
  assert (Hs : StronglySorted Z.le (Py.sorted l))
    by (apply StronglySorted_merge_sort; apply _).
  assert (Hn : NoDup (Py.sorted l))
    by (unfold Py.sorted; by rewrite merge_sort_Permutation).
  induction Hs as [|x l' Hl IH Hx]; constructor.
  - apply IH. by apply NoDup_cons in Hn as [_ ?].
  - apply NoDup_cons in Hn as [Hxl _]. rewrite Forall_forall in *.
    intros y Hy. specialize (Hx y Hy). assert (x <> y) by (by intros ->). lia.
Qed.

(** X19.  [normalize] on a constructed [FrameSet]: [IndexError] when it
    has no frame; otherwise a new [FrameSet] whose list is the frames in
    ascending order, all of them or all but the largest. *)
Theorem normalize_result (frange : string) (fs : FrameSet.t) :
  FrameSet.__init__ frange = Ok fs ->
  match FrameSet.__list fs with
  | [] => fst (FrameSet.normalize fs) = Raise IndexError
  | _ =>
      exists fs', fst (FrameSet.normalize fs) = Ok fs'
        /\ (FrameSet.__list fs' = Py.sorted (FrameSet.__list fs)
            \/ exists last,
                 Py.sorted (FrameSet.__list fs) = FrameSet.__list fs' ++ [last])
  end.
Proof.
  intros [[Hnd _] _]%init_wf. unfold FrameSet.normalize.
  destruct (framesToFrameRange (FrameSet.__list fs) true 0) as [r l] eqn:E.
  cbn [fst].
  assert (Hr : r = fst (framesToFrameRange (FrameSet.__list fs) true 0))
    by (by rewrite E).
  clear E. destruct (FrameSet.__list fs) as [|x [|y l']] eqn:El.
  - by subst r.
  - subst r. cbn.
    destruct (init_one_batch (Py.str x) [Some (Py.str x)] [x]) as (fs' & Hfs' & Hl & _).
    + apply contains_int_text; [apply str_int_text|done..].
    + apply first_match_single, str_int_text.
    + apply match_batches_single, int_of_string_str.
    + exists fs'. split; [done|]. by left.
  - assert (Hasc : StronglySorted Z.lt (Py.sorted (x :: y :: l')))
      by (by apply sorted_NoDup_ascending).
    assert (Hlen : (2 <= length (Py.sorted (x :: y :: l')))%nat)
      by (rewrite sorted_length; simpl; lia).
    assert (Hsame : fst (framesToFrameRange (x :: y :: l') true 0)
                    = fst (framesToFrameRange (Py.sorted (x :: y :: l')) false 0)).
    { unfold framesToFrameRange. rewrite sorted_length. done. }
    destruct (compact_parse _ false 0 Hasc Hlen) as (s & fs' & Hs & Hfs' & Hl).
    rewrite Hr, Hsame, Hs, bind_ok. exists fs'. split; [done|]. rewrite Hl.
    destruct (spec_runs_ok (length (Py.sorted (x :: y :: l'))) _ Hasc) as [_ Hcat].
    specialize (Hcat ltac:(lia)).
    destruct (written_runs_concat
                (spec_runs (length (Py.sorted (x :: y :: l'))) (Py.sorted (x :: y :: l'))))
      as [H | [last H]]; rewrite Hcat in H; eauto.
Qed.

Lemma normalize_result_witness :
  exists fs fs', FrameSet.__init__ "5,1-3" = Ok fs
    /\ fst (FrameSet.normalize fs) = Ok fs'
    /\ FrameSet.__list fs' = [1; 2; 3].
Proof.
  eexists. 
  pose proof (normalize_result "5,1-3" _ eq_refl) as H.
  cbn [FrameSet.__list] in H.
  destruct H as (fs' & Hfs' & _).
  exists fs'. split; [reflexivity|]. split; [exact Hfs'|].
  vm_compute in Hfs'. injection Hfs' as <-. reflexivity.
Defined.

(** *** The paths of a sequence *)

Lemma sapp_cancel_l (a b c : string) : a +:+ b = a +:+ c -> b = c.
Proof. induction a as [|x a IH]; sapp; [done|]. intros [= H]. by apply IH. Qed.

Lemma sapp_cancel_r (a b e : string) : a +:+ e = b +:+ e -> a = b.
Proof.
  revert b. induction a as [|x a IH]; intros [|y b]; sapp; [done| | |].
  - intros H. apply (f_equal String.length) in H.
    cbn [String.length] in H. rewrite slength_app in H. lia.
  - intros H. apply (f_equal String.length) in H.
    cbn [String.length] in H. rewrite slength_app in H. lia.
  - intros [= -> H]. f_equal. by apply IH.
Qed.

Lemma format_0d_inj n m width : Py.format_0d n width = Py.format_0d m width -> n = m.
Proof.
  intros H. pose proof (int_of_string_format_0d n width) as Hn.
  rewrite H, int_of_string_format_0d in Hn. congruence.
Qed.

(** X20.  Iterating over a constructed sequence that has a frame set and
    an extension yields one path for each frame, in the order of the
    frames: directory, base name, the frame number padded to the width of
    the padding, extension.  The paths are pairwise distinct, and the path
    at a position is the one that indexing returns for that position. *)
Theorem iter_paths (sequence : string) (self : FileSequence.t)
    (fs : FrameSet.t) (ext : string) :
  FileSequence.__init__ sequence = Ok self ->
  FileSequence.frameSet self = Some fs ->
  FileSequence.extension self = Some ext ->
  exists base paths,
    FileSequence.basename self = Some base
    /\ FileSequence.__iter__ self = Ok paths
    /\ paths = (fun f => FileSequence.dirname self +:+ base
                           +:+ Py.format_0d f (FileSequence.zfill self) +:+ ext)
                 <$> FrameSet.__list fs
    /\ NoDup paths
    /\ forall i p, paths !! i = Some p ->
         FileSequence.__getitem__ self (Z.of_nat i) = Ok p.
Proof.
  unfold FileSequence.frameSet, FileSequence.extension, FileSequence.basename,
    FileSequence.dirname, FileSequence.zfill.
  intros (dir & base & fr & pad & rest & _ & _ & _ & _ & Hdir & Hbase & _ & _ & Hfs & _)%init_fields
    Hself Hext.
  assert (Hnd : NoDup (FrameSet.__list fs)).
  { destruct Hfs as [[_ H] | (_ & fs' & Hinit & H)]; [congruence|].
    assert (fs' = fs) as -> by congruence. by apply init_wf in Hinit as [[? _] _]. }
  exists base. eexists. split; [done|].
  assert (Hframe : forall f, FileSequence.frame self (VInt f)
    = Ok (FileSequence.__dir self +:+ base
            +:+ Py.format_0d f (FileSequence.__zfill self) +:+ ext)).
  { intros f. by apply frame_int. }
  split; [|split; [reflexivity|split]].
  - unfold FileSequence.__iter__, FrameSet.__iter__. rewrite Hself.
    apply mapM_Ok_fmap. intros f _. apply Hframe.
  - apply NoDup_fmap_2_strong; [|done].
    intros f g _ _ H. do 2 apply sapp_cancel_l in H.
    apply sapp_cancel_r in H. by apply format_0d_inj in H.
  - intros i p Hp. apply list_lookup_fmap_Some in Hp as (f & -> & Hf).
    unfold FileSequence.__getitem__, FileSequence.index, FrameSet.__getitem__.
    rewrite Hself, getitem_nat, Hf, bind_ok. apply Hframe.
Qed.

Lemma iter_paths_witness :
  exists self paths,
    FileSequence.__init__ "/path/to/file.1-3#.exr" = Ok self
    /\ FileSequence.__iter__ self = Ok paths /\ NoDup paths.
Proof.
  eexists.
  destruct (iter_paths "/path/to/file.1-3#.exr" _ _ ".exr" eq_refl eq_refl eq_refl)
    as (base & paths & _ & Hiter & _ & Hnd & _).
  exists paths. split; [reflexivity|]. split; [exact Hiter | exact Hnd].
Defined.

(** *** The inverted range, parsed *)

(** X21.  The inverted range of a [FrameSet] is empty when no integer is
    missing between two of its frames.  Otherwise it is a range that
    [FrameSet] accepts, and parsing it gives the missing integers in
    ascending order, all of them or all but the largest. *)
Theorem invertedFrameRange_parses_back (self : FrameSet.t) (zfill : nat) :
  exists gaps,
    StronglySorted Z.lt gaps
    /\ (forall x, x ∈ gaps <->
          (x ∉ FrameSet.__set self)
          /\ exists a b, a ∈ FrameSet.__set self /\ b ∈ FrameSet.__set self
                         /\ a < x < b)
    /\ match gaps with
       | [] => FrameSet.invertedFrameRange self zfill = Ok ""
       | _ =>
           exists s fs,
             FrameSet.invertedFrameRange self zfill = Ok s
             /\ FrameSet.__init__ s = Ok fs
             /\ (FrameSet.__list fs = gaps
                 \/ exists last, gaps = FrameSet.__list fs ++ [last])
       end.
Proof.
  exists (spec_gaps (Py.sorted (elements (FrameSet.__set self)))).
  pose proof (spec_gaps_ascending _ (sorted_ascending (FrameSet.__set self))) as Hasc.
  split; [done|]. split.
  { intros x. rewrite (elem_of_spec_gaps _ _ (sorted_ascending _)).
    rewrite elem_of_sorted. by setoid_rewrite elem_of_sorted. }
  rewrite invertedFrameRange_gaps.
  destruct (spec_gaps _) as [|g [|h gaps]] eqn:E; [done| |].
  - rewrite framesToFrameRange_single. cbn [fst].
    destruct (init_one_batch (Py.str g) [Some (Py.str g)] [g]) as (fs & Hfs & Hl & _).
    + apply contains_int_text; [apply str_int_text|done..].
    + apply first_match_single, str_int_text.
    + apply match_batches_single, int_of_string_str.
    + exists (Py.str g), fs. split; [done|]. split; [done|]. by left.
  - destruct (compact_parse (g :: h :: gaps) true zfill Hasc) as (s & fs & Hs & Hfs & Hl);
      [simpl; lia|].
    exists s, fs. split; [done|]. split; [done|]. rewrite Hl.
    destruct (spec_runs_ok (length (g :: h :: gaps)) _ Hasc) as [_ Hcat].
    specialize (Hcat ltac:(lia)).
    destruct (written_runs_concat (spec_runs (length (g :: h :: gaps)) (g :: h :: gaps)))
      as [H | [last H]]; rewrite Hcat in H; eauto.
Qed.

(** *** [FileSequence.split] *)

Lemma split_pieces_contain (c sep : ascii) (s : string) :
  Py.contains c s = false ->
  Forall (fun t => Py.contains c t = false) (Py.split sep s).
Proof.
  induction s as [|a s IH]; cbn [Py.split Py.contains].
  - by repeat constructor.
  - intros [Ha Hs]%orb_false_iff. specialize (IH Hs).
    destruct (Ascii.eqb a sep).
    + by constructor.
    + destruct (Py.split sep s) as [|x l]; [by repeat constructor; cbn; rewrite Ha|].
      apply Forall_cons in IH as [Hx Hl]. constructor; [|done].
      cbn [Py.contains]. by rewrite Ha, Hx.
Qed.

Lemma split_pieces_no_sep (sep : ascii) (s : string) :
  Forall (fun t => Py.contains sep t = false) (Py.split sep s).
Proof.
  induction s as [|a s IH]; cbn [Py.split].
  - by repeat constructor.
  - destruct (Ascii.eqb a sep) eqn:Ha.
    + by constructor.
    + destruct (Py.split sep s) as [|x l]; [by repeat constructor; cbn; rewrite Ha|].
      apply Forall_cons in IH as [Hx Hl]. constructor; [|done].
      cbn [Py.contains]. by rewrite Ha, Hx.
Qed.

Lemma contains_zeros c k : c <> "0"%char -> Py.contains c (Py.zeros k) = false.
Proof.
  intros Hc. induction k as [|k IH]; [done|]. cbn [Py.zeros Py.contains].
  rewrite IH, orb_false_r. apply Ascii.eqb_neq. congruence.
Qed.

Lemma contains_zfill c s width :
  c <> "0"%char -> Py.contains c s = false -> Py.contains c (Py.zfill s width) = false.
Proof.
  intros Hc Hs. unfold Py.zfill.
  set (pad := Py.zeros (width - String.length s)).
  assert (Hpad : Py.contains c pad = false) by by apply contains_zeros.
  assert (Hgen : forall t, Py.contains c t = false -> Py.contains c (pad +:+ t) = false).
  { intros t Ht. by rewrite contains_app, Hpad, Ht. }
  destruct s as [|a t]; [by apply Hgen|].
  cbn [Py.contains] in Hs. apply orb_false_iff in Hs as [Ha Ht].
  assert (Hcons : forall x, Ascii.eqb x c = false ->
            Py.contains c (String x (pad +:+ t)) = false).
  { intros x Hx. cbn [Py.contains]. by rewrite Hx, Hgen. }
  assert (Hfull : Py.contains c (pad +:+ String a t) = false).
  { apply Hgen. cbn [Py.contains]. by rewrite Ha, Ht. }
  destruct a as [[] [] [] [] [] [] [] []]; try exact Hfull; by apply Hcons.
Qed.

Lemma padded_part_contains zfill part :
  Py.contains "," part = false -> Py.contains "," (padded_part zfill part) = false.
Proof.
  intros Hp. unfold padded_part.
  pose proof (split_pieces_contain "," "-" part Hp) as Hall.
  destruct (Py.split "-" part) as [|a [|b l]].
  - by apply contains_zfill.
  - by apply contains_zfill.
  - apply Forall_cons in Hall as [Ha Hall]. apply Forall_cons in Hall as [Hb _].
    rewrite !contains_app. cbn [Py.contains].
    by rewrite !contains_zfill.
Qed.

Lemma padFrameRange_part zfill part :
  Py.contains "," part = false -> padFrameRange part zfill = Ok (padded_part zfill part).
Proof. intros Hp. by rewrite padFrameRange_parts, split_no_sep. Qed.

Lemma split_padded frs zfill :
  Py.split "," (Py.join "," (padded_part zfill <$> Py.split "," frs))
  = padded_part zfill <$> Py.split "," frs.
Proof.
  apply split_join.
  - destruct (split_cons "," frs) as (x & l & ->). done.
  - apply Forall_fmap. eapply Forall_impl; [apply split_pieces_no_sep|].
    intros part Hp. by apply padded_part_contains.
Qed.

(** X23.  [split] on a constructed sequence that has a frame set and an
    extension: every part of the range, between commas, gives one piece,
    in order; the piece is the [FileSequence] of the descriptor made of the
    directory, the base name, that part padded by [padFrameRange], the
    padding and the extension. *)
Theorem split_pieces (sequence : string) (self : FileSequence.t)
    (fs : FrameSet.t) (ext : string) (pieces : list FileSequence.t) :
  FileSequence.__init__ sequence = Ok self ->
  FileSequence.frameSet self = Some fs ->
  FileSequence.extension self = Some ext ->
  FileSequence.split self = Ok pieces ->
  exists base pad,
    FileSequence.basename self = Some base
    /\ FileSequence.padding self = Some pad
    /\ length pieces = length (Py.split "," (FrameSet.__str__ fs))
    /\ forall i piece, pieces !! i = Some piece ->
         exists part range,
           Py.split "," (FrameSet.__str__ fs) !! i = Some part
           /\ padFrameRange part (FileSequence.zfill self) = Ok range
           /\ FileSequence.__init__
                (FileSequence.dirname self +:+ base +:+ range +:+ pad +:+ ext)
              = Ok piece.
Proof.
  unfold FileSequence.frameSet, FileSequence.extension, FileSequence.basename,
    FileSequence.padding, FileSequence.dirname, FileSequence.zfill, FrameSet.__str__.
  intros (dir & base & fr & pad & rest & _ & _ & _ & _ & Hdir & Hbase & Hpad & _)%init_fields
    Hself Hext.
  unfold FileSequence.split, FileSequence.frameRange, FileSequence.on_frameSet,
    FrameSet.frameRange.
  rewrite Hself, padFrameRange_parts, bind_ok, split_padded, Hbase, Hpad, Hext.
  cbn [of_group FileSequence.join_values]. intros Hmap.
  exists base, pad. split; [done|]. split; [done|].
  apply mapM_Ok in Hmap.
  split.
  - apply Forall2_length in Hmap. by rewrite length_fmap in Hmap.
  - intros i piece Hi.
    destruct (Forall2_lookup_r _ _ _ _ _ Hmap Hi) as (range & Hrange & Hinit).
    apply list_lookup_fmap_Some in Hrange as (part & -> & Hpart).
    exists part, (padded_part (FileSequence.__zfill self) part).
    split; [done|]. split.
    + apply padFrameRange_part.
      pose proof (split_pieces_no_sep "," (FrameSet.__frange fs)) as Hall.
      eapply Forall_forall in Hall; [exact Hall|]. by eapply list_elem_of_lookup_2.
    + rewrite !bind_ok, sapp_nil_r in Hinit. exact Hinit.
Qed.

Lemma split_pieces_witness :
  exists self pieces,
    FileSequence.__init__ "/path/to/file.1-5,8-10#.exr" = Ok self
    /\ FileSequence.split self = Ok pieces
    /\ length pieces = 2%nat.
Proof.
  eexists. eexists. split; [vm_compute; reflexivity|].
  split; [vm_compute; reflexivity|].
  match goal with
  | |- length ?p = _ =>
      destruct (split_pieces "/path/to/file.1-5,8-10#.exr" _ _ ".exr" p
                  eq_refl eq_refl eq_refl) as (_ & _ & _ & _ & Hlen & _)
  end.
  - vm_compute. reflexivity.
  - rewrite Hlen. reflexivity.
Defined.
